(** * DigitalGhar backend: order lifecycle and download entitlement

    A shallow embedding of the request handlers of the order routes
    ([routes/order.routes.ts]), the cart routes, the admin routes that verify
    and reject payments, and the order-number generator of the UPI service,
    with the Prisma tables and the Redis cart store as an explicit world
    state.

    Conventions of the embedding:
    - a Prisma table is the list of its rows; [findUnique]/[findFirst] return
      the first matching row, [update where id] rewrites the rows with that id
      and throws when there is none;
    - the Redis store is a finite map from keys to entries; an entry keeps the
      TTL it was written with and the JSON array of product ids it holds;
    - every [await] on a collaborator may throw: the per-request environment
      [Env] says which dependency calls fail, and state written before a throw
      stays written (there is no rollback in the handlers);
    - a price is a Prisma [Decimal], an exact non-negative decimal fraction;
      a JavaScript number is an IEEE 754 binary64 value, with the Standard
      Library's specification of binary floating point as its arithmetic
      (round to nearest, ties to even);
    - text is held as its UTF-8 bytes; the length of a string is counted in
      UTF-16 code units, as JavaScript counts it;
    - clock readings are milliseconds since the epoch, on a calendar with a
      fixed UTC offset, so that [setDate (getDate () + 7)] adds 604800000 ms. *)

From Stdlib Require Import ZArith List String Ascii Bool Lia Permutation.
From Stdlib Require Import DecimalString SpecFloat Zpower.
From stdpp Require Import base gmap strings list.

Import ListNotations.
Local Open Scope string_scope.
Local Open Scope Z_scope.

(** ** Numbers and decimals *)

(** A JavaScript number: binary64, that is precision 53 and exponents up to
    1024. *)
Definition double : Type := spec_float.

Definition prec : Z := 53.
Definition emax : Z := 1024.

(** The literal [0]. *)
Definition zero : double := S754_zero false.

(** [a + b] on numbers. *)
Definition js_add (a b : double) : double := SFadd prec emax a b.

(** A Prisma [Decimal] column value, [dec_units / 10 ^ dec_scale]. Prices
    enter through [createProductSchema], whose [price] is
    [z.number().positive()], so no sign is kept. *)
Record Decimal := mkDecimal {
  dec_units : N;
  dec_scale : N }.

Definition pow10 (scale : N) : positive := Z.to_pos (10 ^ Z.of_N scale).

(** [Number(d)] for a [Decimal]: its decimal text is read back as the
    binary64 value nearest to it, ties to even. The quotient of the two
    integers is rounded once. *)
Definition Number (d : Decimal) : double :=
  match dec_units d with
  | N0 => zero
  | Npos m =>
      SFdiv prec emax (S754_finite false m 0) (S754_finite false (pow10 (dec_scale d)) 0)
  end.

(** The decimal [n] without a fractional part, and the number it reads as. *)
Definition whole (n : N) : Decimal := mkDecimal n 0.

Definition amount (n : N) : double := Number (whole n).

(** A decimal that stands for the whole number [n]: [n], [n.0], [n.00], ... *)
Definition whole_number (d : Decimal) (n : N) : Prop :=
  dec_units d = (n * N.pos (pow10 (dec_scale d)))%N.

Definition sum_units (ns : list N) : N := fold_right N.add 0%N ns.

(** The binary64 value that holds the integer [m] exactly, for [m] below
    [2 ^ 53]: a mantissa of 53 binary digits and its exponent. *)
Definition held (m : positive) : double :=
  S754_finite false (Z.to_pos (Zpos m * 2 ^ (53 - Zpos (digits2_pos m))))
    (Zpos (digits2_pos m) - 53).

(** The integer nearest to [100 * m * 2 ^ e], the larger one on a tie. *)
Definition hundredths (m : positive) (e : Z) : Z :=
  match e with
  | Zneg k => (200 * Zpos m + 2 ^ Zpos k) / 2 ^ (Zpos k + 1)
  | _ => 100 * Zpos m * 2 ^ e
  end.

(** [m * 2 ^ e < 10 ^ 21] *)
Definition below_1e21 (m : positive) (e : Z) : bool :=
  match e with
  | Zneg k => Zpos m <? 10 ^ 21 * 2 ^ Zpos k
  | _ => Zpos m * 2 ^ e <? 10 ^ 21
  end.

(** [parseFloat(x.toFixed(2))]. [toFixed] prints a finite number below
    [10 ^ 21] in magnitude as the nearest multiple of 0.01 (the larger in
    magnitude on a tie) with the sign of [x], and every other number as
    [String(x)]; [parseFloat] reads the text back. *)
Definition parseFloat_toFixed2 (x : double) : double :=
  match x with
  | S754_zero _ => zero
  | S754_finite s m e =>
      if below_1e21 m e
      then match hundredths m e with
           | Zpos n => SFdiv prec emax (S754_finite s n 0) (S754_finite false 100 0)
           | _ => S754_zero s
           end
      else x
  | _ => x
  end.

(** ** Text *)

(** The UTF-16 code units a byte of UTF-8 text accounts for: one for an
    ASCII byte and for the lead byte of a two- or three-byte sequence, two
    (a surrogate pair) for the lead byte of a four-byte sequence, none for a
    continuation byte. *)
Definition utf16_units (c : ascii) : nat :=
  let n := N_of_ascii c in
  if (n <? 128)%N then 1%nat
  else if (n <? 192)%N then 0%nat
  else if (n <? 240)%N then 1%nat
  else 2%nat.

(** [s.length] *)
Fixpoint js_length (s : string) : nat :=
  match s with
  | EmptyString => 0%nat
  | String c s' => (utf16_units c + js_length s')%nat
  end.

Definition ascii_char (c : ascii) : bool := (N_of_ascii c <? 128)%N.

(** Text made of ASCII characters only. *)
Fixpoint ascii_text (s : string) : bool :=
  match s with
  | EmptyString => true
  | String c s' => ascii_char c && ascii_text s'
  end.

(** ** Data model *)

Inductive PaymentStatus := PENDING | SUBMITTED | VERIFIED | FAILED.

Inductive OrderStatus := ORDER_PENDING | COMPLETED | CANCELLED.

#[global] Instance PaymentStatus_eq_dec : EqDecision PaymentStatus.
Proof. solve_decision. Defined.

#[global] Instance OrderStatus_eq_dec : EqDecision OrderStatus.
Proof. solve_decision. Defined.

(** [req.user] as set by the [authenticate] middleware. *)
Record User := mkUser {
  user_id : string;
  user_email : string;
  user_name : string;
  user_role : string }.

Record Product := mkProduct {
  product_id : string;
  product_title : string;
  product_price : Decimal;
  product_fileUrl : string;
  product_isActive : bool;
  product_downloadCount : Z }.

(** [order_totalAmount] is the number the route hands to [order.create]:
    the row keeps it as given. How the column's decimal type would store it
    is declared in prisma/schema.prisma, which is not among the sources. *)
Record Order := mkOrder {
  order_id : string;
  order_orderNumber : string;
  order_userId : string;
  order_userEmail : string;
  order_totalAmount : double;
  order_paymentStatus : PaymentStatus;
  order_orderStatus : OrderStatus;
  order_utrNumber : option string;
  order_paidAt : option Z }.

Record OrderItem := mkOrderItem {
  item_id : string;
  item_orderId : string;
  item_productId : string;
  item_productTitle : string;
  item_productPrice : Decimal;
  item_downloadCount : Z;
  item_downloadLimit : Z;
  item_downloadUrl : option string;
  item_expiresAt : option Z }.

Record DownloadLog := mkDownloadLog {
  dl_userId : string;
  dl_orderItemId : string;
  dl_productId : string;
  dl_ipAddress : option string;
  dl_userAgent : option string }.

(** The object handed to [JSON.stringify] for the [details] column. *)
Inductive AdminDetails :=
| VerifiedDetails (orderNumber : string) (amount : double)
| RejectedDetails (orderNumber : string) (reason : option string).

Record AdminLog := mkAdminLog {
  al_adminId : string;
  al_action : string;
  al_entityType : string;
  al_entityId : string;
  al_details : AdminDetails;
  al_ipAddress : option string }.

(** A Redis entry written by [setex key ttl value]; the value is the JSON
    array of product ids ([JSON.stringify] / [JSON.parse] of a string array). *)
Record CartEntry := mkCartEntry {
  entry_ttl : Z;
  entry_value : list string }.

Record World := mkWorld {
  redis : gmap string CartEntry;
  products : list Product;
  orders : list Order;
  orderItems : list OrderItem;
  downloadLogs : list DownloadLog;
  adminLogs : list AdminLog }.

Definition with_redis (f : gmap string CartEntry -> gmap string CartEntry) (w : World) : World :=
  mkWorld (f (redis w)) (products w) (orders w) (orderItems w) (downloadLogs w) (adminLogs w).

Definition with_products (f : list Product -> list Product) (w : World) : World :=
  mkWorld (redis w) (f (products w)) (orders w) (orderItems w) (downloadLogs w) (adminLogs w).

Definition with_orders (f : list Order -> list Order) (w : World) : World :=
  mkWorld (redis w) (products w) (f (orders w)) (orderItems w) (downloadLogs w) (adminLogs w).

Definition with_orderItems (f : list OrderItem -> list OrderItem) (w : World) : World :=
  mkWorld (redis w) (products w) (orders w) (f (orderItems w)) (downloadLogs w) (adminLogs w).

Definition with_downloadLogs (f : list DownloadLog -> list DownloadLog) (w : World) : World :=
  mkWorld (redis w) (products w) (orders w) (orderItems w) (f (downloadLogs w)) (adminLogs w).

Definition with_adminLogs (f : list AdminLog -> list AdminLog) (w : World) : World :=
  mkWorld (redis w) (products w) (orders w) (orderItems w) (downloadLogs w) (f (adminLogs w)).

(** ** Responses *)

Record UPIPaymentDetails := mkUPIPaymentDetails {
  upi_upiId : string;
  upi_name : string;
  upi_amount : double;
  upi_orderId : string }.

Record PaymentInfo := mkPaymentInfo {
  pay_upiId : string;
  pay_amount : double;
  pay_qrCode : string;
  pay_note : string }.

Inductive Body :=
| ErrorBody (error : string)
| OrderCreated (order : Order) (items : list OrderItem) (payment : PaymentInfo)
| UtrSubmitted (orderNumber : string)
| DownloadGranted (downloadUrl : string) (remainingDownloads : Z) (productTitle : string)
| PaymentVerified (order : Order)
| PaymentRejected (order : Order)
| CartContents (items : list Product) (total : double)
| CartCount (message : string) (count : nat)
| MessageOnly (message : string).

Record Response := mkResponse {
  status : Z;
  body : Body }.

Definition json (code : Z) (b : Body) : Response := mkResponse code b.

(** ** The environment of one request *)

Inductive Dep :=
| RedisGet | RedisSetex | RedisDel
| ProductFindMany | ProductFindUnique | ProductUpdate
| OrderCreate | OrderFindFirst | OrderFindUnique | OrderUpdate
| OrderItemFindFirst | OrderItemUpdate (id : string)
| DownloadLogCreate | AdminLogCreate
| QrToDataURL | CloudinaryUrl.

Record Env := mkEnv {
  (** [new Date()] at its first use in the handler, in ms *)
  now : Z;
  (** [new Date()] at its second use ([verify] reads the clock again after
      the order update) *)
  now_again : Z;
  (** [date.getFullYear()] and [date.getMonth()] of the first reading *)
  fullYear : N;
  monthIndex : N;
  (** the text of [Math.random().toString(36)] *)
  random36 : string;
  (** ids handed out by the database for the rows created in this request *)
  newOrderId : string;
  newItemId : nat -> string;
  (** [process.env.UPI_ID], [process.env.UPI_NAME] *)
  env_UPI_ID : option string;
  env_UPI_NAME : option string;
  (** [req.ip], [req.headers['user-agent']] *)
  req_ip : option string;
  req_userAgent : option string;
  (** [cloudinary.url publicId] signed to expire the given number of seconds
      after [Date.now ()], and [QRCode.toDataURL] of the UPI link *)
  cloudinary_url : string -> Z -> string;
  qr_toDataURL : UPIPaymentDetails -> string;
  (** which collaborator calls throw during this request *)
  fails : Dep -> bool }.

(** ** Handlers as state-and-exception computations *)

Inductive Exn :=
| DependencyError (d : Dep)
| UniqueConstraint
| RecordNotFound
| ZodError
| TypeError.

Inductive Outcome (A : Type) :=
| Ok (a : A)
| Throw (x : Exn).
Arguments Ok {A} a.
Arguments Throw {A} x.

Definition M (A : Type) : Type := World -> Outcome A * World.

Definition ret {A} (a : A) : M A := fun w => (Ok a, w).

Definition throw {A} (x : Exn) : M A := fun w => (Throw x, w).

Definition bind {A B} (m : M A) (k : A -> M B) : M B :=
  fun w =>
    match m w with
    | (Ok a, w1) => k a w1
    | (Throw x, w1) => (Throw x, w1)
    end.

Notation "'let*' x ':=' m 'in' k" := (bind m (fun x => k))
  (at level 10, x pattern, m at level 100, k at level 200).

(** [try { body } catch (error) { handler error }] *)
Definition try_catch {A} (body : M A) (handler : Exn -> M A) : M A :=
  fun w =>
    match body w with
    | (Ok a, w1) => (Ok a, w1)
    | (Throw x, w1) => handler x w1
    end.

(** [await Promise.all ps]: every promise has been started, so each one's
    writes happen whether or not another one rejects; the await throws when
    one of them rejected. *)
Fixpoint promise_all (ps : list (M unit)) : M unit :=
  fun w =>
    match ps with
    | [] => (Ok tt, w)
    | p :: rest =>
        let '(r1, w1) := p w in
        let '(r2, w2) := promise_all rest w1 in
        (match r1 with Throw x => Throw x | Ok _ => r2 end, w2)
    end.

(** An Express handler always answers: run it and read the response. *)
Definition respond (h : M Response) (w : World) : Response * World :=
  match h w with
  | (Ok r, w1) => (r, w1)
  | (Throw _, w1) => (json 500 (ErrorBody "Unhandled rejection"), w1)
  end.

(** JavaScript truthiness of a string and [a || b] on optional strings. *)
Definition truthy (s : string) : bool := negb (bool_decide (s = "")).

Definition or_default (o : option string) (d : string) : string :=
  match o with
  | Some s => if truthy s then s else d
  | None => d
  end.

(** [getQueryString] applied to a route parameter, which Express hands over
    as a string. *)
Definition getQueryString (param : string) : option string := Some param.

(** ** upi.service.ts *)

Definition decimal (n : N) : string := NilEmpty.string_of_uint (N.to_uint n).

(** [s.padStart(2, '0')] *)
Definition padStart2 (s : string) : string :=
  match String.length s with
  | O => "00"
  | S O => "0" +:+ s
  | _ => s
  end.

(** [s.substring(a, b)] for [a <= b] *)
Definition substring (a b : nat) (s : string) : string := String.substring a (b - a) s.

Definition upper_ascii (c : ascii) : ascii :=
  let n := N_of_ascii c in
  if ((97 <=? n) && (n <=? 122))%N then ascii_of_N (n - 32) else c.

Fixpoint toUpperCase (s : string) : string :=
  match s with
  | EmptyString => EmptyString
  | String c s' => String (upper_ascii c) (toUpperCase s')
  end.

Definition generateOrderNumber (e : Env) : string :=
  let year := decimal (fullYear e) in
  let month := padStart2 (decimal (monthIndex e + 1)) in
  let random := toUpperCase (substring 2 8 (random36 e)) in
  "ORD-" +:+ year +:+ month +:+ "-" +:+ random.

(** ** Collaborators: Redis, Prisma, Cloudinary, the QR renderer *)

Definition CART_EXPIRY : Z := 7 * 24 * 60 * 60.

Section Request.

Variable e : Env.

(** A collaborator call: throws when the environment says so. *)
Definition call {A} (d : Dep) (op : M A) : M A :=
  if fails e d then throw (DependencyError d) else op.

Definition redis_get (key : string) : M (option (list string)) :=
  call RedisGet (fun w => (Ok (entry_value <$> redis w !! key), w)).

Definition redis_setex (key : string) (ttl : Z) (value : list string) : M unit :=
  call RedisSetex (fun w => (Ok tt, with_redis (insert key (mkCartEntry ttl value)) w)).

Definition redis_del (key : string) : M unit :=
  call RedisDel (fun w => (Ok tt, with_redis (delete key) w)).

(** [where: { id: { in: ids }, isActive: true }] *)
Definition active_in (ids : list string) (p : Product) : bool :=
  bool_decide (product_id p ∈ ids) && product_isActive p.

Definition product_findMany (ids : list string) : M (list Product) :=
  call ProductFindMany (fun w => (Ok (List.filter (active_in ids) (products w)), w)).

Definition find_product (id : string) (w : World) : option Product :=
  List.find (fun p => bool_decide (product_id p = id)) (products w).

Definition product_findUnique (id : string) : M (option Product) :=
  call ProductFindUnique (fun w => (Ok (find_product id w), w)).

Definition bump_product (id : string) (p : Product) : Product :=
  if bool_decide (product_id p = id)
  then mkProduct (product_id p) (product_title p) (product_price p) (product_fileUrl p)
         (product_isActive p) (product_downloadCount p + 1)
  else p.

(** [product.update where id, data: downloadCount: increment 1] *)
Definition product_increment_downloadCount (id : string) : M unit :=
  call ProductUpdate (fun w =>
    match find_product id w with
    | None => (Throw RecordNotFound, w)
    | Some _ => (Ok tt, with_products (List.map (bump_product id)) w)
    end).

Definition find_order (id : string) (w : World) : option Order :=
  List.find (fun o => bool_decide (order_id o = id)) (orders w).

Definition items_of (orderId : string) (w : World) : list OrderItem :=
  List.filter (fun it => bool_decide (item_orderId it = orderId)) (orderItems w).

(** [order.findUnique where id, include: { items: { include: { product } } }] *)
Definition order_findUnique (id : string)
  : M (option (Order * list (OrderItem * option Product))) :=
  call OrderFindUnique (fun w =>
    (Ok ((fun o => (o, List.map (fun it => (it, find_product (item_productId it) w))
                         (items_of id w))) <$> find_order id w), w)).

(** [order.findFirst where id, userId, paymentStatus] *)
Definition order_findFirst (id userId : string) (st : PaymentStatus) : M (option Order) :=
  call OrderFindFirst (fun w =>
    (Ok (List.find (fun o => bool_decide (order_id o = id)
                             && bool_decide (order_userId o = userId)
                             && bool_decide (order_paymentStatus o = st)) (orders w)), w)).

Definition patch_order (id : string) (f : Order -> Order) (o : Order) : Order :=
  if bool_decide (order_id o = id) then f o else o.

(** [order.update where id, data]: returns the updated row, throws when no
    row has that id. *)
Definition order_update (id : string) (f : Order -> Order) : M Order :=
  call OrderUpdate (fun w =>
    match find_order id w with
    | None => (Throw RecordNotFound, w)
    | Some o => (Ok (f o), with_orders (List.map (patch_order id f)) w)
    end).

Definition find_item (id : string) (w : World) : option OrderItem :=
  List.find (fun it => bool_decide (item_id it = id)) (orderItems w).

Definition patch_item (id : string) (f : OrderItem -> OrderItem) (it : OrderItem) : OrderItem :=
  if bool_decide (item_id it = id) then f it else it.

Definition orderItem_update (id : string) (f : OrderItem -> OrderItem) : M unit :=
  call (OrderItemUpdate id) (fun w =>
    match find_item id w with
    | None => (Throw RecordNotFound, w)
    | Some _ => (Ok tt, with_orderItems (List.map (patch_item id f)) w)
    end).

(** The filter of the download route:
    [where: { id, order: { userId, paymentStatus: 'VERIFIED' } }]. *)
Definition downloadable (id userId : string) (w : World) (it : OrderItem) : bool :=
  bool_decide (item_id it = id) &&
  match find_order (item_orderId it) w with
  | Some o => bool_decide (order_userId o = userId)
              && bool_decide (order_paymentStatus o = VERIFIED)
  | None => false
  end.

(** [orderItem.findFirst ... include: { order, product: { fileUrl } }];
    the product of the row is [None] when the catalog has no such row. *)
Definition orderItem_findFirst (id userId : string) : M (option (OrderItem * option Product)) :=
  call OrderItemFindFirst (fun w =>
    (Ok ((fun it => (it, find_product (item_productId it) w))
           <$> List.find (downloadable id userId w) (orderItems w)), w)).

(** The [data] of one nested [items: { create }] entry. *)
Record OrderItemCreate := mkOrderItemCreate {
  create_productId : string;
  create_productTitle : string;
  create_productPrice : Decimal;
  create_downloadLimit : Z }.

(** Modelled from the spec: the column defaults of prisma/schema.prisma, which
    is not among the sources. A new order starts with payment status PENDING
    and an open order status, without UTR and paid timestamp; a new item starts
    with [downloadCount = 0], without download URL and expiry. *)
Definition default_paymentStatus : PaymentStatus := PENDING.
Definition default_orderStatus : OrderStatus := ORDER_PENDING.
Definition default_downloadCount : Z := 0.

Definition new_item (orderId : string) (i : nat) (d : OrderItemCreate) : OrderItem :=
  mkOrderItem (newItemId e i) orderId (create_productId d) (create_productTitle d)
    (create_productPrice d) default_downloadCount (create_downloadLimit d) None None.

(** Modelled from the spec: the primary keys and the unique constraint on the
    order number live in prisma/schema.prisma, which is not among the sources;
    a create that collides with a stored row is refused by the database.
    [n] is the number of item rows to be created. *)
Definition create_conflict (orderNumber : string) (n : nat) (w : World) : bool :=
  existsb (fun o => bool_decide (order_id o = newOrderId e)
                    || bool_decide (order_orderNumber o = orderNumber)) (orders w)
  || existsb (fun it => existsb (fun i => bool_decide (item_id it = newItemId e i)) (seq 0 n))
       (orderItems w).

(** [order.create] with nested item creation: one write, all rows or none. *)
Definition order_create (orderNumber userId userEmail : string) (totalAmount : double)
    (data : list OrderItemCreate) : M (Order * list OrderItem) :=
  call OrderCreate (fun w =>
    let o := mkOrder (newOrderId e) orderNumber userId userEmail totalAmount
               default_paymentStatus default_orderStatus None None in
    let items := imap (new_item (newOrderId e)) data in
    if create_conflict orderNumber (length data) w then (Throw UniqueConstraint, w)
    else (Ok (o, items),
          with_orderItems (fun l => (l ++ items)%list)
            (with_orders (fun l => (l ++ [o])%list) w))).

Definition downloadLog_create (l : DownloadLog) : M unit :=
  call DownloadLogCreate (fun w => (Ok tt, with_downloadLogs (fun ls => (ls ++ [l])%list) w)).

Definition adminLog_create (l : AdminLog) : M unit :=
  call AdminLogCreate (fun w => (Ok tt, with_adminLogs (fun ls => (ls ++ [l])%list) w)).

(** [getSignedDownloadUrl publicId expiresInSeconds] of cloudinary.service.ts. *)
Definition getSignedDownloadUrl (publicId : string) (expiresInSeconds : Z) : M string :=
  call CloudinaryUrl (ret (cloudinary_url e publicId expiresInSeconds)).

(** [generateUPIQRCode details]: the QR renderer is a collaborator. *)
Definition generateUPIQRCode (details : UPIPaymentDetails) : M string :=
  call QrToDataURL (ret (qr_toDataURL e details)).

(** ** order.routes.ts *)

Definition invalid_param (param : option string) : bool :=
  match param with
  | Some s => negb (truthy s)
  | None => true
  end.

(** [products.reduce((sum, p) => sum + Number(p.price), 0)] *)
Definition total_price (ps : list Product) : double :=
  fold_left (fun sum p => js_add sum (Number (product_price p))) ps zero.

Definition createOrder (user : User) : M Response :=
  try_catch
    (let userId := user_id user in
     let userEmail := user_email user in
     let cartKey := "cart:user:" +:+ userId in
     let* cartData := redis_get cartKey in
     match cartData with
     | None => ret (json 400 (ErrorBody "Cart is empty"))
     | Some productIds =>
         if (length productIds =? 0)%nat
         then ret (json 400 (ErrorBody "Cart is empty"))
         else
           let* found := product_findMany productIds in
           if (length found =? 0)%nat
           then ret (json 400 (ErrorBody "No valid products in cart"))
           else
             let totalAmount := total_price found in
             let orderNumber := generateOrderNumber e in
             let* created :=
               order_create orderNumber userId userEmail totalAmount
                 (List.map (fun p => mkOrderItemCreate (product_id p) (product_title p)
                                       (product_price p) 5) found) in
             let* upiQrCode :=
               generateUPIQRCode
                 (mkUPIPaymentDetails (or_default (env_UPI_ID e) "merchant@upi")
                    (or_default (env_UPI_NAME e) "DigitalGhar") totalAmount orderNumber) in
             let* _ := redis_del cartKey in
             ret (json 201
                    (OrderCreated (fst created) (snd created)
                       (mkPaymentInfo (or_default (env_UPI_ID e) "merchant@upi") totalAmount
                          upiQrCode ("Order: " +:+ orderNumber))))
     end)
    (fun _ => ret (json 500 (ErrorBody "Failed to create order"))).

(** [submitUtrSchema.parse(req.body)]: [utrNumber] must be a string whose
    [length] is 5 to 50; [None] stands for a body without a string under
    that key. *)
Definition submitUtrSchema_parse (utrNumber : option string) : M string :=
  match utrNumber with
  | Some utr =>
      if (5 <=? js_length utr)%nat && (js_length utr <=? 50)%nat
      then ret utr else throw ZodError
  | None => throw ZodError
  end.

Definition set_utr (utr : string) (o : Order) : Order :=
  mkOrder (order_id o) (order_orderNumber o) (order_userId o) (order_userEmail o)
    (order_totalAmount o) SUBMITTED (order_orderStatus o) (Some utr) (order_paidAt o).

Definition submitPaymentReference (user : User) (orderIdParam : string)
    (utrBody : option string) : M Response :=
  try_catch
    (let orderId := getQueryString orderIdParam in
     if invalid_param orderId
     then ret (json 400 (ErrorBody "Invalid order ID"))
     else
       let* utrNumber := submitUtrSchema_parse utrBody in
       let userId := user_id user in
       let* found := order_findFirst orderIdParam userId PENDING in
       match found with
       | None => ret (json 404 (ErrorBody "Order not found or already processed"))
       | Some order =>
           let* _ := order_update orderIdParam (set_utr utrNumber) in
           ret (json 200 (UtrSubmitted (order_orderNumber order)))
       end)
    (fun error =>
       match error with
       | ZodError => ret (json 400 (ErrorBody "Invalid UTR number"))
       | _ => ret (json 500 (ErrorBody "Failed to submit payment reference"))
       end).

Definition bump_item (it : OrderItem) : OrderItem :=
  mkOrderItem (item_id it) (item_orderId it) (item_productId it) (item_productTitle it)
    (item_productPrice it) (item_downloadCount it + 1) (item_downloadLimit it)
    (item_downloadUrl it) (item_expiresAt it).

(** [orderItem.expiresAt && new Date() > orderItem.expiresAt] *)
Definition expired (it : OrderItem) : bool :=
  match item_expiresAt it with
  | Some t => t <? now e
  | None => false
  end.

Definition requestDownload (user : User) (orderItemIdParam : string) : M Response :=
  try_catch
    (let orderItemId := getQueryString orderItemIdParam in
     if invalid_param orderItemId
     then ret (json 400 (ErrorBody "Invalid order item ID"))
     else
       let userId := user_id user in
       let* found := orderItem_findFirst orderItemIdParam userId in
       match found with
       | None => ret (json 404 (ErrorBody "Download not available"))
       | Some (orderItem, product) =>
           if item_downloadLimit orderItem <=? item_downloadCount orderItem
           then ret (json 403 (ErrorBody "Download limit reached"))
           else if expired orderItem
           then ret (json 403 (ErrorBody "Download link expired"))
           else
             match product with
             | None => throw TypeError
             | Some p =>
                 let* downloadUrl := getSignedDownloadUrl (product_fileUrl p) 3600 in
                 let* _ :=
                   promise_all
                     [ orderItem_update orderItemIdParam bump_item;
                       downloadLog_create
                         (mkDownloadLog userId orderItemIdParam (item_productId orderItem)
                            (req_ip e) (req_userAgent e));
                       product_increment_downloadCount (item_productId orderItem) ] in
                 ret (json 200
                        (DownloadGranted downloadUrl
                           (item_downloadLimit orderItem - item_downloadCount orderItem - 1)
                           (item_productTitle orderItem)))
             end
       end)
    (fun _ => ret (json 500 (ErrorBody "Failed to generate download link"))).

(** ** admin.routes.ts: payment verification and rejection

    Both routes sit behind [router.use(authenticate, requireAdmin)]; the
    handlers below are what runs once the middleware has let the request
    through, with [admin] the authenticated [req.user]. *)

Definition requireAdmin (user : option User) (next : M Response) : M Response :=
  match user with
  | Some u =>
      if bool_decide (user_role u = "ADMIN") then next
      else ret (json 403 (ErrorBody "Admin access required"))
  | None => ret (json 403 (ErrorBody "Admin access required"))
  end.

Fixpoint mapM {A B} (f : A -> M B) (l : list A) : M (list B) :=
  match l with
  | [] => ret []
  | x :: xs =>
      let* y := f x in
      let* ys := mapM f xs in
      ret (y :: ys)
  end.

Definition set_verified (paidAt : Z) (o : Order) : Order :=
  mkOrder (order_id o) (order_orderNumber o) (order_userId o) (order_userEmail o)
    (order_totalAmount o) VERIFIED COMPLETED (order_utrNumber o) (Some paidAt).

Definition set_rejected (o : Order) : Order :=
  mkOrder (order_id o) (order_orderNumber o) (order_userId o) (order_userEmail o)
    (order_totalAmount o) FAILED CANCELLED (order_utrNumber o) (order_paidAt o).

Definition activate (downloadUrl : string) (expiresAt : Z) (it : OrderItem) : OrderItem :=
  mkOrderItem (item_id it) (item_orderId it) (item_productId it) (item_productTitle it)
    (item_productPrice it) (item_downloadCount it) (item_downloadLimit it)
    (Some downloadUrl) (Some expiresAt).

Definition SEVEN_DAYS_MS : Z := 7 * 24 * 3600 * 1000.

(** The callback of [order.items.map]: its argument object is built
    synchronously (this is where [getSignedDownloadUrl] runs and where a
    missing [item.product] throws); the Prisma promise it returns only runs
    once [Promise.all] subscribes to it. *)
Definition activation_args (item : OrderItem * option Product) : M (string * string) :=
  match snd item with
  | None => throw TypeError
  | Some p =>
      let* url := getSignedDownloadUrl (product_fileUrl p) (7 * 24 * 3600) in
      ret (item_id (fst item), url)
  end.

Definition verify (admin : User) (idParam : string) : M Response :=
  try_catch
    (let id := getQueryString idParam in
     if invalid_param id
     then ret (json 400 (ErrorBody "Invalid order ID"))
     else
       let* found := order_findUnique idParam in
       match found with
       | None => ret (json 404 (ErrorBody "Order not found"))
       | Some (order, items) =>
           if bool_decide (order_paymentStatus order = VERIFIED)
           then ret (json 400 (ErrorBody "Order already verified"))
           else
             let* updatedOrder := order_update idParam (set_verified (now e)) in
             let expiresAt := now_again e + SEVEN_DAYS_MS in
             let* args := mapM activation_args items in
             let* _ :=
               promise_all
                 (List.map (fun a => orderItem_update (fst a) (activate (snd a) expiresAt))
                    args) in
             let* _ :=
               adminLog_create
                 (mkAdminLog (user_id admin) "verified_payment" "order" idParam
                    (VerifiedDetails (order_orderNumber order) (order_totalAmount order))
                    (req_ip e)) in
             ret (json 200 (PaymentVerified updatedOrder))
       end)
    (fun _ => ret (json 500 (ErrorBody "Failed to verify payment"))).

Definition reject (admin : User) (idParam : string) (reason : option string) : M Response :=
  try_catch
    (let id := getQueryString idParam in
     if invalid_param id
     then ret (json 400 (ErrorBody "Invalid order ID"))
     else
       let* order := order_update idParam set_rejected in
       let* _ :=
         adminLog_create
           (mkAdminLog (user_id admin) "rejected_payment" "order" idParam
              (RejectedDetails (order_orderNumber order) reason) (req_ip e)) in
       ret (json 200 (PaymentRejected order)))
    (fun _ => ret (json 500 (ErrorBody "Failed to reject payment"))).

(** ** cart.routes.ts *)

(** What [getCartKey] reads from the request: [req.user] (set by
    [optionalAuth]), the [x-session-id] header and the [sessionId] cookie. *)
Record CartRequest := mkCartRequest {
  cart_user : option User;
  cart_headerSession : option string;
  cart_cookieSession : option string }.

(** [a || b] on possibly undefined strings *)
Definition js_or (a b : option string) : option string :=
  match a with
  | Some s => if truthy s then Some s else b
  | None => b
  end.

Definition getCartKey (req : CartRequest) : string :=
  match cart_user req with
  | Some u => "cart:user:" +:+ user_id u
  | None =>
      let sessionId := js_or (cart_headerSession req) (cart_cookieSession req) in
      "cart:session:" +:+ or_default sessionId "anonymous"
  end.

Definition cart_get (req : CartRequest) : M Response :=
  try_catch
    (let cartKey := getCartKey req in
     let* cartData := redis_get cartKey in
     match cartData with
     | None => ret (json 200 (CartContents [] zero))
     | Some productIds =>
         if (length productIds =? 0)%nat
         then ret (json 200 (CartContents [] zero))
         else
           let* found := product_findMany productIds in
           let total := total_price found in
           ret (json 200 (CartContents found (parseFloat_toFixed2 total)))
     end)
    (fun _ => ret (json 500 (ErrorBody "Failed to fetch cart"))).

Definition cart_add (req : CartRequest) (productIdBody : option string) : M Response :=
  try_catch
    (if invalid_param productIdBody
     then ret (json 400 (ErrorBody "Product ID required"))
     else
       let productId := default "" productIdBody in
       let* product := product_findUnique productId in
       if match product with Some p => negb (product_isActive p) | None => true end
       then ret (json 404 (ErrorBody "Product not found"))
       else
         let cartKey := getCartKey req in
         let* cartData := redis_get cartKey in
         let productIds := default [] cartData in
         if bool_decide (productId ∈ productIds)
         then ret (json 400 (ErrorBody "Product already in cart"))
         else
           let productIds := (productIds ++ [productId])%list in
           let* _ := redis_setex cartKey CART_EXPIRY productIds in
           ret (json 200 (CartCount "Added to cart" (length productIds))))
    (fun _ => ret (json 500 (ErrorBody "Failed to add to cart"))).

Definition cart_remove (req : CartRequest) (productId : string) : M Response :=
  try_catch
    (let cartKey := getCartKey req in
     let* cartData := redis_get cartKey in
     match cartData with
     | None => ret (json 404 (ErrorBody "Cart is empty"))
     | Some stored =>
         let productIds := List.filter (fun id => negb (bool_decide (id = productId))) stored in
         let* _ :=
           if (length productIds =? 0)%nat
           then redis_del cartKey
           else redis_setex cartKey CART_EXPIRY productIds in
         ret (json 200 (CartCount "Removed from cart" (length productIds)))
     end)
    (fun _ => ret (json 500 (ErrorBody "Failed to remove from cart"))).

Definition cart_clear (req : CartRequest) : M Response :=
  try_catch
    (let cartKey := getCartKey req in
     let* _ := redis_del cartKey in
     ret (json 200 (MessageOnly "Cart cleared")))
    (fun _ => ret (json 500 (ErrorBody "Failed to clear cart"))).

End Request.

(** * Vocabulary of the statements *)

(** ** The payment-status machine *)

Inductive Op :=
| SubmitPaymentReference (user : User) (orderId : string) (utrNumber : option string)
| Verify (caller : User) (id : string)
| Reject (caller : User) (id : string) (reason : option string).

Definition handler (e : Env) (op : Op) : M Response :=
  match op with
  | SubmitPaymentReference user orderId utr => submitPaymentReference e user orderId utr
  | Verify caller id => requireAdmin (Some caller) (verify e caller id)
  | Reject caller id reason => requireAdmin (Some caller) (reject e caller id reason)
  end.

(** One request, served in the environment it arrives with. *)
Definition step (w : World) (req : Env * Op) : World :=
  snd (respond (handler (fst req) (snd req)) w).

Definition run (reqs : list (Env * Op)) (w : World) : World := fold_left step reqs w.

Definition paymentStatus_of (id : string) (w : World) : option PaymentStatus :=
  order_paymentStatus <$> find_order id w.

(** The operations that cannot move an order out of status [st]:
    everything but [reject] for VERIFIED, everything but [verify] for FAILED. *)
Definition keeps (st : PaymentStatus) (op : Op) : bool :=
  match st, op with
  | VERIFIED, Reject _ _ _ => false
  | VERIFIED, _ => true
  | FAILED, Verify _ _ => false
  | FAILED, _ => true
  | _, _ => false
  end.

(** The primary key of the order table. *)
Definition unique_order_ids (w : World) : Prop := NoDup (List.map order_id (orders w)).

Definition healthy (e : Env) : Prop := forall d, fails e d = false.

(** ** Payment reference *)

Definition submittable (user : User) (id : string) (w : World) : bool :=
  match find_order id w with
  | Some o => bool_decide (order_userId o = user_id user)
              && bool_decide (order_paymentStatus o = PENDING)
  | None => false
  end.

Definition not_found_or_processed : Response :=
  json 404 (ErrorBody "Order not found or already processed").

(** ** The download gate *)

Definition owned_and_verified (user : User) (it : OrderItem) (w : World) : Prop :=
  exists o, find_order (item_orderId it) w = Some o /\
            order_userId o = user_id user /\ order_paymentStatus o = VERIFIED.

Definition not_expired (e : Env) (it : OrderItem) : Prop :=
  match item_expiresAt it with
  | Some t => now e <= t
  | None => True
  end.

Definition download_failed : Response :=
  json 500 (ErrorBody "Failed to generate download link").

(** The world after the three writes of a granted download, each applied
    unless its call fails. *)
Definition after_download (e : Env) (user : User) (id : string) (it : OrderItem) (w : World)
  : World :=
  let w1 := if fails e (OrderItemUpdate id) then w
            else with_orderItems (List.map (patch_item id bump_item)) w in
  let w2 := if fails e DownloadLogCreate then w1
            else with_downloadLogs
                   (fun ls => (ls ++ [mkDownloadLog (user_id user) id (item_productId it)
                                        (req_ip e) (req_userAgent e)])%list) w1 in
  if fails e ProductUpdate then w2
  else with_products (List.map (bump_product (item_productId it))) w2.

(** ** Two download requests in flight

    A handler runs without interruption from one [await] to the next. The
    download route awaits twice: the lookup of the order item, and later its
    three writes together. [download_lookup] is the route up to the answer of
    the lookup; [download_resume] is the route from that answer on, which
    works on the row as it was read. *)

Definition download_lookup (e : Env) (user : User) (orderItemIdParam : string) (w : World)
  : (Response + option (OrderItem * option Product)) * World :=
  if invalid_param (getQueryString orderItemIdParam)
  then (inl (json 400 (ErrorBody "Invalid order item ID")), w)
  else
    match orderItem_findFirst e orderItemIdParam (user_id user) w with
    | (Ok found, w1) => (inr found, w1)
    | (Throw _, w1) => (inl download_failed, w1)
    end.

Definition download_resume (e : Env) (user : User) (orderItemIdParam : string)
    (found : option (OrderItem * option Product)) : M Response :=
  try_catch
    (let userId := user_id user in
     match found with
     | None => ret (json 404 (ErrorBody "Download not available"))
     | Some (orderItem, product) =>
         if item_downloadLimit orderItem <=? item_downloadCount orderItem
         then ret (json 403 (ErrorBody "Download limit reached"))
         else if expired e orderItem
         then ret (json 403 (ErrorBody "Download link expired"))
         else
           match product with
           | None => throw TypeError
           | Some p =>
               let* downloadUrl := getSignedDownloadUrl e (product_fileUrl p) 3600 in
               let* _ :=
                 promise_all
                   [ orderItem_update e orderItemIdParam bump_item;
                     downloadLog_create e
                       (mkDownloadLog userId orderItemIdParam (item_productId orderItem)
                          (req_ip e) (req_userAgent e));
                     product_increment_downloadCount e (item_productId orderItem) ] in
               ret (json 200
                      (DownloadGranted downloadUrl
                         (item_downloadLimit orderItem - item_downloadCount orderItem - 1)
                         (item_productTitle orderItem)))
           end
     end)
    (fun _ => ret (json 500 (ErrorBody "Failed to generate download link"))).

(** A request that has been served its lookup goes on to its answer. *)
Definition download_settle (e : Env) (user : User) (orderItemIdParam : string)
    (s : Response + option (OrderItem * option Product)) (w : World) : Response * World :=
  match s with
  | inl r => (r, w)
  | inr found => respond (download_resume e user orderItemIdParam found) w
  end.

(** Two requests for one item: the lookup of the second is answered before
    the first goes on to its writes. *)
Definition downloads_in_flight (e1 e2 : Env) (user : User) (id : string) (w : World)
  : Response * Response * World :=
  let '(s1, w1) := download_lookup e1 user id w in
  let '(s2, w2) := download_lookup e2 user id w1 in
  let '(r1, w3) := download_settle e1 user id s1 w2 in
  let '(r2, w4) := download_settle e2 user id s2 w3 in
  (r1, r2, w4).

(** ** Verification *)

Definition same_but_items (w w' : World) : Prop :=
  redis w' = redis w /\ products w' = products w /\ orders w' = orders w /\
  downloadLogs w' = downloadLogs w /\ adminLogs w' = adminLogs w.

(** A row after the activations [args] (item id, signed URL) were applied. *)
Definition activate_row (expiresAt : Z) (args : list (string * string)) (it : OrderItem)
  : OrderItem :=
  fold_left (fun it a => patch_item (fst a) (activate (snd a) expiresAt) it) args it.

(** Referential integrity of the items of one order towards the catalog. *)
Definition products_present (id : string) (w : World) : Prop :=
  Forall (fun it => is_Some (find_product (item_productId it) w)) (items_of id w).

(** ** Checkout *)

(** The running sum of the two routes that total a list of prices:
    [0 + Number(d1) + Number(d2) + ...], added up from the left. *)
Definition sum_numbers (prices : list Decimal) : double :=
  fold_left (fun sum d => js_add sum (Number d)) prices zero.

Definition create_failed : Response := json 500 (ErrorBody "Failed to create order").

Definition user_cart_key (user : User) : string := "cart:user:" +:+ user_id user.

Definition order_data (p : Product) : OrderItemCreate :=
  mkOrderItemCreate (product_id p) (product_title p) (product_price p) 5.

Definition created_order (e : Env) (user : User) (found : list Product) : Order :=
  mkOrder (newOrderId e) (generateOrderNumber e) (user_id user) (user_email user)
    (total_price found) default_paymentStatus default_orderStatus None None.

Definition created_items (e : Env) (found : list Product) : list OrderItem :=
  imap (new_item e (newOrderId e)) (List.map order_data found).

Definition after_create (e : Env) (user : User) (found : list Product) (w : World) : World :=
  with_orderItems (fun l => (l ++ created_items e found)%list)
    (with_orders (fun l => (l ++ [created_order e user found])%list) w).

Definition created_response (e : Env) (user : User) (found : list Product) : Response :=
  json 201
    (OrderCreated (created_order e user found) (created_items e found)
       (mkPaymentInfo (or_default (env_UPI_ID e) "merchant@upi") (total_price found)
          (qr_toDataURL e
             (mkUPIPaymentDetails (or_default (env_UPI_ID e) "merchant@upi")
                (or_default (env_UPI_NAME e) "DigitalGhar") (total_price found)
                (generateOrderNumber e)))
          ("Order: " +:+ generateOrderNumber e))).

(** What an order item records of the product it was created from. *)
Definition snapshot_of (orderId : string) (p : Product) (it : OrderItem) : Prop :=
  item_orderId it = orderId /\
  item_productId it = product_id p /\
  item_productTitle it = product_title p /\
  item_productPrice it = product_price p /\
  item_downloadLimit it = 5 /\
  item_downloadCount it = 0 /\
  item_expiresAt it = None.

(** ** Cart *)

Definition stored_cart (req : CartRequest) (w : World) : option (list string) :=
  entry_value <$> redis w !! getCartKey req.

Definition without (productId : string) (ids : list string) : list string :=
  List.filter (fun id => negb (bool_decide (id = productId))) ids.

(** ** A small shop, used to run the handlers on concrete requests *)

Definition no_failure : Dep -> bool := fun _ => false.

Definition audit_log_down : Dep -> bool :=
  fun d => match d with DownloadLogCreate => true | _ => false end.

(** A request arriving at clock reading [t] in November 2026. *)
Definition request_env (t : Z) (bad : Dep -> bool) : Env :=
  mkEnv t (t + 40) 2026 10 "0.4fzyo82mvyr" "order9"
    (fun i => "item9-" +:+ decimal (N.of_nat i))
    None None (Some "203.0.113.7") (Some "Mozilla/5.0")
    (fun p _ => "https://res.cloudinary.com/signed/" +:+ p)
    (fun _ => "data:image/png;base64,QR") bad.

(** The same month, with [Math.random().toString(36)] printing [text]. *)
Definition printed_random (text : string) : Env :=
  mkEnv 1793491200000 1793491200040 2026 10 text "order9"
    (fun i => "item9-" +:+ decimal (N.of_nat i))
    None None None None (fun p _ => "https://res.cloudinary.com/signed/" +:+ p)
    (fun _ => "data:image/png;base64,QR") no_failure.

Definition t0 : Z := 1793491200000.

Definition calm : nat -> Env := fun i => request_env (t0 + Z.of_nat i * 1000) no_failure.

Definition alice : User := mkUser "alice" "alice@example.com" "Alice" "CUSTOMER".
Definition root : User := mkUser "root" "root@example.com" "Root" "ADMIN".

Definition visitor : CartRequest := mkCartRequest None (Some "session-1") None.

Definition productA : Product :=
  mkProduct "A" "Ebook A" (whole 100) "digitalghar/products/a" true 0.
Definition productB : Product :=
  mkProduct "B" "Template B" (whole 50) "digitalghar/products/b" false 0.
Definition productC : Product :=
  mkProduct "C" "Course C" (whole 75) "digitalghar/products/c" true 3.

Definition order1 : Order :=
  mkOrder "o1" "ORD-202610-AAAAAA" "alice" "alice@example.com" (amount 175) PENDING
    ORDER_PENDING None None.

Definition item3 : OrderItem := mkOrderItem "i3" "o3" "A" "Ebook A" (whole 100) 0 5 None None.

(** The letter e with an acute accent (U+00E9): two bytes of UTF-8, one
    UTF-16 code unit. *)
Definition e_acute : string := String "195"%char (String "169"%char EmptyString).

(** A stall that sells two stickers, at 0.10 and at 0.20; Alice has both in
    her cart. *)
Definition stickerD : Product :=
  mkProduct "D" "Sticker D" (mkDecimal 10 2) "digitalghar/products/d" true 0.
Definition stickerE : Product :=
  mkProduct "E" "Sticker E" (mkDecimal 20 2) "digitalghar/products/e" true 0.

Definition stall : World :=
  mkWorld {[ "cart:user:alice" := mkCartEntry CART_EXPIRY ["D"; "E"] ]}
    [stickerD; stickerE] [] [] [] [].

(** Alice has [A] and the since deactivated [B] in her cart, a pending order
    [o1], a rejected order [o2] and a verified order [o3]. *)
Definition shop : World :=
  mkWorld
    {[ "cart:user:alice" := mkCartEntry CART_EXPIRY ["A"; "B"] ]}
    [productA; productB; productC]
    [ order1;
      mkOrder "o2" "ORD-202610-BBBBBB" "alice" "alice@example.com" (amount 100) FAILED
        CANCELLED (Some "UTR000002") None;
      mkOrder "o3" "ORD-202610-CCCCCC" "alice" "alice@example.com" (amount 175) VERIFIED
        COMPLETED (Some "UTR000003") (Some 1793000000000) ]
    [ mkOrderItem "i1" "o1" "A" "Ebook A" (whole 100) 0 5 None None;
      mkOrderItem "i2" "o1" "C" "Course C" (whole 75) 0 5 None None;
      item3;
      mkOrderItem "i4" "o3" "C" "Course C" (whole 75) 5 5 None (Some 1793604800000) ]
    [] [].

(** * Further routes and helpers *)

(** ** Order detail (order routes, GET /:orderId) *)

Record PaymentView := mkPaymentView {
  view_upiId : string;
  view_amount : double;
  view_qrCode : string }.

Inductive DetailBody :=
| DetailError (error : string)
| OrderDetail (order : Order) (items : list (OrderItem * option Product))
    (payment : option PaymentView).

(** [order.findFirst where id, userId, include items with their product] *)
Definition order_findFirst_owned (e : Env) (id userId : string)
  : M (option (Order * list (OrderItem * option Product))) :=
  call e OrderFindFirst (fun w =>
    (Ok ((fun o => (o, List.map (fun it => (it, find_product (item_productId it) w))
                         (items_of (order_id o) w)))
           <$> List.find (fun o => bool_decide (order_id o = id)
                                   && bool_decide (order_userId o = userId)) (orders w)), w)).

Definition getOrder (e : Env) (user : User) (orderIdParam : string) : M (Z * DetailBody) :=
  try_catch
    (let orderId := getQueryString orderIdParam in
     if invalid_param orderId
     then ret (400, DetailError "Invalid order ID")
     else
       let userId := user_id user in
       let* found := order_findFirst_owned e orderIdParam userId in
       match found with
       | None => ret (404, DetailError "Order not found")
       | Some (order, items) =>
           let* upiQrCode :=
             if bool_decide (order_paymentStatus order = PENDING)
             then
               let* qr :=
                 generateUPIQRCode e
                   (mkUPIPaymentDetails (or_default (env_UPI_ID e) "merchant@upi")
                      (or_default (env_UPI_NAME e) "DigitalGhar") (order_totalAmount order)
                      (order_orderNumber order)) in
               ret (Some qr)
             else ret None in
           ret (200,
                OrderDetail order items
                  (match upiQrCode with
                   | Some qr =>
                       Some (mkPaymentView (or_default (env_UPI_ID e) "merchant@upi")
                               (order_totalAmount order) qr)
                   | None => None
                   end))
       end)
    (fun _ => ret (500, DetailError "Failed to fetch order")).

(** ** Slugs (admin routes, product and category creation) *)

Definition lower_ascii (c : ascii) : ascii :=
  let n := N_of_ascii c in
  if ((65 <=? n) && (n <=? 90))%N then ascii_of_N (n + 32) else c.

(** [s.toLowerCase()] on ASCII text: [A-Z] become [a-z]. JavaScript also
    lower-cases characters outside ASCII, two of them to text with an ASCII
    letter in it (U+0130 and U+212A); such titles are outside this model. *)
Fixpoint toLowerCase (s : string) : string :=
  match s with
  | EmptyString => EmptyString
  | String c s' => String (lower_ascii c) (toLowerCase s')
  end.

(** the class [a-z0-9] *)
Definition slug_char (c : ascii) : bool :=
  let n := N_of_ascii c in
  ((97 <=? n) && (n <=? 122) || (48 <=? n) && (n <=? 57))%N.

Definition dash : ascii := "-"%char.

(** [s.replace(/[^a-z0-9]+/g, '-')]: every maximal run of other characters
    becomes one dash; [in_run] says that the previous character was part of
    such a run. *)
Fixpoint dash_runs (in_run : bool) (s : string) : string :=
  match s with
  | EmptyString => EmptyString
  | String c s' =>
      if slug_char c then String c (dash_runs false s')
      else if in_run then dash_runs true s'
      else String dash (dash_runs true s')
  end.

Definition strip_leading_dash (s : string) : string :=
  match s with
  | String c s' => if bool_decide (c = dash) then s' else s
  | EmptyString => EmptyString
  end.

Fixpoint strip_trailing_dash (s : string) : string :=
  match s with
  | EmptyString => EmptyString
  | String c EmptyString => if bool_decide (c = dash) then EmptyString else s
  | String c s' => String c (strip_trailing_dash s')
  end.

(** [s.replace(/(^-|-$)/g, '')] *)
Definition trim_dashes (s : string) : string := strip_trailing_dash (strip_leading_dash s).

(** [data.slug || data.title.toLowerCase().replace(..).replace(..)] of the
    product creation route *)
Definition title_slug (title : string) : string :=
  trim_dashes (dash_runs false (toLowerCase title)).

Definition productSlug (slug : option string) (title : string) : string :=
  or_default slug (title_slug title).

(** [data.slug || data.name.toLowerCase().replace(/[^a-z0-9]+/g, '-')] of the
    category creation route *)
Definition name_slug (name : string) : string := dash_runs false (toLowerCase name).

Definition categorySlug (slug : option string) (name : string) : string :=
  or_default slug (name_slug name).


(** A slug in normal form: lower-case letters and digits, separated by
    single dashes; [after_dash] says that the previous character was a dash
    (or that the string starts here). *)
Fixpoint slug_tail (after_dash : bool) (s : string) : bool :=
  match s with
  | EmptyString => negb after_dash
  | String c s' =>
      if slug_char c then slug_tail false s'
      else bool_decide (c = dash) && negb after_dash && slug_tail true s'
  end.

Definition well_formed_slug (s : string) : bool :=
  match s with
  | EmptyString => true
  | _ => slug_tail true s
  end.

(** What [dash_runs] produces: slug characters and dashes, never two dashes
    in a row. *)
Fixpoint runs_shape (after_dash : bool) (s : string) : bool :=
  match s with
  | EmptyString => true
  | String c s' =>
      if slug_char c then runs_shape false s'
      else bool_decide (c = dash) && negb after_dash && runs_shape true s'
  end.

Fixpoint any_char (P : ascii -> bool) (s : string) : bool :=
  match s with
  | EmptyString => false
  | String c s' => P c || any_char P s'
  end.

(** a letter or a digit, in either case *)
Definition alnum (c : ascii) : bool := slug_char (lower_ascii c).

(** ** The cart routes as one family *)

Inductive CartOp :=
| CartGet
| CartAdd (productId : option string)
| CartRemove (productId : string)
| CartClear.

Definition cart_handler (e : Env) (req : CartRequest) (op : CartOp) : M Response :=
  match op with
  | CartGet => cart_get e req
  | CartAdd productId => cart_add e req productId
  | CartRemove productId => cart_remove e req productId
  | CartClear => cart_clear e req
  end.

(** Every table of the database is as it was. *)
Definition same_tables (w w' : World) : Prop :=
  products w' = products w /\ orders w' = orders w /\ orderItems w' = orderItems w /\
  downloadLogs w' = downloadLogs w /\ adminLogs w' = adminLogs w.

(** What the cart routes keep true of a stored cart: no product twice, and
    never an empty list under a key. *)
Definition cart_invariant (w : World) : Prop :=
  forall key entry, redis w !! key = Some entry ->
    NoDup (entry_value entry) /\ entry_value entry <> [].

(** A request that carries neither a user nor a usable session id. *)
Definition unidentified (req : CartRequest) : Prop :=
  cart_user req = None /\
  or_default (js_or (cart_headerSession req) (cart_cookieSession req)) "" = "".

(** ** Downloads in a row *)

Definition limit_reached : Response := json 403 (ErrorBody "Download limit reached").

Definition not_available : Response := json 404 (ErrorBody "Download not available").

(** One download request after the other, each in its own environment. *)
Fixpoint download_repeatedly (es : list Env) (user : User) (id : string) (w : World)
  : list Response * World :=
  match es with
  | [] => ([], w)
  | e :: es' =>
      let '(r, w1) := respond (requestDownload e user id) w in
      let '(rs, w2) := download_repeatedly es' user id w1 in
      (r :: rs, w2)
  end.

Definition admin_refusal : Response := json 403 (ErrorBody "Admin access required").

(** The update of one item fails, every other call goes through. *)
Definition item_update_down (id : string) : Dep -> bool :=
  fun d => match d with OrderItemUpdate j => bool_decide (j = id) | _ => false end.

(** An item update that goes through in environment [e]. *)
Definition update_ok (e : Env) (a : string * string) : bool :=
  negb (fails e (OrderItemUpdate (fst a))).

Definition mallory : User := mkUser "mallory" "mallory@example.com" "Mallory" "CUSTOMER".

(** The answer of the order detail route. *)
Definition detail (e : Env) (user : User) (id : string) (w : World) : Z * DetailBody :=
  match getOrder e user id w with
  | (Ok r, _) => r
  | (Throw _, _) => (500, DetailError "Unhandled rejection")
  end.

(** A signed-in request of [user], whatever session id it carries. *)
Definition signed_in (user : User) (header cookie : option string) : CartRequest :=
  mkCartRequest (Some user) header cookie.

(** [w'] is [w] with at most one order appended, together with items that
    all belong to it; nothing else differs in the database. *)
Definition appended (w w' : World) : Prop :=
  products w' = products w /\ downloadLogs w' = downloadLogs w /\
  adminLogs w' = adminLogs w /\
  exists os its,
    orders w' = (orders w ++ os)%list /\ orderItems w' = (orderItems w ++ its)%list /\
    (length os <= 1)%nat /\ (os = [] -> its = []) /\
    Forall (fun it => exists o, o ∈ os /\ item_orderId it = order_id o) its.

(** * Properties *)

Ltac unfold_monad :=
  unfold respond, try_catch, bind, call, ret, throw, json in *.

(** ** Numbers that are held exactly *)

Lemma digits_log2 m : Zpos (digits2_pos m) = Z.log2 (Zpos m) + 1.
Proof.
  induction m as [m IH|m IH|]; simpl digits2_pos; [| |done].
  - rewrite Pos2Z.inj_succ, IH, (Pos2Z.inj_xI m), Z.log2_succ_double by lia. lia.
  - rewrite Pos2Z.inj_succ, IH, (Pos2Z.inj_xO m), Z.log2_double by lia. lia.
Qed.

Lemma digits_mul_pow2 m k n :
  0 <= n -> Zpos k = Zpos m * 2 ^ n -> Zpos (digits2_pos k) = Zpos (digits2_pos m) + n.
Proof.
  intros Hn Hk. rewrite !digits_log2, Hk, Z.log2_mul_pow2 by lia. lia.
Qed.

Lemma digits_le a b : (a <= b)%positive -> Zpos (digits2_pos a) <= Zpos (digits2_pos b).
Proof.
  intros H. rewrite !digits_log2. apply Z.add_le_mono_r, Z.log2_le_mono. lia.
Qed.

Lemma digits_lt_pow2 m n : 0 <= n -> Zpos m < 2 ^ n -> Zpos (digits2_pos m) <= n.
Proof.
  intros Hn H. rewrite digits_log2. apply Z.log2_lt_pow2 in H; lia.
Qed.

Lemma fexp_normal x : -1021 <= x -> fexp prec emax x = x - 53.
Proof. intros H. unfold fexp, emin, prec, emax. lia. Qed.

Lemma shr_1_even q :
  0 <= q -> shr_1 (Build_shr_record (q * 2) false false) = Build_shr_record q false false.
Proof.
  intros Hq. rewrite Z.mul_comm. destruct q as [|q|q]; [done|done|lia].
Qed.

Lemma iter_shr_1_exact p q :
  0 <= q ->
  SpecFloat.iter_pos shr_1 p (Build_shr_record (q * 2 ^ Zpos p) false false)
  = Build_shr_record q false false.
Proof.
  revert q. induction p as [p IH|p IH|]; intros q Hq; cbn [SpecFloat.iter_pos].
  - replace (q * 2 ^ Z.pos p~1) with (q * 2 ^ Zpos p * 2 ^ Zpos p * 2).
    + rewrite shr_1_even, !IH by lia. done.
    + rewrite (Pos2Z.inj_xI p), Z.pow_add_r, Z.pow_mul_r, Z.pow_2_r by lia.
      replace (2 * 2) with (2 ^ 2) by done. rewrite <- Z.pow_mul_r by lia.
      replace (2 * Z.pos p) with (Z.pos p + Z.pos p) by lia.
      rewrite Z.pow_add_r by lia. lia.
  - replace (q * 2 ^ Z.pos p~0) with (q * 2 ^ Zpos p * 2 ^ Zpos p).
    + rewrite !IH by lia. done.
    + rewrite (Pos2Z.inj_xO p). replace (2 * Z.pos p) with (Z.pos p + Z.pos p) by lia.
      rewrite Z.pow_add_r by lia. lia.
  - apply shr_1_even. done.
Qed.

(** Rounding a mantissa of 53 digits followed by [n] zero digits drops the
    zeros and nothing else. *)
Lemma binary_round_aux_exact k n E M :
  Zpos (digits2_pos k) = 53 ->
  0 <= n ->
  M = Zpos k * 2 ^ n ->
  -1074 <= E + n <= 971 ->
  binary_round_aux prec emax false M E loc_Exact = S754_finite false k (E + n).
Proof.
  intros Hk Hn HM HE.
  assert (Hpos : 0 < M) by (subst M; lia).
  destruct M as [|m|m]; [lia| |lia].
  assert (Hd : Zpos (digits2_pos m) = 53 + n).
  { rewrite (digits_mul_pow2 k m n) by done. lia. }
  unfold binary_round_aux, shr_fexp. simpl Zdigits2. rewrite Hd.
  assert (Hf : fexp prec emax (53 + n + E) = E + n).
  { unfold fexp, emin, prec, emax. lia. }
  rewrite Hf. replace (E + n - E) with n by lia.
  assert (Hs : shr (shr_record_of_loc (Zpos m) loc_Exact) E n
               = (Build_shr_record (Zpos k) false false, E + n)).
  { unfold shr. simpl shr_record_of_loc. destruct n as [|p|p]; [| |lia].
    - rewrite Z.add_0_r. do 2 f_equal. rewrite HM. lia.
    - rewrite HM, iter_shr_1_exact by lia. done. }
  rewrite Hs. simpl. rewrite Hk.
  assert (Hf2 : fexp prec emax (53 + (E + n)) = E + n).
  { unfold fexp, emin, prec, emax. lia. }
  rewrite Hf2, Z.sub_diag. simpl.
  destruct (Z.leb_spec (E + n) (emax - prec)) as [_|H]; [done|].
  unfold emax, prec in H. lia.
Qed.

Lemma held_mantissa m :
  Zpos (digits2_pos m) <= 53 ->
  let k := Z.to_pos (Zpos m * 2 ^ (53 - Zpos (digits2_pos m))) in
  Zpos k = Zpos m * 2 ^ (53 - Zpos (digits2_pos m)) /\ Zpos (digits2_pos k) = 53.
Proof.
  intros Hd k.
  assert (Hk : Zpos k = Zpos m * 2 ^ (53 - Zpos (digits2_pos m))).
  { subst k. rewrite Z2Pos.id; [done|].
    apply Z.mul_pos_pos; [done|]. apply Z.pow_pos_nonneg; lia. }
  split; [done|].
  rewrite (digits_mul_pow2 m k (53 - Zpos (digits2_pos m))) by (done || lia). lia.
Qed.

(** A quotient that is an integer below [2 ^ 53] comes out exactly. *)
Lemma SFdiv_exact m c :
  Zpos m < 2 ^ 53 ->
  SFdiv prec emax (S754_finite false (m * c) 0) (S754_finite false c 0) = held m.
Proof.
  intros Hm. pose proof (digits_lt_pow2 m 53 ltac:(lia) Hm) as Hd.
  destruct (held_mantissa m Hd) as [Hk Hdk].
  unfold held, SFdiv, SFdiv_core_binary. cbn [Zdigits2].
  pose proof (digits_log2 m) as Lm. pose proof (digits_log2 c) as Lc.
  pose proof (digits_log2 (m * c)) as Lmc.
  pose proof (Z.log2_mul_below (Zpos m) (Zpos c) ltac:(lia) ltac:(lia)) as Hlo.
  pose proof (Z.log2_mul_above (Zpos m) (Zpos c) ltac:(lia) ltac:(lia)) as Hhi.
  rewrite <- Pos2Z.inj_mul in Hlo, Hhi.
  pose proof (Z.log2_nonneg (Zpos m)). pose proof (Z.log2_nonneg (Zpos c)).
  set (d := Zpos (digits2_pos m)) in *.
  set (d2 := Zpos (digits2_pos c)) in *.
  set (d1 := Zpos (digits2_pos (m * c))) in *.
  replace (Z.min (fexp prec emax (d1 + 0 - (d2 + 0))) (0 - 0)) with (d1 - d2 - 53)
    by (unfold fexp, emin, prec, emax; lia).
  replace (0 - 0 - (d1 - d2 - 53)) with (53 + d2 - d1) by lia.
  set (s := 53 + d2 - d1) in *.
  assert (Hm' : match s with
                | Z.pos _ => Z.shiftl (Zpos (m * c)) s
                | 0 => Zpos (m * c)
                | Z.neg _ => 0
                end = Zpos m * 2 ^ s * Zpos c).
  { destruct s as [|p|p] eqn:Hs; [lia| |lia]. rewrite Z.shiftl_mul_pow2 by lia. lia. }
  rewrite Hm'.
  destruct (Z.div_eucl (Zpos m * 2 ^ s * Zpos c) (Zpos c)) as [q r] eqn:Hdiv.
  assert (Hq : q = Zpos m * 2 ^ s).
  { rewrite <- (Z.div_mul (Zpos m * 2 ^ s) (Zpos c)) by lia. unfold Z.div. by rewrite Hdiv. }
  assert (Hr : r = 0).
  { rewrite <- (Z.mod_mul (Zpos m * 2 ^ s) (Zpos c)) by lia. unfold Z.modulo. by rewrite Hdiv. }
  subst r.
  assert (Hloc : new_location (Zpos c) 0 = loc_Exact).
  { unfold new_location. by destruct (Z.even (Zpos c)). }
  rewrite Hloc. cbn [xorb].
  replace (S754_finite false (Z.to_pos (Zpos m * 2 ^ (53 - d))) (d - 53))
    with (S754_finite false (Z.to_pos (Zpos m * 2 ^ (53 - d)))
            (d1 - d2 - 53 + (d + d2 - d1))) by (f_equal; lia).
  apply binary_round_aux_exact; [done|lia| |lia].
  rewrite Hq, Hk, <- Z.mul_assoc, <- Z.pow_add_r by lia. do 2 f_equal. lia.
Qed.

Lemma Number_whole d n : whole_number d n -> (n < 2 ^ 53)%N -> Number d = amount n.
Proof.
  unfold whole_number. intros Hd Hn. unfold amount, Number. cbn [whole dec_units dec_scale].
  rewrite Hd. destruct n as [|m]; [done|].
  change (N.pos m * N.pos (pow10 (dec_scale d)))%N with (N.pos (m * pow10 (dec_scale d))).
  cbv iota. rewrite SFdiv_exact by lia.
  change (pow10 0) with 1%positive. rewrite <- (Pos.mul_1_r m) at 2.
  by rewrite SFdiv_exact by lia.
Qed.

Lemma amount_held m : Zpos m < 2 ^ 53 -> amount (Npos m) = held m.
Proof.
  intros Hm. unfold amount, Number. cbn [whole dec_units dec_scale].
  change (pow10 0) with 1%positive. rewrite <- (Pos.mul_1_r m) at 1. by apply SFdiv_exact.
Qed.

Lemma shl_align_value m e e' :
  e' <= e -> Zpos (fst (shl_align m e e')) = Zpos m * 2 ^ (e - e').
Proof.
  intros He. unfold shl_align. destruct (e' - e) as [|d|d] eqn:Hd; [|lia|].
  - replace (e - e') with 0 by lia. simpl. lia.
  - cbn [fst]. change (Pos.iter xO m d) with (shift_pos d m).
    rewrite shift_pos_correct. replace (e - e') with (Zpos d) by lia.
    change (Z.pow_pos 2 d) with (2 ^ Zpos d). lia.
Qed.

Lemma shl_align_keeps m e e' : e <= e' -> shl_align m e e' = (m, e).
Proof. intros He. unfold shl_align. destruct (e' - e) as [|d|d] eqn:Hd; [done|done|lia]. Qed.

(** Two integers and their sum below [2 ^ 53] are added without error. *)
Lemma js_add_held a b :
  Zpos a + Zpos b < 2 ^ 53 -> js_add (held a) (held b) = held (a + b).
Proof.
  intros Hab.
  pose proof (digits_lt_pow2 a 53 ltac:(lia) ltac:(lia)) as Hda.
  pose proof (digits_lt_pow2 b 53 ltac:(lia) ltac:(lia)) as Hdb.
  pose proof (digits_lt_pow2 (a + b) 53 ltac:(lia) ltac:(lia)) as Hdab.
  pose proof (digits_le a (a + b) ltac:(lia)) as Hle1.
  pose proof (digits_le b (a + b) ltac:(lia)) as Hle2.
  destruct (held_mantissa a Hda) as [Hka _].
  destruct (held_mantissa b Hdb) as [Hkb _].
  destruct (held_mantissa (a + b) Hdab) as [Hkab Hdk].
  unfold js_add, held, SFadd.
  set (da := Zpos (digits2_pos a)) in *.
  set (db := Zpos (digits2_pos b)) in *.
  set (dab := Zpos (digits2_pos (a + b))) in *.
  set (ka := Z.to_pos (Zpos a * 2 ^ (53 - da))) in *.
  set (kb := Z.to_pos (Zpos b * 2 ^ (53 - db))) in *.
  set (kab := Z.to_pos (Zpos (a + b) * 2 ^ (53 - dab))) in *.
  assert (Hda0 : 0 < da) by done. assert (Hdb0 : 0 < db) by done.
  set (ez := Z.min (da - 53) (db - 53)).
  cbn [cond_Zopp].
  rewrite !shl_align_value by lia.
  assert (Hsum : Zpos ka * 2 ^ (da - 53 - ez) + Zpos kb * 2 ^ (db - 53 - ez)
                 = Zpos (a + b) * 2 ^ (- ez)).
  { rewrite Hka, Hkb, <- !Z.mul_assoc, <- !Z.pow_add_r by lia.
    replace (53 - da + (da - 53 - ez)) with (- ez) by lia.
    replace (53 - db + (db - 53 - ez)) with (- ez) by lia. lia. }
  rewrite Hsum.
  assert (Hpos : 0 < Zpos (a + b) * 2 ^ (- ez)).
  { apply Z.mul_pos_pos; [done|]. apply Z.pow_pos_nonneg; lia. }
  destruct (Zpos (a + b) * 2 ^ (- ez)) as [|s|s] eqn:Hs; [lia| |lia].
  unfold binary_normalize, binary_round.
  assert (Hds : Zpos (digits2_pos s) = dab - ez).
  { rewrite (digits_mul_pow2 (a + b) s (- ez)) by (done || lia). lia. }
  rewrite Hds. replace (dab - ez + ez) with dab by lia.
  rewrite fexp_normal by lia.
  rewrite shl_align_keeps by lia.
  replace (S754_finite false kab (dab - 53))
    with (S754_finite false kab (ez + (dab - 53 - ez))) by (f_equal; lia).
  apply binary_round_aux_exact; [done|lia| |lia].
  rewrite <- Hs, Hkab, <- Z.mul_assoc, <- Z.pow_add_r by lia.
  do 2 f_equal. lia.
Qed.

Lemma amount_0 : amount 0 = zero.
Proof. done. Qed.

Lemma js_add_amount a b :
  (a + b < 2 ^ 53)%N -> js_add (amount a) (amount b) = amount (a + b).
Proof.
  intros Hab. destruct a as [|a], b as [|b].
  - done.
  - rewrite N.add_0_l, amount_0, amount_held by lia. done.
  - rewrite N.add_0_r, amount_0, amount_held by lia. done.
  - rewrite !amount_held by lia. change (N.pos a + N.pos b)%N with (N.pos (a + b)).
    rewrite amount_held by lia. apply js_add_held. lia.
Qed.

Lemma fold_amounts ds ns a :
  Forall2 whole_number ds ns ->
  (a + sum_units ns < 2 ^ 53)%N ->
  fold_left (fun sum d => js_add sum (Number d)) ds (amount a) = amount (a + sum_units ns).
Proof.
  intros H. revert a. induction H as [|d n ds ns Hd _ IH]; intros a Ha; simpl in *.
  - by rewrite N.add_0_r.
  - rewrite (Number_whole d n) by (done || lia).
    rewrite js_add_amount by lia. rewrite IH by lia. f_equal. lia.
Qed.

(** Whole numbers whose sum is below [2 ^ 53] are added up without error. *)
Lemma sum_numbers_exact ds ns :
  Forall2 whole_number ds ns ->
  (sum_units ns < 2 ^ 53)%N ->
  sum_numbers ds = amount (sum_units ns).
Proof. intros H Hs. unfold sum_numbers. rewrite <- amount_0. by rewrite (fold_amounts ds ns). Qed.

(** Rounding a whole number to two decimals gives it back. *)
Lemma parseFloat_toFixed2_amount n :
  (n < 2 ^ 53)%N -> parseFloat_toFixed2 (amount n) = amount n.
Proof.
  intros Hn. destruct n as [|m]; [done|].
  rewrite amount_held by lia.
  pose proof (digits_lt_pow2 m 53 ltac:(lia) ltac:(lia)) as Hd.
  destruct (held_mantissa m Hd) as [Hk _].
  rewrite <- (SFdiv_exact m 100) at 2 by lia.
  unfold held, parseFloat_toFixed2.
  set (d := Zpos (digits2_pos m)) in *.
  set (k := Z.to_pos (Zpos m * 2 ^ (53 - d))) in *.
  assert (Hd0 : 0 < d) by done.
  assert (Hbig : 2 ^ 53 < 10 ^ 21) by done.
  assert (Hb : below_1e21 k (d - 53) = true).
  { unfold below_1e21. destruct (d - 53) as [|p|p] eqn:Hp; [|lia|].
    - apply Z.ltb_lt. rewrite Hk. replace (53 - d) with 0 by lia. lia.
    - apply Z.ltb_lt. rewrite Hk. replace (53 - d) with (Zpos p) by lia.
      apply Z.mul_lt_mono_pos_r; [by apply Z.pow_pos_nonneg|lia]. }
  rewrite Hb.
  assert (Hh : hundredths k (d - 53) = Zpos (m * 100)).
  { unfold hundredths. destruct (d - 53) as [|p|p] eqn:Hp; [|lia|].
    - rewrite Hk. replace (53 - d) with 0 by lia. lia.
    - rewrite Hk. replace (53 - d) with (Zpos p) by lia.
      replace (200 * (Zpos m * 2 ^ Zpos p) + 2 ^ Zpos p)
        with ((200 * Zpos m + 1) * 2 ^ Zpos p) by lia.
      rewrite Z.pow_add_r, Z.pow_1_r by lia.
      rewrite (Z.mul_comm (2 ^ Zpos p) 2).
      rewrite Z.div_mul_cancel_r by (try apply Z.pow_nonzero; lia).
      replace (200 * Zpos m + 1) with (1 + Zpos (m * 100) * 2) by lia.
      rewrite Z.div_add by lia. done. }
  by rewrite Hh.
Qed.

(** ** Tables: lookup after an update by id *)

Lemma find_pointwise {A} (P Q : A -> bool) l :
  (forall x, P x = Q x) -> List.find P l = List.find Q l.
Proof. intros H. induction l as [|x l IH]; simpl; [done|]. by rewrite H, IH. Qed.

Lemma find_order_patch id id' f l :
  (forall o, order_id (f o) = order_id o) ->
  List.find (fun o => bool_decide (order_id o = id)) (List.map (patch_order id' f) l)
  = patch_order id' f <$> List.find (fun o => bool_decide (order_id o = id)) l.
Proof.
  intros Hf. induction l as [|o l IH]; simpl; [done|].
  assert (Hid : order_id (patch_order id' f o) = order_id o).
  { unfold patch_order. case_bool_decide; auto. }
  rewrite Hid. case_bool_decide; simpl; auto.
Qed.

Lemma map_patch_order_ids id f l :
  (forall o, order_id (f o) = order_id o) ->
  List.map order_id (List.map (patch_order id f) l) = List.map order_id l.
Proof.
  intros Hf. induction l as [|o l IH]; simpl; [done|]. rewrite IH. f_equal.
  unfold patch_order. case_bool_decide; auto.
Qed.

Lemma find_order_with_orders_patch id id' f w :
  (forall o, order_id (f o) = order_id o) ->
  find_order id (with_orders (List.map (patch_order id' f)) w)
  = patch_order id' f <$> find_order id w.
Proof. intros Hf. unfold find_order. simpl. by apply find_order_patch. Qed.

Lemma find_order_id id w o : find_order id w = Some o -> order_id o = id.
Proof.
  unfold find_order. intros H. apply find_some in H as [_ H].
  by apply bool_decide_eq_true in H.
Qed.

Lemma unique_with_orders_patch id f w :
  (forall o, order_id (f o) = order_id o) ->
  unique_order_ids w -> unique_order_ids (with_orders (List.map (patch_order id f)) w).
Proof. intros Hf. unfold unique_order_ids. simpl. by rewrite map_patch_order_ids. Qed.

(** Under the primary key, a query that fixes the id finds the row of that id. *)
Lemma find_filtered_unique (Q : Order -> bool) id l o :
  (forall x, Q x = true -> order_id x = id) ->
  NoDup (List.map order_id l) ->
  List.find Q l = Some o ->
  List.find (fun o => bool_decide (order_id o = id)) l = Some o.
Proof.
  intros HQ. induction l as [|x l IH]; simpl; [done|].
  intros Hnd Hf. apply NoDup_cons in Hnd as [Hx Hnd].
  destruct (Q x) eqn:Hq.
  - rewrite bool_decide_eq_true_2; [done|auto].
  - case_bool_decide as Hid; [|auto]. exfalso. apply Hx.
    apply find_some in Hf as [Hin Hp]. apply HQ in Hp.
    apply list_elem_of_In, in_map_iff. exists o. split; [congruence|done].
Qed.

Lemma findFirst_unique (Q : Order -> bool) id l :
  NoDup (List.map order_id l) ->
  List.find (fun o => bool_decide (order_id o = id) && Q o) l
  = match List.find (fun o => bool_decide (order_id o = id)) l with
    | Some o => if Q o then Some o else None
    | None => None
    end.
Proof.
  induction l as [|x l IH]; simpl; [done|]. intros Hnd.
  apply NoDup_cons in Hnd as [Hx Hnd].
  case_bool_decide as Hid; simpl; [|auto].
  destruct (Q x); [done|].
  destruct (List.find _ l) as [o|] eqn:Ho; [|done].
  exfalso. apply Hx. apply find_some in Ho as [Hin Hp].
  apply andb_true_iff in Hp as [Hp _]. apply bool_decide_eq_true in Hp.
  apply list_elem_of_In, in_map_iff. exists o. split; [congruence|done].
Qed.

Lemma find_item_patch id id' f l :
  (forall it, item_id (f it) = item_id it) ->
  List.find (fun it => bool_decide (item_id it = id)) (List.map (patch_item id' f) l)
  = patch_item id' f <$> List.find (fun it => bool_decide (item_id it = id)) l.
Proof.
  intros Hf. induction l as [|x l IH]; simpl; [done|].
  assert (Hid : item_id (patch_item id' f x) = item_id x).
  { unfold patch_item. case_bool_decide; auto. }
  rewrite Hid. case_bool_decide; simpl; auto.
Qed.

Lemma find_item_id id w it : find_item id w = Some it -> item_id it = id.
Proof.
  unfold find_item. intros H. apply find_some in H as [_ H].
  by apply bool_decide_eq_true in H.
Qed.

Lemma find_product_elem p w P :
  find_product p w = Some P -> P ∈ products w /\ product_id P = p.
Proof.
  unfold find_product. intros H. apply find_some in H as [Hin Hid].
  split; [by apply list_elem_of_In|by apply bool_decide_eq_true in Hid].
Qed.

Lemma shop_unique_order_ids : unique_order_ids shop.
Proof. apply (bool_decide_unpack _). by vm_compute. Qed.

(** ** Order numbers *)

Lemma toUpperCase_length s : String.length (toUpperCase s) = String.length s.
Proof. induction s as [|c s IH]; simpl; [done|]. by rewrite IH. Qed.

Lemma substring_length n m s :
  String.length (String.substring n m s) = Nat.min m (String.length s - n).
Proof.
  revert n m. induction s as [|c s IH]; intros n m.
  - destruct n, m; simpl; lia.
  - destruct n as [|n].
    + destruct m as [|m]; simpl; [done|]. rewrite IH. simpl. lia.
    + simpl. by rewrite IH.
Qed.

(** C8. An order number is [ORD-], the year, the two-digit month, a dash and
    the characters 2 to 7 of the base-36 text of the random number in upper
    case: that suffix has as many characters as the text has after its first
    two, up to six. When the random number is 0.5 the text is [0.i] and the
    suffix is the single character [I]; when it is 0 the text is [0] and the
    suffix is empty; a text with six or more fractional digits gives the six
    characters the format asks for. *)
Theorem generateOrderNumber_suffix :
  (forall e,
     generateOrderNumber e
     = "ORD-" +:+ decimal (fullYear e) +:+ padStart2 (decimal (monthIndex e + 1)) +:+ "-"
       +:+ toUpperCase (substring 2 8 (random36 e))
     /\ String.length (toUpperCase (substring 2 8 (random36 e)))
        = Nat.min 6 (String.length (random36 e) - 2)) /\
  generateOrderNumber (printed_random "0.i") = "ORD-202611-I" /\
  generateOrderNumber (printed_random "0") = "ORD-202611-" /\
  generateOrderNumber (printed_random "0.4fzyo82mvyr") = "ORD-202611-4FZYO8".
Proof.
  split; [|by vm_compute].
  intros e. split; [done|].
  rewrite toUpperCase_length. unfold substring. by rewrite substring_length.
Qed.

(** ** The payment-status machine *)

Lemma mapM_activation_args_world e items w r w' :
  mapM (activation_args e) items w = (r, w') -> w' = w.
Proof.
  revert r w'. induction items as [|[it p] items IH]; simpl; intros r w'.
  - unfold ret. congruence.
  - unfold bind at 1. unfold activation_args at 1. simpl.
    destruct p as [p|]; [|unfold throw; congruence].
    unfold getSignedDownloadUrl, call, bind, ret, throw.
    destruct (fails e CloudinaryUrl); simpl; [congruence|].
    destruct (mapM (activation_args e) items w) as [[ys|x] w1] eqn:E; simpl in *;
      specialize (IH _ _ eq_refl); congruence.
Qed.

Lemma orderItem_update_frame e id f w r w' :
  orderItem_update e id f w = (r, w') -> same_but_items w w'.
Proof.
  unfold orderItem_update, call, throw. intros H.
  destruct (fails e _); [by inversion H|].
  destruct (find_item id w); by inversion H.
Qed.

Lemma promise_all_item_updates_frame e (g : string * string -> OrderItem -> OrderItem)
    args w r w' :
  promise_all (List.map (fun a => orderItem_update e (fst a) (g a)) args) w = (r, w') ->
  same_but_items w w'.
Proof.
  revert w r. induction args as [|a args IH]; intros w r; simpl.
  - by inversion 1.
  - destruct (orderItem_update e (fst a) (g a) w) as [r1 w1] eqn:E1.
    destruct (promise_all _ w1) as [r2 w2] eqn:E2. intros H; inversion H; subst.
    apply orderItem_update_frame in E1. apply IH in E2.
    unfold same_but_items in *. intuition congruence.
Qed.

Ltac frame_steps :=
  repeat match goal with
  | H : mapM (activation_args _) _ _ = (_, _) |- _ =>
      apply mapM_activation_args_world in H; subst
  | H : promise_all (List.map _ _) _ = (_, _) |- _ =>
      apply promise_all_item_updates_frame in H;
      destruct H as (? & ? & ? & ? & ?)
  end.

(** What one request can do to the order table: nothing, or rewrite the rows
    of one id in the way of its route. *)
Lemma step_orders w e op :
  orders (step w (e, op)) = orders w \/
  match op with
  | SubmitPaymentReference user id (Some utr) =>
      (exists o, List.find (fun o => bool_decide (order_id o = id)
                             && bool_decide (order_userId o = user_id user)
                             && bool_decide (order_paymentStatus o = PENDING)) (orders w)
                 = Some o)
      /\ orders (step w (e, op)) = List.map (patch_order id (set_utr utr)) (orders w)
  | SubmitPaymentReference _ _ None => False
  | Verify _ id =>
      (exists o, find_order id w = Some o /\ order_paymentStatus o <> VERIFIED)
      /\ orders (step w (e, op)) = List.map (patch_order id (set_verified (now e))) (orders w)
  | Reject _ id _ =>
      orders (step w (e, op)) = List.map (patch_order id set_rejected) (orders w)
  end.
Proof.
  destruct op as [user id utr|caller id|caller id reason]; unfold step; simpl.
  - unfold submitPaymentReference, submitUtrSchema_parse, order_findFirst, order_update.
    unfold_monad. destruct utr as [utr|]; repeat (case_match; simplify_eq; simpl in *; auto).
    all: right; split; eauto.
  - unfold requireAdmin. case_bool_decide; [|by left].
    unfold verify, order_findUnique, order_update, adminLog_create. unfold_monad.
    repeat (case_match; simplify_eq; simpl in *; auto).
    all: frame_steps; simpl in *.
    all: destruct (find_order id _) as [o'|] eqn:Ho; simpl in *; simplify_eq.
    all: right; split; [eexists; split; [done|]; by eapply bool_decide_eq_false_1|]; done.
  - unfold requireAdmin. case_bool_decide; [|by left].
    unfold reject, order_update, adminLog_create. unfold_monad.
    repeat (case_match; simplify_eq; simpl in *; auto).
Qed.

Lemma step_unique_order_ids w req :
  unique_order_ids w -> unique_order_ids (step w req).
Proof.
  destruct req as [e op]. unfold unique_order_ids. intros Hnd.
  destruct (step_orders w e op) as [->|H]; [done|].
  destruct op as [user id [utr|]|caller id|caller id reason]; try done;
    [destruct H as [_ ->]|destruct H as [_ ->]|rewrite H];
    by rewrite map_patch_order_ids.
Qed.

Lemma step_keeps_status w e op id st :
  unique_order_ids w ->
  keeps st op = true ->
  paymentStatus_of id w = Some st ->
  paymentStatus_of id (step w (e, op)) = Some st.
Proof.
  intros Hnd Hk Hst. unfold paymentStatus_of, find_order in *.
  destruct (step_orders w e op) as [->|H]; [done|].
  destruct (List.find _ (orders w)) as [o|] eqn:Ho; simpl in Hst; [|done].
  injection Hst as Hst.
  assert (Hoid : order_id o = id).
  { apply find_some in Ho as [_ Hoid]. by apply bool_decide_eq_true in Hoid. }
  destruct op as [user id' [utr|]|caller id'|caller id' reason]; try done.
  - destruct H as [[o' Ho'] ->]. rewrite find_order_patch by done. rewrite Ho. simpl.
    unfold patch_order. case_bool_decide as Hid; [|by rewrite Hst].
    exfalso. assert (id' = id) as -> by congruence.
    pose proof Ho' as Hp. apply find_some in Hp as [_ Hp].
    apply andb_true_iff in Hp as [_ Hp]. apply bool_decide_eq_true in Hp.
    apply (find_filtered_unique _ id) in Ho'; [| |done].
    2:{ intros x Hx. apply andb_true_iff in Hx as [Hx _].
        apply andb_true_iff in Hx as [Hx _]. by apply bool_decide_eq_true in Hx. }
    rewrite Ho in Ho'. injection Ho' as <-. rewrite Hp in Hst. by subst st.
  - destruct H as [[o' [Ho' Hnv]] ->]. rewrite find_order_patch by done. rewrite Ho. simpl.
    unfold patch_order. case_bool_decide as Hid; [|by rewrite Hst].
    assert (id' = id) as -> by congruence. unfold find_order in Ho'.
    rewrite Ho in Ho'. injection Ho' as <-.
    destruct st; simpl in Hk; try done.
  - rewrite H. rewrite find_order_patch by done. rewrite Ho. simpl.
    unfold patch_order. case_bool_decide as Hid; [|by rewrite Hst].
    destruct st; simpl in Hk; try done.
Qed.

(** C1, as the code has it. With unique order ids, no sequence of
    submitPaymentReference and verify requests moves the payment status of an
    order out of VERIFIED, and no sequence of submitPaymentReference and
    reject requests moves it out of FAILED: a status [st] among the two
    survives every sequence of operations that [keeps st] lets through. *)
Theorem payment_status_left_only_by_override reqs w id st :
  unique_order_ids w ->
  forallb (fun req => keeps st (snd req)) reqs = true ->
  paymentStatus_of id w = Some st ->
  paymentStatus_of id (run reqs w) = Some st.
Proof.
  revert w. induction reqs as [|[e op] reqs IH]; intros w Hnd Hk Hst; simpl in *; [done|].
  apply andb_true_iff in Hk as [Hk1 Hk2].
  apply IH; [by apply step_unique_order_ids|done|by apply step_keeps_status].
Qed.

(** The verified order [o3] of the shop stays VERIFIED through a payment
    reference and a second verification. *)
Lemma payment_status_witness :
  paymentStatus_of "o3"
    (run [ (request_env t0 no_failure, SubmitPaymentReference alice "o3" (Some "UTR123456"));
           (request_env t0 no_failure, Verify root "o3") ] shop)
  = Some VERIFIED.
Proof.
  apply payment_status_left_only_by_override.
  - apply (bool_decide_unpack _). by vm_compute.
  - reflexivity.
  - reflexivity.
Defined.

(** The two transitions the status machine of the specification excludes:
    verifying the rejected order [o2] makes it VERIFIED, rejecting the
    verified order [o3] makes it FAILED. *)
Lemma terminal_status_counterexample :
  paymentStatus_of "o2" shop = Some FAILED /\
  paymentStatus_of "o2" (run [(request_env t0 no_failure, Verify root "o2")] shop)
  = Some VERIFIED /\
  paymentStatus_of "o3" shop = Some VERIFIED /\
  paymentStatus_of "o3" (run [(request_env t0 no_failure, Reject root "o3" None)] shop)
  = Some FAILED.
Proof. by vm_compute. Qed.

(** ** Payment reference *)

Lemma order_findFirst_unique e id userId st w :
  unique_order_ids w ->
  fails e OrderFindFirst = false ->
  order_findFirst e id userId st w
  = (Ok (match find_order id w with
         | Some o => if bool_decide (order_userId o = userId)
                        && bool_decide (order_paymentStatus o = st)
                     then Some o else None
         | None => None
         end), w).
Proof.
  intros Hnd Hf. unfold order_findFirst, call. rewrite Hf. f_equal. f_equal.
  unfold find_order. rewrite <- (findFirst_unique _ id (orders w) Hnd).
  apply find_pointwise. intros o. by rewrite andb_assoc.
Qed.

Lemma js_length_ascii s : ascii_text s = true -> js_length s = String.length s.
Proof.
  induction s as [|c s IH]; simpl; [done|].
  intros H. apply andb_true_iff in H as [Hc Hs].
  unfold utf16_units. unfold ascii_char in Hc. rewrite Hc. by rewrite IH.
Qed.

Lemma submit_run e user id utr w :
  unique_order_ids w ->
  truthy id = true ->
  (5 <= js_length utr <= 50)%nat ->
  fails e OrderFindFirst = false ->
  fails e OrderUpdate = false ->
  respond (submitPaymentReference e user id (Some utr)) w
  = match find_order id w with
    | Some o =>
        if bool_decide (order_userId o = user_id user)
           && bool_decide (order_paymentStatus o = PENDING)
        then (json 200 (UtrSubmitted (order_orderNumber o)),
              with_orders (List.map (patch_order id (set_utr utr))) w)
        else (not_found_or_processed, w)
    | None => (not_found_or_processed, w)
    end.
Proof.
  intros Hnd Hid [Hlo Hhi] Hff Hfu.
  apply Nat.leb_le in Hlo, Hhi.
  unfold respond, submitPaymentReference, try_catch, bind, invalid_param, getQueryString,
    submitUtrSchema_parse.
  rewrite Hid, Hlo, Hhi. simpl. unfold ret at 1.
  rewrite order_findFirst_unique by done.
  destruct (find_order id w) as [o|] eqn:Ho; [|done].
  destruct (_ && _); [|done].
  unfold order_update, call. rewrite Hfu, Ho. done.
Qed.

(** A payment reference outside 5 to 50 characters is refused before the
    order is looked at. *)
Lemma submit_invalid_utr e user id utr w :
  truthy id = true ->
  (js_length utr < 5 \/ 50 < js_length utr)%nat ->
  respond (submitPaymentReference e user id (Some utr)) w
  = (json 400 (ErrorBody "Invalid UTR number"), w).
Proof.
  intros Hid Hlen.
  unfold respond, submitPaymentReference, try_catch, bind, invalid_param, getQueryString,
    submitUtrSchema_parse.
  rewrite Hid.
  assert (Hb : (5 <=? js_length utr)%nat && (js_length utr <=? 50)%nat = false).
  { apply andb_false_iff. destruct Hlen; [left|right]; apply Nat.leb_gt; lia. }
  by rewrite Hb.
Qed.

(** Outside ASCII the length is not the number of bytes: three accented
    letters are six bytes and three code units, too few for a reference. *)
Example submit_counts_code_units :
  let utr := e_acute +:+ e_acute +:+ e_acute in
  String.length utr = 6%nat /\
  js_length utr = 3%nat /\
  respond (submitPaymentReference (request_env t0 no_failure) alice "o1" (Some utr)) shop
  = (json 400 (ErrorBody "Invalid UTR number"), shop).
Proof. by repeat split. Qed.

(** C5. For a well-formed request (an order id, a payment reference of 5 to
    50 ASCII characters) whose database calls go through, submitPaymentReference
    succeeds exactly when the order exists, belongs to the caller and is
    PENDING; it then stores the reference and sets the status SUBMITTED. In
    every other case it answers with one and the same 404 and changes nothing,
    and so does any second submission for the same order. *)
Theorem submitPaymentReference_pending_only e user id utr w :
  unique_order_ids w ->
  truthy id = true ->
  ascii_text utr = true ->
  (5 <= String.length utr <= 50)%nat ->
  fails e OrderFindFirst = false ->
  fails e OrderUpdate = false ->
  let r := fst (respond (submitPaymentReference e user id (Some utr)) w) in
  let w' := snd (respond (submitPaymentReference e user id (Some utr)) w) in
  (status r = 200 <-> submittable user id w = true) /\
  (submittable user id w = true ->
   exists o, find_order id w = Some o /\
             r = json 200 (UtrSubmitted (order_orderNumber o)) /\
             find_order id w' = Some (set_utr utr o) /\
             order_utrNumber (set_utr utr o) = Some utr /\
             order_paymentStatus (set_utr utr o) = SUBMITTED) /\
  (submittable user id w = false -> r = not_found_or_processed /\ w' = w) /\
  (forall e2 utr2,
     ascii_text utr2 = true ->
     (5 <= String.length utr2 <= 50)%nat ->
     fails e2 OrderFindFirst = false ->
     fails e2 OrderUpdate = false ->
     respond (submitPaymentReference e2 user id (Some utr2)) w'
     = (not_found_or_processed, w')).
Proof.
  intros Hnd Hid Hascii Hlen Hff Hfu r w'. subst r w'.
  rewrite <- (js_length_ascii utr Hascii) in Hlen.
  rewrite (submit_run e user id utr w) by done.
  unfold submittable.
  destruct (find_order id w) as [o|] eqn:Ho.
  - destruct (_ && _) eqn:Hok; simpl.
    + split; [done|]. split.
      { intros _. exists o. repeat split; try done.
        rewrite find_order_with_orders_patch, Ho by done. simpl.
        unfold patch_order. by rewrite bool_decide_eq_true_2 by by eapply find_order_id. }
      split; [done|].
      intros e2 utr2 Hascii2 Hlen2 Hff2 Hfu2.
      rewrite <- (js_length_ascii utr2 Hascii2) in Hlen2.
      rewrite submit_run; try done; [|by apply unique_with_orders_patch].
      rewrite find_order_with_orders_patch, Ho by done. simpl.
      unfold patch_order.
      rewrite (bool_decide_eq_true_2 (order_id o = id)) by by eapply find_order_id.
      simpl. by rewrite andb_false_r.
    + split; [done|]. split; [done|]. split; [done|].
      intros e2 utr2 Hascii2 Hlen2 Hff2 Hfu2.
      rewrite <- (js_length_ascii utr2 Hascii2) in Hlen2.
      rewrite submit_run by done. by rewrite Ho, Hok.
  - simpl. split; [done|]. split; [done|]. split; [done|].
    intros e2 utr2 Hascii2 Hlen2 Hff2 Hfu2.
    rewrite <- (js_length_ascii utr2 Hascii2) in Hlen2.
    rewrite submit_run by done. by rewrite Ho.
Qed.

(** The scenario of the specification: UTR123456 on the pending order [o1]
    is accepted and the order becomes SUBMITTED; the same call a second later
    is answered with the 404. *)
Lemma submit_twice_witness :
  let r := fst (respond (submitPaymentReference (request_env t0 no_failure) alice "o1"
                           (Some "UTR123456")) shop) in
  let w' := snd (respond (submitPaymentReference (request_env t0 no_failure) alice "o1"
                            (Some "UTR123456")) shop) in
  r = json 200 (UtrSubmitted "ORD-202610-AAAAAA") /\
  paymentStatus_of "o1" w' = Some SUBMITTED /\
  respond (submitPaymentReference (request_env (t0 + 1000) no_failure) alice "o1"
             (Some "UTR123456")) w'
  = (not_found_or_processed, w').
Proof.
  destruct (submitPaymentReference_pending_only (request_env t0 no_failure) alice "o1"
              "UTR123456" shop) as (_ & Hok & _ & Hagain).
  - apply (bool_decide_unpack _). by vm_compute.
  - reflexivity.
  - reflexivity.
  - simpl. lia.
  - reflexivity.
  - reflexivity.
  - split; [by vm_compute|]. split; [by vm_compute|].
    apply Hagain; [reflexivity|simpl; lia|reflexivity|reflexivity].
Defined.

(** ** The download gate *)

Lemma find_downloadable id userId w it :
  find_item id w = Some it ->
  (exists o, find_order (item_orderId it) w = Some o /\
             order_userId o = userId /\ order_paymentStatus o = VERIFIED) ->
  List.find (downloadable id userId w) (orderItems w) = Some it.
Proof.
  unfold find_item. intros Hit (o & Ho & Hu & Hv).
  induction (orderItems w) as [|x l IH]; simpl in *; [done|].
  unfold downloadable at 1. case_bool_decide as Hid; simpl in *.
  - injection Hit as ->. by rewrite Ho, Hu, Hv, !bool_decide_eq_true_2.
  - auto.
Qed.

(** The gate, once the item is found under an order of the caller that is
    VERIFIED: limit, then expiry, then the signed URL, then the three writes. *)
Lemma requestDownload_run e user id w it :
  truthy id = true ->
  fails e OrderItemFindFirst = false ->
  find_item id w = Some it ->
  owned_and_verified user it w ->
  respond (requestDownload e user id) w
  = if item_downloadLimit it <=? item_downloadCount it
    then (json 403 (ErrorBody "Download limit reached"), w)
    else if expired e it
    then (json 403 (ErrorBody "Download link expired"), w)
    else match find_product (item_productId it) w with
         | None => (download_failed, w)
         | Some p =>
             if fails e CloudinaryUrl then (download_failed, w)
             else (if fails e (OrderItemUpdate id) || fails e DownloadLogCreate
                      || fails e ProductUpdate
                   then download_failed
                   else json 200 (DownloadGranted (cloudinary_url e (product_fileUrl p) 3600)
                                    (item_downloadLimit it - item_downloadCount it - 1)
                                    (item_productTitle it)),
                   after_download e user id it w)
         end.
Proof.
  intros Hid Hff Hit Hov.
  unfold respond, requestDownload, try_catch, bind, invalid_param, getQueryString.
  rewrite Hid. simpl. unfold orderItem_findFirst, call. rewrite Hff.
  rewrite (find_downloadable id (user_id user) w it Hit Hov). simpl.
  destruct (item_downloadLimit it <=? item_downloadCount it); [done|].
  destruct (expired e it); [done|].
  destruct (find_product (item_productId it) w) as [p|] eqn:Hp; [|done].
  unfold getSignedDownloadUrl, call, after_download.
  destruct (fails e CloudinaryUrl); [done|]. simpl.
  unfold orderItem_update, downloadLog_create, product_increment_downloadCount, call, throw.
  destruct (fails e (OrderItemUpdate id)), (fails e DownloadLogCreate),
    (fails e ProductUpdate); simpl; rewrite ?Hit; simpl;
    try (unfold find_product in *; simpl; rewrite Hp); done.
Qed.

Lemma find_item_after_download e user id it w :
  find_item id w = Some it ->
  find_item id (after_download e user id it w)
  = Some (if fails e (OrderItemUpdate id) then it else bump_item it).
Proof.
  intros Hit. unfold after_download, find_item in *.
  destruct (fails e (OrderItemUpdate id)), (fails e DownloadLogCreate),
    (fails e ProductUpdate); simpl; rewrite ?find_item_patch by done; rewrite Hit; simpl;
    try done.
  all: unfold patch_item; rewrite bool_decide_eq_true_2; [done|].
  all: by apply (find_item_id id w); unfold find_item.
Qed.

Lemma not_expired_expired e it : not_expired e it -> expired e it = false.
Proof.
  unfold not_expired, expired. destruct (item_expiresAt it); [|done].
  intros H. apply Z.ltb_ge. lia.
Qed.

Lemma item3_owned : owned_and_verified alice item3 shop.
Proof. eexists. split; [by vm_compute|]. by split. Qed.

(** X27. A download request that is served alone, with no other request
    between its lookup and its writes. For an item under a VERIFIED order of
    the caller whose expiry has not passed, and with the collaborators
    answering: requestDownload answers "Download limit reached" exactly when
    [downloadCount >= downloadLimit], and then changes nothing; otherwise it
    adds exactly 1 to [downloadCount] and reports [downloadLimit -
    downloadCount] of the incremented row as [remainingDownloads]. Such a
    request keeps a count that is within the limit within the limit. *)
Theorem requestDownload_limit e user id w it p :
  truthy id = true ->
  find_item id w = Some it ->
  owned_and_verified user it w ->
  not_expired e it ->
  find_product (item_productId it) w = Some p ->
  fails e OrderItemFindFirst = false ->
  fails e CloudinaryUrl = false ->
  fails e (OrderItemUpdate id) = false ->
  fails e DownloadLogCreate = false ->
  fails e ProductUpdate = false ->
  let r := fst (respond (requestDownload e user id) w) in
  let w' := snd (respond (requestDownload e user id) w) in
  (r = json 403 (ErrorBody "Download limit reached")
   <-> item_downloadCount it >= item_downloadLimit it) /\
  (item_downloadCount it >= item_downloadLimit it -> w' = w) /\
  (item_downloadCount it < item_downloadLimit it ->
   exists it', find_item id w' = Some it' /\
     item_downloadCount it' = item_downloadCount it + 1 /\
     item_downloadLimit it' = item_downloadLimit it /\
     r = json 200 (DownloadGranted (cloudinary_url e (product_fileUrl p) 3600)
                     (item_downloadLimit it' - item_downloadCount it')
                     (item_productTitle it))) /\
  (item_downloadCount it <= item_downloadLimit it ->
   exists it', find_item id w' = Some it' /\ item_downloadCount it' <= item_downloadLimit it').
Proof.
  intros Hid Hit Hov Hne Hp Hf1 Hf2 Hf3 Hf4 Hf5 r w'. subst r w'.
  rewrite (requestDownload_run e user id w it) by done.
  rewrite (not_expired_expired e it Hne), Hp, Hf2, Hf3, Hf4, Hf5. simpl.
  destruct (Z.leb_spec (item_downloadLimit it) (item_downloadCount it)) as [Hle|Hlt]; simpl.
  - split; [split; [lia|done]|]. split; [done|]. split; [lia|].
    intros Hc. exists it. split; [done|lia].
  - split; [split; [done|lia]|]. split; [lia|].
    pose proof (find_item_after_download e user id it w Hit) as Ha.
    rewrite Hf3 in Ha. split.
    + intros _. exists (bump_item it). split; [done|]. simpl. repeat split.
      do 2 f_equal. lia.
    + intros _. exists (bump_item it). split; [done|]. simpl. lia.
Qed.

(** Alice downloads item [i3] (0 of 5 used): the count becomes 1 and 4
    downloads remain. *)
Lemma download_count_witness :
  let r := fst (respond (requestDownload (request_env t0 no_failure) alice "i3") shop) in
  let w' := snd (respond (requestDownload (request_env t0 no_failure) alice "i3") shop) in
  exists it', find_item "i3" w' = Some it' /\
    item_downloadCount it' = 1 /\
    r = json 200 (DownloadGranted "https://res.cloudinary.com/signed/digitalghar/products/a"
                    4 "Ebook A").
Proof.
  destruct (requestDownload_limit (request_env t0 no_failure) alice "i3" shop item3 productA)
    as (_ & _ & Hgrant & _); try reflexivity; try exact I.
  - apply item3_owned.
  - destruct Hgrant as (it' & Hfind & Hcount & Hlimit & Hr); [simpl; lia|].
    exists it'. split; [done|]. split; [done|].
    rewrite Hr, Hcount, Hlimit. reflexivity.
Defined.

(** C10. An item under a VERIFIED order of the caller, with downloads left
    and no expiry set, is granted whatever the clock says: the gate reads a
    missing [expiresAt] as no time limit. *)
Theorem requestDownload_without_expiry e user id w it p :
  truthy id = true ->
  find_item id w = Some it ->
  owned_and_verified user it w ->
  item_downloadCount it < item_downloadLimit it ->
  item_expiresAt it = None ->
  find_product (item_productId it) w = Some p ->
  fails e OrderItemFindFirst = false ->
  fails e CloudinaryUrl = false ->
  fails e (OrderItemUpdate id) = false ->
  fails e DownloadLogCreate = false ->
  fails e ProductUpdate = false ->
  fst (respond (requestDownload e user id) w)
  = json 200 (DownloadGranted (cloudinary_url e (product_fileUrl p) 3600)
                (item_downloadLimit it - item_downloadCount it - 1)
                (item_productTitle it)).
Proof.
  intros Hid Hit Hov Hlt Hex Hp Hf1 Hf2 Hf3 Hf4 Hf5.
  rewrite (requestDownload_run e user id w it) by done.
  unfold expired. rewrite Hex, Hp, Hf2, Hf3, Hf4, Hf5.
  destruct (Z.leb_spec (item_downloadLimit it) (item_downloadCount it)); [lia|done].
Qed.

(** Item [i3] was never activated; ten years on it is still served. *)
Lemma download_without_expiry_witness :
  fst (respond (requestDownload (request_env (t0 + 86400000 * 3650) no_failure) alice "i3") shop)
  = json 200 (DownloadGranted "https://res.cloudinary.com/signed/digitalghar/products/a"
                4 "Ebook A").
Proof.
  apply (requestDownload_without_expiry (request_env (t0 + 86400000 * 3650) no_failure)
           alice "i3" shop item3 productA); try reflexivity.
  apply item3_owned.
Defined.

(** C6, as the code has it. The count increment, the audit-log write and the
    product counter are awaited together: for a request that passes the
    ownership, limit and expiry checks and whose count increment succeeds, the
    signed URL is returned exactly when the audit-log write and the product
    counter both succeed; when the audit-log write fails the answer is the 500
    "Failed to generate download link", with the count already incremented. *)
Theorem requestDownload_audit_failure_blocks e user id w it p :
  truthy id = true ->
  find_item id w = Some it ->
  owned_and_verified user it w ->
  item_downloadCount it < item_downloadLimit it ->
  not_expired e it ->
  find_product (item_productId it) w = Some p ->
  fails e OrderItemFindFirst = false ->
  fails e CloudinaryUrl = false ->
  fails e (OrderItemUpdate id) = false ->
  let r := fst (respond (requestDownload e user id) w) in
  let w' := snd (respond (requestDownload e user id) w) in
  (r = json 200 (DownloadGranted (cloudinary_url e (product_fileUrl p) 3600)
                   (item_downloadLimit it - item_downloadCount it - 1)
                   (item_productTitle it))
   <-> fails e DownloadLogCreate = false /\ fails e ProductUpdate = false) /\
  (fails e DownloadLogCreate = true ->
   r = download_failed /\ find_item id w' = Some (bump_item it)).
Proof.
  intros Hid Hit Hov Hlt Hne Hp Hf1 Hf2 Hf3 r w'. subst r w'.
  rewrite (requestDownload_run e user id w it) by done.
  rewrite (not_expired_expired e it Hne), Hp, Hf2, Hf3.
  destruct (Z.leb_spec (item_downloadLimit it) (item_downloadCount it)); [lia|].
  simpl. split.
  - destruct (fails e DownloadLogCreate), (fails e ProductUpdate); simpl;
      split; try done; intros [? ?]; done.
  - intros Hlog. rewrite Hlog. simpl. split; [done|].
    rewrite find_item_after_download by done. by rewrite Hf3.
Qed.

Lemma audit_failure_witness :
  fst (respond (requestDownload (request_env t0 audit_log_down) alice "i3") shop)
  = download_failed /\
  find_item "i3" (snd (respond (requestDownload (request_env t0 audit_log_down) alice "i3") shop))
  = Some (bump_item item3).
Proof.
  destruct (requestDownload_audit_failure_blocks (request_env t0 audit_log_down) alice "i3"
              shop item3 productA) as (_ & Hblocked); try reflexivity; try exact I.
  - apply item3_owned.
  - apply Hblocked. reflexivity.
Defined.

(** Alice asks for item [i3] of her verified order, with downloads left and
    no expiry; the count increment goes through and the audit-log write
    fails. The answer is the 500, not the URL, and the download is counted. *)
Lemma audit_failure_counterexample :
  find_item "i3" shop = Some item3 /\
  paymentStatus_of "o3" shop = Some VERIFIED /\
  item_downloadCount item3 < item_downloadLimit item3 /\
  item_expiresAt item3 = None /\
  fails (request_env t0 audit_log_down) (OrderItemUpdate "i3") = false /\
  fails (request_env t0 audit_log_down) DownloadLogCreate = true /\
  fst (respond (requestDownload (request_env t0 audit_log_down) alice "i3") shop)
  = json 500 (ErrorBody "Failed to generate download link") /\
  item_downloadCount
    <$> find_item "i3"
          (snd (respond (requestDownload (request_env t0 audit_log_down) alice "i3") shop))
  = Some 1.
Proof. by vm_compute. Qed.

(** ** Verification *)

Lemma activate_row_frame exp args it :
  item_id (activate_row exp args it) = item_id it /\
  item_orderId (activate_row exp args it) = item_orderId it /\
  item_downloadCount (activate_row exp args it) = item_downloadCount it /\
  item_downloadLimit (activate_row exp args it) = item_downloadLimit it.
Proof.
  revert it. induction args as [|a args IH]; intros it; simpl; [done|].
  destruct (IH (patch_item (fst a) (activate (snd a) exp) it)) as (-> & -> & -> & ->).
  unfold patch_item. by case_bool_decide.
Qed.

Lemma activate_row_expiry exp args it :
  item_id it ∈ List.map fst args \/ item_expiresAt it = Some exp ->
  item_expiresAt (activate_row exp args it) = Some exp.
Proof.
  revert it. induction args as [|a args IH]; intros it; simpl.
  - intros [H|H]; [by apply elem_of_nil in H|done].
  - intros H. apply IH. unfold patch_item. case_bool_decide as Hid; simpl; [by right|].
    destruct H as [H|H]; [|by right]. left.
    apply elem_of_cons in H as [H|H]; [congruence|done].
Qed.

Lemma promise_all_activations e exp args w :
  healthy e ->
  Forall (fun a => is_Some (find_item (fst a) w)) args ->
  promise_all (List.map (fun a => orderItem_update e (fst a) (activate (snd a) exp)) args) w
  = (Ok tt, with_orderItems (List.map (activate_row exp args)) w).
Proof.
  intros Hf. revert w. induction args as [|a args IH]; intros w Hall; simpl.
  - destruct w. unfold with_orderItems. simpl. by rewrite map_id.
  - apply Forall_cons in Hall as [[it Hit] Hall].
    unfold orderItem_update at 1, call. rewrite Hf, Hit.
    rewrite IH.
    + f_equal. unfold with_orderItems. simpl. by rewrite map_map.
    + eapply Forall_impl; [exact Hall|]. intros b [itb Hb]. simpl in *.
      unfold find_item in *. simpl. rewrite find_item_patch by done. rewrite Hb. by eexists.
Qed.

Lemma mapM_activation_args_ok e (items : list (OrderItem * option Product)) w :
  healthy e ->
  Forall (fun x => is_Some (snd x)) items ->
  exists args,
    mapM (activation_args e) items w = (Ok args, w) /\
    List.map fst args = List.map (fun x => item_id (fst x)) items.
Proof.
  intros Hf. induction items as [|[it op] items IH]; intros Hall; simpl.
  - by exists [].
  - apply Forall_cons in Hall as [[p Hp] Hall]. simpl in Hp. subst op.
    destruct (IH Hall) as (args & Hargs & Hids).
    eexists ((item_id it, cloudinary_url e (product_fileUrl p) (7 * 24 * 3600)) :: args).
    split; [|simpl; by rewrite Hids].
    unfold bind at 1. unfold activation_args at 1. simpl.
    unfold getSignedDownloadUrl, call. rewrite Hf. unfold bind, ret. by rewrite Hargs.
Qed.

Lemma verify_run e admin id w o :
  truthy id = true ->
  find_order id w = Some o ->
  order_paymentStatus o <> VERIFIED ->
  products_present id w ->
  healthy e ->
  exists args,
    List.map fst args = List.map item_id (items_of id w) /\
    respond (verify e admin id) w
    = (json 200 (PaymentVerified (set_verified (now e) o)),
       with_adminLogs
         (fun ls => (ls ++ [mkAdminLog (user_id admin) "verified_payment" "order" id
                              (VerifiedDetails (order_orderNumber o) (order_totalAmount o))
                              (req_ip e)])%list)
         (with_orderItems (List.map (activate_row (now_again e + SEVEN_DAYS_MS) args))
            (with_orders (List.map (patch_order id (set_verified (now e)))) w))).
Proof.
  intros Hid Ho Hnv Hpp Hf.
  set (w1 := with_orders (List.map (patch_order id (set_verified (now e)))) w).
  destruct (mapM_activation_args_ok e
              (List.map (fun it => (it, find_product (item_productId it) w)) (items_of id w))
              w1 Hf) as (args & Hargs & Hids).
  { apply Forall_map. exact Hpp. }
  rewrite map_map in Hids. simpl in Hids.
  exists args. split; [done|].
  unfold respond, verify, try_catch, bind, invalid_param, getQueryString.
  rewrite Hid. simpl. unfold order_findUnique, call. rewrite Hf, Ho. simpl.
  rewrite bool_decide_eq_false_2 by done.
  unfold order_update, call. rewrite Hf, Ho. fold w1. rewrite Hargs.
  rewrite promise_all_activations; [|done|].
  - unfold adminLog_create, call. by rewrite Hf.
  - apply Forall_forall. intros a Ha.
    assert (Hin : fst a ∈ List.map fst args).
    { apply list_elem_of_In, in_map. by apply list_elem_of_In. }
    rewrite Hids in Hin.
    apply list_elem_of_In, in_map_iff in Hin as (it & Hit & Hin).
    unfold items_of in Hin. apply filter_In in Hin as [Hin _].
    unfold find_item. simpl.
    destruct (List.find (fun it0 => bool_decide (item_id it0 = fst a)) (orderItems w)) eqn:E;
      [by eexists|].
    exfalso. eapply find_none in E; [|exact Hin]. simpl in E.
    by rewrite bool_decide_eq_true_2 in E.
Qed.

Lemma Forall2_map_self {A} (R : A -> A -> Prop) (F : A -> A) (l : list A) :
  (forall x, x ∈ l -> R x (F x)) -> Forall2 R l (List.map F l).
Proof.
  induction l as [|x l IH]; intros H; simpl; constructor.
  - apply H. by left.
  - apply IH. intros y Hy. apply H. by right.
Qed.

(** C4. Verifying an existing order that is not yet VERIFIED, with the
    collaborators answering and the products of its items in the catalog,
    sets the payment status VERIFIED, the order status COMPLETED and [paidAt]
    to the clock reading of the update; every item of the order gets
    [expiresAt] seven days after the clock reading taken for the activation,
    and keeps its counters. Once that instant has passed, requestDownload by
    the owner on any of those items answers "Download link expired" although
    [downloadCount < downloadLimit]. *)
Theorem verify_activates_entitlements e admin id w o :
  truthy id = true ->
  find_order id w = Some o ->
  order_paymentStatus o <> VERIFIED ->
  products_present id w ->
  healthy e ->
  let r := fst (respond (verify e admin id) w) in
  let w' := snd (respond (verify e admin id) w) in
  let expiresAt := now_again e + 7 * 24 * 3600 * 1000 in
  r = json 200 (PaymentVerified (set_verified (now e) o)) /\
  (exists o', find_order id w' = Some o' /\
              order_paymentStatus o' = VERIFIED /\
              order_orderStatus o' = COMPLETED /\
              order_paidAt o' = Some (now e)) /\
  Forall2 (fun it it' =>
             item_id it' = item_id it /\ item_orderId it' = item_orderId it /\
             item_downloadCount it' = item_downloadCount it /\
             item_downloadLimit it' = item_downloadLimit it /\
             (item_orderId it = id -> item_expiresAt it' = Some expiresAt))
          (orderItems w) (orderItems w') /\
  (forall e2 user itemId it',
     truthy itemId = true ->
     fails e2 OrderItemFindFirst = false ->
     user_id user = order_userId o ->
     find_item itemId w' = Some it' ->
     item_orderId it' = id ->
     item_downloadCount it' < item_downloadLimit it' ->
     now e2 > expiresAt ->
     respond (requestDownload e2 user itemId) w'
     = (json 403 (ErrorBody "Download link expired"), w')).
Proof.
  intros Hid Ho Hnv Hpp Hf r w' expiresAt. subst r w'.
  destruct (verify_run e admin id w o Hid Ho Hnv Hpp Hf) as (args & Hids & ->).
  fold SEVEN_DAYS_MS in expiresAt. simpl.
  assert (Ho' : find_order id
                  (with_adminLogs
                     (fun ls => (ls ++ [mkAdminLog (user_id admin) "verified_payment" "order" id
                        (VerifiedDetails (order_orderNumber o) (order_totalAmount o))
                        (req_ip e)])%list)
                     (with_orderItems (List.map (activate_row (now_again e + SEVEN_DAYS_MS) args))
                        (with_orders (List.map (patch_order id (set_verified (now e)))) w)))
                = Some (set_verified (now e) o)).
  { unfold find_order in *. simpl. rewrite find_order_patch by done. rewrite Ho. simpl.
    unfold patch_order. rewrite bool_decide_eq_true_2; [done|].
    by apply (find_order_id id w); unfold find_order. }
  assert (Hrow : forall it, it ∈ orderItems w -> item_orderId it = id ->
            item_expiresAt (activate_row expiresAt args it) = Some expiresAt).
  { intros it Hin Hoid. apply activate_row_expiry. left. rewrite Hids.
    apply list_elem_of_In, in_map. unfold items_of. apply filter_In.
    split; [by apply list_elem_of_In|by apply bool_decide_eq_true]. }
  split; [done|]. split.
  { exists (set_verified (now e) o). by rewrite Ho'. }
  split.
  { apply Forall2_map_self. intros it Hin.
    destruct (activate_row_frame expiresAt args it) as (H1 & H2 & H3 & H4).
    repeat split; try done. by apply Hrow. }
  intros e2 user itemId it' Hid2 Hff Hu Hit' Hoid Hlt Hnow.
  rewrite (requestDownload_run e2 user itemId _ it'); try done.
  - destruct (Z.leb_spec (item_downloadLimit it') (item_downloadCount it')); [lia|].
    assert (Hexp : item_expiresAt it' = Some expiresAt).
    { unfold find_item in Hit'. simpl in Hit'. apply find_some in Hit' as [Hin _].
      apply in_map_iff in Hin as (it & <- & Hin).
      destruct (activate_row_frame (now_again e + SEVEN_DAYS_MS) args it) as (_ & H2 & _).
      apply Hrow; [by apply list_elem_of_In|]. by rewrite <- H2. }
    unfold expired. rewrite Hexp.
    destruct (Z.ltb_spec expiresAt (now e2)); [done|lia].
  - exists (set_verified (now e) o). rewrite Hoid. by rewrite Ho'.
Qed.

(** The scenario of the specification: the admin verifies [o1]; both its
    items expire seven days later, and eight days later Alice's request for
    [i1] (0 of 5 used) is answered "Download link expired". *)
Lemma verify_then_expire_witness :
  let w' := snd (respond (verify (request_env t0 no_failure) root "o1") shop) in
  paymentStatus_of "o1" w' = Some VERIFIED /\
  item_expiresAt <$> find_item "i1" w' = Some (Some (t0 + 40 + 604800000)) /\
  item_expiresAt <$> find_item "i2" w' = Some (Some (t0 + 40 + 604800000)) /\
  respond (requestDownload (request_env (t0 + 8 * 86400000) no_failure) alice "i1") w'
  = (json 403 (ErrorBody "Download link expired"), w').
Proof.
  destruct (verify_activates_entitlements (request_env t0 no_failure) root "o1" shop order1)
    as (_ & _ & _ & Hlater).
  - reflexivity.
  - reflexivity.
  - discriminate.
  - unfold products_present. repeat constructor; by eexists.
  - intros d. reflexivity.
  - split; [by vm_compute|]. split; [by vm_compute|]. split; [by vm_compute|].
    eapply Hlater; reflexivity.
Defined.

(** ** Checkout *)

Lemma createOrder_run e user w :
  respond (createOrder e user) w
  = if fails e RedisGet then (create_failed, w)
    else match entry_value <$> redis w !! user_cart_key user with
         | None => (json 400 (ErrorBody "Cart is empty"), w)
         | Some productIds =>
             if (length productIds =? 0)%nat
             then (json 400 (ErrorBody "Cart is empty"), w)
             else if fails e ProductFindMany then (create_failed, w)
             else
               let found := List.filter (active_in productIds) (products w) in
               if (length found =? 0)%nat
               then (json 400 (ErrorBody "No valid products in cart"), w)
               else if fails e OrderCreate
                       || create_conflict e (generateOrderNumber e) (length found) w
               then (create_failed, w)
               else if fails e QrToDataURL then (create_failed, after_create e user found w)
               else if fails e RedisDel then (create_failed, after_create e user found w)
               else (created_response e user found,
                     with_redis (delete (user_cart_key user)) (after_create e user found w))
         end.
Proof.
  unfold respond, createOrder, try_catch, bind, redis_get, call.
  fold (user_cart_key user).
  destruct (fails e RedisGet); [done|].
  destruct (entry_value <$> redis w !! user_cart_key user) as [ids|]; [|done].
  destruct (length ids =? 0)%nat; [done|].
  unfold product_findMany, call. destruct (fails e ProductFindMany); [done|].
  cbv zeta.
  destruct (length (List.filter (active_in ids) (products w)) =? 0)%nat; [done|].
  unfold order_create, call. destruct (fails e OrderCreate); [done|].
  rewrite length_map. simpl orb.
  destruct (create_conflict e _ _ w); [done|].
  unfold generateUPIQRCode, call. destruct (fails e QrToDataURL); [done|].
  unfold redis_del, call. destruct (fails e RedisDel); done.
Qed.

Lemma fold_left_price ps a :
  fold_left (fun sum p => js_add sum (Number (product_price p))) ps a
  = fold_left (fun sum d => js_add sum (Number d)) (List.map product_price ps) a.
Proof. revert a. induction ps as [|p ps IH]; intros a; simpl; [done|]. by rewrite IH. Qed.

Lemma total_price_sum ps : total_price ps = sum_numbers (List.map product_price ps).
Proof. apply fold_left_price. Qed.

(** Adding a price to the initial [0] gives the price as a number. *)
Lemma js_add_zero_Number d : js_add zero (Number d) = Number d.
Proof.
  unfold Number. destruct (dec_units d) as [|m]; [done|].
  unfold SFdiv. destruct (SFdiv_core_binary _ _ _ _ _ _) as [[mz ez] lz].
  unfold binary_round_aux.
  destruct (shr_fexp prec emax mz ez lz) as [mrs e'].
  destruct (shr_fexp prec emax _ e' loc_Exact) as [mrs' e''].
  destruct (shr_m mrs') as [|q|q]; [done| |done].
  by destruct (e'' <=? emax - prec).
Qed.

Lemma Forall2_imap {A B C} (R : A -> C -> Prop) (g : A -> B) (f : nat -> B -> C) l :
  (forall i x, R x (f i (g x))) -> Forall2 R l (imap f (List.map g l)).
Proof.
  revert f. induction l as [|x l IH]; intros f H; simpl; constructor; [apply H|].
  apply IH. intros i y. apply H.
Qed.

Lemma created_items_snapshot e found :
  Forall2 (snapshot_of (newOrderId e)) found (created_items e found).
Proof. unfold created_items. apply Forall2_imap. intros i p. by repeat split. Qed.

Lemma created_items_prices e found :
  List.map item_productPrice (created_items e found) = List.map product_price found.
Proof.
  pose proof (created_items_snapshot e found) as H.
  induction H as [|p it ps its Hs _ IH]; simpl; [done|].
  destruct Hs as (_ & _ & _ & -> & _). by rewrite IH.
Qed.

(** C3. With a non-empty cart read from Redis and the catalog answering,
    createOrder keeps of the cart exactly the catalog rows that are active.
    When none is left it answers "No valid products in cart" and changes
    nothing. Otherwise, when the database accepts the new rows, it adds one
    item per product with [downloadLimit = 5], [downloadCount = 0] and the
    product's id, title and price, and one order whose [totalAmount] is the
    current prices of those products added up as binary64 numbers, from the
    left, starting at 0. That is the sum of the prices when they are whole
    numbers with a sum below [2 ^ 53]; for prices with a fractional part it
    need not be. *)
Theorem createOrder_snapshots_active_products e user w productIds :
  entry_value <$> redis w !! user_cart_key user = Some productIds ->
  productIds <> [] ->
  fails e RedisGet = false ->
  fails e ProductFindMany = false ->
  let found := List.filter (active_in productIds) (products w) in
  let r := fst (respond (createOrder e user) w) in
  let w' := snd (respond (createOrder e user) w) in
  (forall p, p ∈ found <->
             p ∈ products w /\ product_id p ∈ productIds /\ product_isActive p = true) /\
  (found = [] -> r = json 400 (ErrorBody "No valid products in cart") /\ w' = w) /\
  (found <> [] ->
   fails e OrderCreate = false ->
   create_conflict e (generateOrderNumber e) (length found) w = false ->
   exists o items,
     orders w' = (orders w ++ [o])%list /\
     orderItems w' = (orderItems w ++ items)%list /\
     order_userId o = user_id user /\
     order_paymentStatus o = PENDING /\
     order_totalAmount o = sum_numbers (List.map product_price found) /\
     order_totalAmount o = sum_numbers (List.map item_productPrice items) /\
     (forall ns,
        Forall2 whole_number (List.map product_price found) ns ->
        (sum_units ns < 2 ^ 53)%N ->
        order_totalAmount o = amount (sum_units ns)) /\
     Forall2 (snapshot_of (order_id o)) found items /\
     (fails e QrToDataURL = false -> fails e RedisDel = false ->
      exists payment, r = json 201 (OrderCreated o items payment))).
Proof.
  intros Hcart Hne Hf1 Hf2 found r w'. subst r w'.
  rewrite createOrder_run, Hf1, Hcart, Hf2. fold found.
  destruct productIds as [|x ids]; [done|]. simpl Nat.eqb. cbv iota zeta.
  split.
  { intros p. unfold found. rewrite !list_elem_of_In, filter_In. unfold active_in.
    rewrite andb_true_iff, bool_decide_eq_true, list_elem_of_In. tauto. }
  split.
  { intros ->. done. }
  intros Hfound Hf3 Hcc. rewrite Hf3, Hcc.
  assert (Hlen : (length found =? 0)%nat = false) by (by destruct found).
  rewrite Hlen. simpl orb. cbv iota.
  exists (created_order e user found), (created_items e found).
  destruct (fails e QrToDataURL), (fails e RedisDel); simpl;
    (split; [done|]); (split; [done|]); (split; [done|]); (split; [done|]);
    (split; [apply total_price_sum|]);
    (split; [rewrite created_items_prices; apply total_price_sum|]);
    (split; [intros ns Hw Hs; rewrite total_price_sum; by apply sum_numbers_exact|]);
    (split; [apply created_items_snapshot|]); try done.
  intros _ _. by eexists.
Qed.

(** The scenario of the specification: Alice's cart holds [A] (100, active)
    and [B] (50, deactivated before checkout); the order is made of [A] alone
    and its total is 100. At the stall her cart holds the stickers at 0.10 and
    0.20: the total of the order is 5404319552844596 / 2 ^ 54, which prints as
    0.30000000000000004, while 0.30 read as a number is
    5404319552844595 / 2 ^ 54. *)
Lemma checkout_witness :
  let r := fst (respond (createOrder (request_env t0 no_failure) alice) shop) in
  let w' := snd (respond (createOrder (request_env t0 no_failure) alice) shop) in
  let r2 := fst (respond (createOrder (request_env t0 no_failure) alice) stall) in
  (List.filter (active_in ["A"; "B"]) (products shop) = [productA] /\
   exists o items,
     orders w' = (orders shop ++ [o])%list /\
     orderItems w' = (orderItems shop ++ items)%list /\
     order_totalAmount o = amount 100 /\
     Forall2 (snapshot_of (order_id o)) [productA] items /\
     exists payment, r = json 201 (OrderCreated o items payment)) /\
  (List.filter (active_in ["D"; "E"]) (products stall) = [stickerD; stickerE] /\
   exists o items,
     order_totalAmount o = S754_finite false 5404319552844596 (-54) /\
     Number (mkDecimal 30 2) = S754_finite false 5404319552844595 (-54) /\
     Forall2 (snapshot_of (order_id o)) [stickerD; stickerE] items /\
     exists payment, r2 = json 201 (OrderCreated o items payment) /\
                     pay_amount payment = order_totalAmount o).
Proof.
  split.
  - split; [reflexivity|].
    destruct (createOrder_snapshots_active_products (request_env t0 no_failure) alice shop
                ["A"; "B"]) as (_ & _ & Hcreated); try reflexivity; try discriminate.
    destruct Hcreated as (o & items & Ho & Hitems & _ & _ & _ & _ & Htotal & Hsnap & Hr);
      try reflexivity; try discriminate.
    exists o, items. split; [done|]. split; [done|].
    split; [apply (Htotal [100%N]); [repeat constructor|reflexivity]|].
    split; [done|]. by apply Hr.
  - split; [reflexivity|].
    destruct (createOrder_snapshots_active_products (request_env t0 no_failure) alice stall
                ["D"; "E"]) as (_ & _ & Hcreated); try reflexivity; try discriminate.
    destruct Hcreated as (o & items & Ho & Hitems & _ & _ & Htotal & _ & _ & Hsnap & Hr);
      try reflexivity; try discriminate.
    exists o, items. split; [by rewrite Htotal|]. split; [reflexivity|].
    split; [done|].
    destruct Hr as [payment Hr]; [reflexivity|reflexivity|].
    exists payment. split; [done|].
    injection Hr as _ _ <-. by rewrite Htotal.
Defined.

Example checkout_scenario :
  let r := fst (respond (createOrder (request_env t0 no_failure) alice) shop) in
  exists o it payment,
    r = json 201 (OrderCreated o [it] payment) /\
    order_totalAmount o = amount 100 /\
    item_productId it = "A" /\ item_productPrice it = whole 100 /\
    item_downloadLimit it = 5 /\ item_downloadCount it = 0.
Proof. do 3 eexists. split; [by vm_compute|]. by repeat split. Qed.

(** C7. createOrder deletes the caller's cart key exactly when it answers
    201 "Order created": on that answer the key is gone and one order was
    added; on every other answer the Redis store is as it was. A failure of
    the order write, of the payment-request generation or of the delete
    itself never gives the 201. *)
Theorem createOrder_clears_cart_only_on_success e user w :
  let r := fst (respond (createOrder e user) w) in
  let w' := snd (respond (createOrder e user) w) in
  (status r = 201 ->
   redis w' = delete (user_cart_key user) (redis w) /\
   exists o, orders w' = (orders w ++ [o])%list) /\
  (status r <> 201 -> redis w' = redis w) /\
  (fails e OrderCreate = true \/ fails e QrToDataURL = true \/ fails e RedisDel = true ->
   status r <> 201).
Proof.
  intros r w'. subst r w'. rewrite createOrder_run.
  destruct (fails e RedisGet); [by intuition|].
  destruct (entry_value <$> redis w !! user_cart_key user) as [ids|]; [|by intuition].
  destruct (length ids =? 0)%nat; [by intuition|].
  destruct (fails e ProductFindMany); [by intuition|].
  cbv zeta.
  destruct (length (List.filter (active_in ids) (products w)) =? 0)%nat; [by intuition|].
  destruct (fails e OrderCreate); simpl; [by intuition|].
  destruct (create_conflict e _ _ w); [by intuition|].
  destruct (fails e QrToDataURL); simpl; [by intuition|].
  destruct (fails e RedisDel); simpl; [by intuition|].
  split; [|by intuition]. intros _. split; [done|]. by eexists.
Qed.

(** When the payment request cannot be generated the order row has already
    been written: the answer is the 500, the order stays, the cart stays. *)
Lemma createOrder_qr_failure_keeps_order_and_cart e user w productIds :
  entry_value <$> redis w !! user_cart_key user = Some productIds ->
  productIds <> [] ->
  List.filter (active_in productIds) (products w) <> [] ->
  fails e RedisGet = false ->
  fails e ProductFindMany = false ->
  fails e OrderCreate = false ->
  create_conflict e (generateOrderNumber e)
    (length (List.filter (active_in productIds) (products w))) w = false ->
  fails e QrToDataURL = true ->
  respond (createOrder e user) w
  = (create_failed, after_create e user (List.filter (active_in productIds) (products w)) w).
Proof.
  intros Hcart Hne Hfound Hf1 Hf2 Hf3 Hcc Hqr.
  rewrite createOrder_run, Hf1, Hcart, Hf2. cbv zeta. rewrite Hf3, Hcc, Hqr.
  destruct productIds as [|x ids]; [done|]. simpl Nat.eqb. cbv iota.
  destruct (List.filter _ (products w)); done.
Qed.

(** ** Cart *)

Lemma cart_add_run e req p P w :
  healthy e ->
  truthy p = true ->
  find_product p w = Some P ->
  product_isActive P = true ->
  respond (cart_add e req (Some p)) w
  = let ids := default [] (stored_cart req w) in
    if bool_decide (p ∈ ids)
    then (json 400 (ErrorBody "Product already in cart"), w)
    else (json 200 (CartCount "Added to cart" (length (ids ++ [p])%list)),
          with_redis (insert (getCartKey req) (mkCartEntry CART_EXPIRY (ids ++ [p])%list)) w).
Proof.
  intros He Hp HP Hact.
  unfold respond, cart_add, try_catch, bind, invalid_param. rewrite Hp. simpl.
  unfold product_findUnique, call. rewrite He, HP, Hact. simpl.
  unfold redis_get, call. rewrite He. fold (stored_cart req w).
  destruct (bool_decide _); [done|].
  unfold redis_setex, call. by rewrite He.
Qed.

Lemma cart_get_run e req w :
  healthy e ->
  respond (cart_get e req) w
  = (match stored_cart req w with
     | None => json 200 (CartContents [] zero)
     | Some ids =>
         if (length ids =? 0)%nat then json 200 (CartContents [] zero)
         else json 200 (CartContents (List.filter (active_in ids) (products w))
                          (parseFloat_toFixed2
                             (total_price (List.filter (active_in ids) (products w)))))
     end, w).
Proof.
  intros He. unfold respond, cart_get, try_catch, bind, redis_get, call.
  rewrite He. fold (stored_cart req w).
  destruct (stored_cart req w) as [ids|]; [|done].
  destruct (length ids =? 0)%nat; [done|].
  unfold product_findMany, call. by rewrite He.
Qed.

Lemma cart_remove_run e req q w :
  healthy e ->
  respond (cart_remove e req q) w
  = match stored_cart req w with
    | None => (json 404 (ErrorBody "Cart is empty"), w)
    | Some stored =>
        (json 200 (CartCount "Removed from cart" (length (without q stored))),
         if (length (without q stored) =? 0)%nat
         then with_redis (delete (getCartKey req)) w
         else with_redis (insert (getCartKey req)
                            (mkCartEntry CART_EXPIRY (without q stored))) w)
    end.
Proof.
  intros He. unfold respond, cart_remove, try_catch, bind, redis_get, call.
  rewrite He. fold (stored_cart req w).
  destruct (stored_cart req w) as [ids|]; [|done].
  fold (without q ids).
  destruct (length (without q ids) =? 0)%nat; unfold redis_del, redis_setex, call;
    by rewrite He.
Qed.

Lemma without_absent q ids : q ∉ ids -> without q ids = ids.
Proof.
  unfold without. induction ids as [|x ids IH]; simpl; [done|].
  intros H. apply not_elem_of_cons in H as [Hx H].
  rewrite bool_decide_eq_false_2 by congruence. simpl. by rewrite IH.
Qed.

Lemma stored_cart_insert req ttl ids w :
  stored_cart req (with_redis (insert (getCartKey req) (mkCartEntry ttl ids)) w) = Some ids.
Proof. unfold stored_cart. simpl. by rewrite lookup_insert_eq. Qed.

Lemma active_ids_NoDup ids (ps : list Product) :
  NoDup (List.map product_id ps) ->
  NoDup (List.map product_id (List.filter (active_in ids) ps)).
Proof.
  induction ps as [|p ps IH]; simpl; [done|]. intros H.
  apply NoDup_cons in H as [Hp H].
  destruct (active_in ids p); simpl; [|auto].
  apply NoDup_cons. split; [|auto].
  intros Hin. apply Hp. apply list_elem_of_In, in_map_iff in Hin as (x & Hx & Hin).
  apply filter_In in Hin as [Hin _]. apply list_elem_of_In, in_map_iff. eauto.
Qed.

Lemma active_ids_elem ids w x :
  x ∈ List.map product_id (List.filter (active_in ids) (products w)) <->
  x ∈ ids /\ exists P, P ∈ products w /\ product_id P = x /\ product_isActive P = true.
Proof.
  rewrite list_elem_of_In, in_map_iff. split.
  - intros (P & Hx & Hin). apply filter_In in Hin as [Hin Hact].
    unfold active_in in Hact. apply andb_true_iff in Hact as [Hid Hact].
    apply bool_decide_eq_true in Hid. subst x. split; [done|].
    exists P. by rewrite list_elem_of_In.
  - intros (Hx & P & Hin & Hid & Hact). exists P. split; [done|].
    apply filter_In. split; [by apply list_elem_of_In|].
    unfold active_in. rewrite Hact, andb_true_r. apply bool_decide_eq_true. by rewrite Hid.
Qed.

Lemma active_ids_two p1 p2 P1 P2 w :
  NoDup (List.map product_id (products w)) ->
  find_product p1 w = Some P1 -> product_isActive P1 = true ->
  find_product p2 w = Some P2 -> product_isActive P2 = true ->
  p1 <> p2 ->
  List.map product_id (List.filter (active_in [p1; p2]) (products w)) ≡ₚ [p1; p2].
Proof.
  intros Hnd H1 A1 H2 A2 Hne.
  apply find_product_elem in H1 as [I1 E1]. apply find_product_elem in H2 as [I2 E2].
  apply NoDup_Permutation.
  - by apply active_ids_NoDup.
  - apply NoDup_cons. split; [|apply NoDup_singleton].
    intros H. apply list_elem_of_singleton in H. done.
  - intros x. rewrite active_ids_elem. split.
    + by intros [Hx _].
    + intros Hx. split; [done|].
      apply elem_of_cons in Hx as [->|Hx]; [by exists P1|].
      apply list_elem_of_singleton in Hx as ->. by exists P2.
Qed.

Lemma active_ids_one p P w :
  NoDup (List.map product_id (products w)) ->
  find_product p w = Some P -> product_isActive P = true ->
  List.map product_id (List.filter (active_in [p]) (products w)) = [p].
Proof.
  intros Hnd H1 A1. apply find_product_elem in H1 as [I1 E1].
  apply Permutation_singleton_r. apply NoDup_Permutation.
  - by apply active_ids_NoDup.
  - apply NoDup_singleton.
  - intros x. rewrite active_ids_elem. split; [by intros [Hx _]|].
    intros Hx. split; [done|]. apply list_elem_of_singleton in Hx as ->. by exists P.
Qed.

Lemma calm_healthy i : healthy (calm i).
Proof. intros d. reflexivity. Qed.

(** C9, as the code has it. For one owner without a stored cart and two
    distinct active products [p1], [p2] of a catalog with unique ids, with
    the collaborators answering: after adding [p1] and [p2] the cart shows
    exactly those two products; after removing [p1] it shows exactly [p2];
    after removing [p2] no key is stored for the owner. Removing a product
    that is not in a stored, non-empty cart succeeds and leaves its contents
    as they were, while the entry is written again with the full TTL of 7
    days, whatever TTL it had; when no cart is stored for the owner, remove
    answers 404 "Cart is empty" and changes nothing. *)
Theorem cart_round_trip (es : nat -> Env) req p1 p2 P1 P2 w :
  (forall i, healthy (es i)) ->
  stored_cart req w = None ->
  NoDup (List.map product_id (products w)) ->
  find_product p1 w = Some P1 -> product_isActive P1 = true ->
  find_product p2 w = Some P2 -> product_isActive P2 = true ->
  p1 <> p2 -> truthy p1 = true -> truthy p2 = true ->
  let w1 := snd (respond (cart_add (es 0%nat) req (Some p1)) w) in
  let w2 := snd (respond (cart_add (es 1%nat) req (Some p2)) w1) in
  let got2 := respond (cart_get (es 2%nat) req) w2 in
  let w3 := snd (respond (cart_remove (es 3%nat) req p1) w2) in
  let got3 := respond (cart_get (es 4%nat) req) w3 in
  let w4 := snd (respond (cart_remove (es 5%nat) req p2) w3) in
  (exists items total,
     got2 = (json 200 (CartContents items total), w2) /\
     List.map product_id items ≡ₚ [p1; p2]) /\
  (exists items total,
     got3 = (json 200 (CartContents items total), w3) /\
     List.map product_id items = [p2]) /\
  redis w4 !! getCartKey req = None /\
  (forall e q w0 ttl ids,
     healthy e -> redis w0 !! getCartKey req = Some (mkCartEntry ttl ids) ->
     ids <> [] -> q ∉ ids ->
     fst (respond (cart_remove e req q) w0)
     = json 200 (CartCount "Removed from cart" (length ids)) /\
     redis (snd (respond (cart_remove e req q) w0)) !! getCartKey req
     = Some (mkCartEntry CART_EXPIRY ids)) /\
  (forall e q w0,
     healthy e -> stored_cart req w0 = None ->
     respond (cart_remove e req q) w0 = (json 404 (ErrorBody "Cart is empty"), w0)).
Proof.
  intros He Hempty Hnd H1 A1 H2 A2 Hne T1 T2 w1 w2 got2 w3 got3 w4.
  assert (Hw1 : w1 = with_redis (insert (getCartKey req) (mkCartEntry CART_EXPIRY [p1])) w).
  { subst w1. rewrite (cart_add_run _ req p1 P1 w) by done. by rewrite Hempty. }
  assert (Hs1 : stored_cart req w1 = Some [p1]) by (rewrite Hw1; apply stored_cart_insert).
  assert (Hw2 : w2 = with_redis (insert (getCartKey req) (mkCartEntry CART_EXPIRY [p1; p2])) w1).
  { subst w2. rewrite (cart_add_run _ req p2 P2 w1); try done; [|by rewrite Hw1].
    rewrite Hs1. simpl. rewrite bool_decide_eq_false_2; [done|].
    intros H. apply list_elem_of_singleton in H. done. }
  assert (Hs2 : stored_cart req w2 = Some [p1; p2]) by (rewrite Hw2; apply stored_cart_insert).
  assert (Hp2 : products w2 = products w) by (by rewrite Hw2, Hw1).
  assert (Hw3 : w3 = with_redis (insert (getCartKey req) (mkCartEntry CART_EXPIRY [p2])) w2).
  { subst w3. rewrite cart_remove_run by done. rewrite Hs2. unfold without. simpl.
    rewrite (bool_decide_eq_true_2 (p1 = p1)) by done.
    rewrite (bool_decide_eq_false_2 (p2 = p1)) by done. done. }
  assert (Hs3 : stored_cart req w3 = Some [p2]) by (rewrite Hw3; apply stored_cart_insert).
  assert (Hp3 : products w3 = products w) by (by rewrite Hw3).
  split; [|split; [|split; [|split]]].
  - subst got2. rewrite cart_get_run by done. rewrite Hs2. simpl Nat.eqb. cbv iota.
    do 2 eexists. split; [done|]. rewrite Hp2. by eapply active_ids_two.
  - subst got3. rewrite cart_get_run by done. rewrite Hs3. simpl Nat.eqb. cbv iota.
    do 2 eexists. split; [done|]. rewrite Hp3. by eapply active_ids_one.
  - subst w4. rewrite cart_remove_run by done. rewrite Hs3. unfold without. simpl.
    rewrite (bool_decide_eq_true_2 (p2 = p2)) by done. simpl.
    apply lookup_delete_eq.
  - intros e q w0 ttl ids Hh Hs Hids Hq. rewrite cart_remove_run by done.
    unfold stored_cart. rewrite Hs. simpl. rewrite without_absent by done.
    destruct ids as [|x ids]; [done|]. simpl. split; [done|].
    apply lookup_insert_eq.
  - intros e q w0 Hh Hs. rewrite cart_remove_run by done. by rewrite Hs.
Qed.

(** A visitor with session [session-1] adds [A] and [C], removes [A], then
    removes [C]. When the visitor's cart holds [A] with one hour left to live,
    removing [C], which is not in it, answers 200 with count 1 and leaves
    [A] stored with 604800 seconds to live. *)
Lemma cart_round_trip_witness :
  let w1 := snd (respond (cart_add (calm 0) visitor (Some "A")) shop) in
  let w2 := snd (respond (cart_add (calm 1) visitor (Some "C")) w1) in
  let w3 := snd (respond (cart_remove (calm 3) visitor "A") w2) in
  let w4 := snd (respond (cart_remove (calm 5) visitor "C") w3) in
  let w0 := with_redis (insert (getCartKey visitor) (mkCartEntry 3600 ["A"])) shop in
  (exists items total,
     respond (cart_get (calm 2) visitor) w2 = (json 200 (CartContents items total), w2) /\
     List.map product_id items ≡ₚ ["A"; "C"]) /\
  (exists items total,
     respond (cart_get (calm 4) visitor) w3 = (json 200 (CartContents items total), w3) /\
     List.map product_id items = ["C"]) /\
  redis w4 !! getCartKey visitor = None /\
  redis w0 !! getCartKey visitor = Some (mkCartEntry 3600 ["A"]) /\
  fst (respond (cart_remove (calm 6) visitor "C") w0)
  = json 200 (CartCount "Removed from cart" 1) /\
  redis (snd (respond (cart_remove (calm 6) visitor "C") w0)) !! getCartKey visitor
  = Some (mkCartEntry 604800 ["A"]).
Proof.
  intros w1 w2 w3 w4 w0.
  destruct (cart_round_trip calm visitor "A" "C" productA productC shop)
    as (H2 & H3 & H4 & H5 & _); try reflexivity; try discriminate.
  - apply calm_healthy.
  - apply (bool_decide_unpack _). by vm_compute.
  - split; [exact H2|]. split; [exact H3|]. split; [exact H4|].
    split; [reflexivity|].
    apply (H5 (calm 6) "C" w0 3600 ["A"]);
      [apply calm_healthy|reflexivity|discriminate|].
    intros Hin. apply list_elem_of_singleton in Hin. discriminate.
Defined.

(** The visitor adds [C] and removes it: the removal succeeds and deletes the
    key. Removing [C] once more, a product no longer in the cart, does not
    succeed: the answer is 404 "Cart is empty". *)
Lemma remove_twice_counterexample :
  let w1 := snd (respond (cart_add (calm 0) visitor (Some "C")) shop) in
  let w2 := snd (respond (cart_remove (calm 1) visitor "C") w1) in
  stored_cart visitor w1 = Some ["C"] /\
  fst (respond (cart_remove (calm 1) visitor "C") w1)
  = json 200 (CartCount "Removed from cart" 0) /\
  redis w2 !! getCartKey visitor = None /\
  fst (respond (cart_remove (calm 2) visitor "C") w2) = json 404 (ErrorBody "Cart is empty").
Proof. by vm_compute. Qed.

(** * Further properties *)

Lemma dash_not_slug_char : slug_char dash = false.
Proof. reflexivity. Qed.

Lemma runs_shape_dash_runs b s : runs_shape b (dash_runs b s) = true.
Proof.
  revert b. induction s as [|c s IH]; intros b; simpl; [done|].
  destruct (slug_char c) eqn:Hc; simpl.
  - by rewrite Hc.
  - destruct b; [apply IH|]. cbn [runs_shape]. rewrite dash_not_slug_char.
    rewrite bool_decide_eq_true_2 by done. simpl. apply IH.
Qed.

Lemma runs_shape_weaken b s : runs_shape b s = true -> runs_shape false s = true.
Proof.
  destruct s as [|c s]; simpl; [done|]. destruct (slug_char c); [done|].
  destruct b; simpl; [by rewrite andb_false_r|done].
Qed.

(** After a run shape, cutting the last dash leaves a slug in normal form,
    or nothing. *)
Lemma strip_trailing_shape b s :
  runs_shape b s = true ->
  strip_trailing_dash s = "" \/ slug_tail b (strip_trailing_dash s) = true.
Proof.
  revert b. induction s as [|c s IH]; intros b; [by left|].
  intros H. cbn [runs_shape] in H.
  destruct s as [|c' s'].
  - cbn [strip_trailing_dash]. case_bool_decide as Hd; [by left|]. right.
    cbn [slug_tail]. destruct (slug_char c) eqn:Hc; [done|]. by simpl in H.
  - change (strip_trailing_dash (String c (String c' s')))
      with (String c (strip_trailing_dash (String c' s'))).
    right. cbn [slug_tail].
    destruct (slug_char c) eqn:Hc.
    + destruct (IH false H) as [He|Ht]; [|done]. by rewrite He.
    + apply andb_true_iff in H as [H1 H2]. rewrite H1. cbn [andb].
      destruct (IH true H2) as [He|Ht]; [|done].
      exfalso. cbn [runs_shape] in H2.
      destruct s' as [|c'' s'']; [|done].
      cbn [strip_trailing_dash] in He.
      case_bool_decide as Hd; [|done]. subst c'.
      rewrite dash_not_slug_char in H2. by rewrite andb_false_r in H2.
Qed.

Lemma title_slug_shape title : well_formed_slug (title_slug title) = true.
Proof.
  unfold title_slug, trim_dashes.
  pose proof (runs_shape_dash_runs false (toLowerCase title)) as H.
  destruct (dash_runs false (toLowerCase title)) as [|c r] eqn:E; [done|].
  cbn [strip_leading_dash]. case_bool_decide as Hd.
  - subst c. cbn [runs_shape] in H. rewrite dash_not_slug_char in H.
    apply andb_true_iff in H as [_ H].
    destruct (strip_trailing_shape true r H) as [->|Ht]; [done|].
    unfold well_formed_slug. by destruct (strip_trailing_dash r).
  - assert (Hc : slug_char c = true).
    { cbn [runs_shape] in H. destruct (slug_char c) eqn:Hc; [done|].
      rewrite ?(bool_decide_eq_false_2 (c = dash)) in H by done. by simpl in H. }
    assert (H' : runs_shape true (String c r) = true).
    { cbn [runs_shape] in *. by rewrite Hc in *. }
    destruct (strip_trailing_shape true _ H') as [He|Ht].
    + by rewrite He.
    + unfold well_formed_slug. by destruct (strip_trailing_dash (String c r)).
Qed.

Lemma lower_slug_char c : slug_char c = true -> lower_ascii c = c.
Proof.
  unfold slug_char, lower_ascii. intros H.
  destruct ((65 <=? N_of_ascii c)%N && (N_of_ascii c <=? 90)%N) eqn:E; [|done].
  exfalso. apply andb_true_iff in E as [E1 E2].
  apply N.leb_le in E1, E2. apply orb_true_iff in H as [H|H];
    apply andb_true_iff in H as [H1 H2]; apply N.leb_le in H1, H2; lia.
Qed.

Lemma slug_tail_lower b s : slug_tail b s = true -> toLowerCase s = s.
Proof.
  revert b. induction s as [|c s IH]; intros b H; [done|].
  cbn [slug_tail] in H. cbn [toLowerCase].
  destruct (slug_char c) eqn:Hc.
  - by rewrite (lower_slug_char c Hc), (IH false H).
  - apply andb_true_iff in H as [H1 H2]. apply andb_true_iff in H1 as [H1 _].
    apply bool_decide_eq_true in H1. subst c. by rewrite (IH true H2).
Qed.

Lemma slug_tail_dash_runs b s : slug_tail b s = true -> dash_runs b s = s.
Proof.
  revert b. induction s as [|c s IH]; intros b H; [done|].
  cbn [slug_tail] in H. cbn [dash_runs].
  destruct (slug_char c) eqn:Hc.
  - by rewrite (IH false H).
  - apply andb_true_iff in H as [H1 H2]. apply andb_true_iff in H1 as [H1 Hb].
    apply bool_decide_eq_true in H1. subst c. destruct b; [done|]. by rewrite (IH true H2).
Qed.

Lemma slug_tail_strip_trailing b s : slug_tail b s = true -> strip_trailing_dash s = s.
Proof.
  revert b. induction s as [|c s IH]; intros b H; [done|].
  cbn [slug_tail] in H.
  destruct s as [|c' s'].
  - cbn [strip_trailing_dash]. case_bool_decide as Hd; [|done]. subst c.
    rewrite dash_not_slug_char in H. simpl in H. by rewrite andb_false_r in H.
  - change (strip_trailing_dash (String c (String c' s')))
      with (String c (strip_trailing_dash (String c' s'))).
    f_equal. destruct (slug_char c); [by apply (IH false)|].
    apply andb_true_iff in H as [_ H]. by apply (IH true).
Qed.

(** A slug in normal form is its own slug. *)
Lemma title_slug_fixed s : well_formed_slug s = true -> title_slug s = s.
Proof.
  destruct s as [|c s]; [done|]. unfold well_formed_slug. intros H.
  unfold title_slug, trim_dashes.
  rewrite (slug_tail_lower true _ H).
  assert (Hc : slug_char c = true).
  { cbn [slug_tail] in H. destruct (slug_char c); [done|]. simpl in H.
    by rewrite andb_false_r in H. }
  assert (Hr : dash_runs false (String c s) = String c s).
  { pose proof (slug_tail_dash_runs true _ H) as Hd. cbn [dash_runs] in *.
    by rewrite Hc in *. }
  rewrite Hr. cbn [strip_leading_dash].
  rewrite bool_decide_eq_false_2.
  - by apply (slug_tail_strip_trailing true).
  - intros ->. by rewrite dash_not_slug_char in Hc.
Qed.

Lemma any_slug_char_lower s : any_char slug_char (toLowerCase s) = any_char alnum s.
Proof. induction s as [|c s IH]; simpl; [done|]. by rewrite IH. Qed.

Lemma any_slug_char_dash_runs b s :
  any_char slug_char (dash_runs b s) = any_char slug_char s.
Proof.
  revert b. induction s as [|c s IH]; intros b; [done|].
  cbn [dash_runs any_char]. destruct (slug_char c) eqn:Hc.
  - cbn [any_char]. by rewrite Hc.
  - destruct b; cbn [any_char]; rewrite ?dash_not_slug_char; apply IH.
Qed.

Lemma any_slug_char_strip_leading s :
  any_char slug_char (strip_leading_dash s) = any_char slug_char s.
Proof.
  destruct s as [|c s]; [done|]. cbn [strip_leading_dash any_char].
  case_bool_decide as Hd; [|done]. subst c. by rewrite dash_not_slug_char.
Qed.

Lemma any_slug_char_strip_trailing s :
  any_char slug_char (strip_trailing_dash s) = any_char slug_char s.
Proof.
  induction s as [|c s IH]; [done|]. destruct s as [|c' s'].
  - cbn [strip_trailing_dash]. case_bool_decide as Hd; [|done]. subst c.
    cbn [any_char]. by rewrite dash_not_slug_char.
  - change (strip_trailing_dash (String c (String c' s')))
      with (String c (strip_trailing_dash (String c' s'))).
    cbn [any_char] in *. by rewrite IH.
Qed.

Lemma any_slug_char_title_slug t : any_char slug_char (title_slug t) = any_char alnum t.
Proof.
  unfold title_slug, trim_dashes.
  by rewrite any_slug_char_strip_trailing, any_slug_char_strip_leading,
    any_slug_char_dash_runs, any_slug_char_lower.
Qed.

Lemma dash_runs_no_slug_char b s :
  any_char slug_char s = false ->
  dash_runs b s = if b || bool_decide (s = "") then "" else "-".
Proof.
  revert b. induction s as [|c s IH]; intros b H.
  - by destruct b.
  - cbn [any_char] in H. apply orb_false_iff in H as [Hc Hs].
    cbn [dash_runs]. rewrite Hc. rewrite (bool_decide_eq_false_2 (String c s = "")) by done.
    rewrite orb_false_r. destruct b; rewrite (IH true Hs); done.
Qed.

(** X23. On ASCII text, a generated product slug is made of [a-z0-9] and
    single dashes between them, with no dash at either end; a generated
    category slug has the same characters and no two dashes in a row, but may
    keep a dash at its ends. *)
Theorem generated_slug_is_well_formed title :
  well_formed_slug (productSlug None title) = true /\
  runs_shape false (categorySlug None title) = true.
Proof.
  split; [apply title_slug_shape|]. apply runs_shape_dash_runs.
Qed.

(** X24. Generating a slug from a generated slug gives it back, and any
    slug in normal form is its own product and category slug. *)
Theorem generated_slug_is_stable title :
  productSlug None (productSlug None title) = productSlug None title /\
  (forall s, well_formed_slug s = true -> productSlug None s = s /\ categorySlug None s = s).
Proof.
  split.
  - apply title_slug_fixed, title_slug_shape.
  - intros s Hs. split; [by apply title_slug_fixed|].
    destruct s as [|c s]; [done|]. unfold well_formed_slug in Hs.
    simpl categorySlug. unfold name_slug. rewrite (slug_tail_lower true _ Hs).
    assert (Hc : slug_char c = true).
    { cbn [slug_tail] in Hs. destruct (slug_char c); [done|]. simpl in Hs.
      by rewrite andb_false_r in Hs. }
    pose proof (slug_tail_dash_runs true _ Hs) as Hd. cbn [dash_runs] in *.
    by rewrite Hc in *.
Qed.

Lemma title_slug_empty title : any_char alnum title = false -> title_slug title = "".
Proof.
  intros Hn. unfold title_slug, trim_dashes.
  rewrite dash_runs_no_slug_char by by rewrite any_slug_char_lower.
  simpl. by case_bool_decide.
Qed.

(** X25. For a title of ASCII characters, the generated product slug is
    empty exactly when the title has no letter and no digit. *)
Theorem generated_slug_empty_iff title :
  ascii_text title = true ->
  (productSlug None title = "" <-> any_char alnum title = false).
Proof.
  intros _. simpl productSlug. split.
  - intros He. rewrite <- any_slug_char_title_slug. by rewrite He.
  - apply title_slug_empty.
Qed.

Lemma slug_empty_witness :
  (productSlug None "?!" = "" <-> any_char alnum "?!" = false) /\
  (productSlug None "Go 101" = "" <-> any_char alnum "Go 101" = false) /\
  productSlug None "?!" = "" /\
  productSlug None "Go 101" = "go-101".
Proof.
  split; [apply (generated_slug_empty_iff "?!"); reflexivity|].
  split; [apply (generated_slug_empty_iff "Go 101"); reflexivity|].
  split; reflexivity.
Defined.

(** X26. A non-empty name of ASCII characters without letters and digits
    gets the category slug [-] and, as a product title, the empty slug. *)
Theorem punctuation_only_names title :
  ascii_text title = true ->
  any_char alnum title = false ->
  title <> "" ->
  categorySlug None title = "-" /\ productSlug None title = "".
Proof.
  intros _ Hn Hne. split.
  - simpl. unfold name_slug.
    rewrite dash_runs_no_slug_char by by rewrite any_slug_char_lower.
    simpl. rewrite bool_decide_eq_false_2; [done|]. by destruct title.
  - by apply title_slug_empty.
Qed.

Lemma punctuation_only_witness :
  categorySlug None "& / &" = "-" /\ productSlug None "& / &" = "".
Proof.
  apply (punctuation_only_names "& / &"); [reflexivity|reflexivity|discriminate].
Defined.

(** A cart request only ever writes the Redis key of its owner. *)
Lemma cart_handler_frame e req op w :
  same_tables w (snd (respond (cart_handler e req op) w)) /\
  forall key, key <> getCartKey req ->
    redis (snd (respond (cart_handler e req op) w)) !! key = redis w !! key.
Proof.
  destruct op as [|p|p|]; simpl.
  - unfold cart_get, redis_get, product_findMany. unfold_monad.
    repeat (case_match; simplify_eq; simpl in *; auto); by repeat split.
  - unfold cart_add, product_findUnique, redis_get, redis_setex. unfold_monad.
    repeat (case_match; simplify_eq; simpl in *; auto); try by repeat split.
    all: split; [by repeat split|]; intros key Hk; simpl; by rewrite lookup_insert_ne.
  - unfold cart_remove, redis_get, redis_setex, redis_del. unfold_monad.
    repeat (case_match; simplify_eq; simpl in *; auto); try by repeat split.
    all: split; [by repeat split|]; intros key Hk; simpl;
      by rewrite ?lookup_insert_ne, ?lookup_delete_ne.
  - unfold cart_clear, redis_del. unfold_monad.
    repeat (case_match; simplify_eq; simpl in *; auto); try by repeat split.
    all: split; [by repeat split|]; intros key Hk; simpl; by rewrite lookup_delete_ne.
Qed.

Lemma user_key_not_session_key a b : "cart:user:" +:+ a <> "cart:session:" +:+ b.
Proof. simpl. discriminate. Qed.

Lemma user_key_injective a b : "cart:user:" +:+ a = "cart:user:" +:+ b -> a = b.
Proof. intros H. cbn in H. by simplify_eq. Qed.

Lemma session_key_injective a b : "cart:session:" +:+ a = "cart:session:" +:+ b -> a = b.
Proof. intros H. cbn in H. by simplify_eq. Qed.

Lemma cart_invariant_insert key ids w :
  NoDup ids -> ids <> [] -> cart_invariant w ->
  cart_invariant (with_redis (insert key (mkCartEntry CART_EXPIRY ids)) w).
Proof.
  intros Hnd Hne Hinv k entry. simpl. rewrite lookup_insert.
  case_decide; [|apply Hinv]. intros [= <-]. done.
Qed.

Lemma cart_invariant_delete key w :
  cart_invariant w -> cart_invariant (with_redis (delete key) w).
Proof.
  intros Hinv k entry. simpl. rewrite lookup_delete.
  case_decide; [done|apply Hinv].
Qed.

Lemma stored_NoDup key w ids :
  cart_invariant w -> entry_value <$> redis w !! key = Some ids -> NoDup ids.
Proof.
  intros Hinv H. destruct (redis w !! key) as [entry|] eqn:E; [|done].
  injection H as <-. by apply (Hinv key entry).
Qed.

Lemma NoDup_filter_bool {A} (P : A -> bool) (l : list A) : NoDup l -> NoDup (List.filter P l).
Proof.
  induction l as [|x l IH]; simpl; [done|]. intros H. apply NoDup_cons in H as [Hx H].
  destruct (P x); [|auto]. apply NoDup_cons. split; [|auto].
  intros Hin. apply Hx. apply list_elem_of_In, filter_In in Hin as [Hin _].
  by apply list_elem_of_In.
Qed.

Lemma cart_handler_invariant e req op w :
  cart_invariant w -> cart_invariant (snd (respond (cart_handler e req op) w)).
Proof.
  intros Hinv. destruct op as [|p|p|]; simpl.
  - unfold cart_get, redis_get, product_findMany. unfold_monad.
    repeat (case_match; simplify_eq; simpl in *; auto).
  - unfold cart_add, product_findUnique, redis_get, redis_setex. unfold_monad.
    repeat (case_match; simplify_eq; simpl in *; auto).
    all: apply cart_invariant_insert; [|by destruct (default [] _)|done].
    all: match goal with H : bool_decide (_ ∈ _) = false |- _ =>
           apply bool_decide_eq_false in H end.
    all: apply NoDup_app; split; [|split; [|apply NoDup_singleton]].
    all: try (intros x Hx Hx'; apply list_elem_of_singleton in Hx'; by subst).
    all: match goal with |- NoDup (default [] ?o) =>
           destruct o as [ids|] eqn:Eo; [|apply NoDup_nil_2] end.
    all: by eapply stored_NoDup.
  - unfold cart_remove, redis_get, redis_setex, redis_del. unfold_monad.
    repeat (case_match; simplify_eq; simpl in *; auto).
    + by apply cart_invariant_delete.
    + apply cart_invariant_insert; [| |done].
      * apply NoDup_filter_bool. by eapply stored_NoDup.
      * intros Hnil. match goal with H : (_ =? 0)%nat = false |- _ =>
          rewrite Hnil in H; done end.
  - unfold cart_clear, redis_del. unfold_monad.
    repeat (case_match; simplify_eq; simpl in *; auto).
    by apply cart_invariant_delete.
Qed.

(** X17. A cart request writes no database table and no cart but its
    owner's: the cart of any request with another key is as it was, an
    anonymous request never changes the cart of a user, and a user's request
    never changes the cart of another user. *)
Theorem cart_owner_isolation e req op w :
  let w' := snd (respond (cart_handler e req op) w) in
  same_tables w w' /\
  (forall req', getCartKey req' <> getCartKey req -> stored_cart req' w' = stored_cart req' w) /\
  (cart_user req = None ->
   forall u, redis w' !! user_cart_key u = redis w !! user_cart_key u) /\
  (forall u u', cart_user req = Some u -> user_id u' <> user_id u ->
                redis w' !! user_cart_key u' = redis w !! user_cart_key u').
Proof.
  intros w'. subst w'. destruct (cart_handler_frame e req op w) as [Ht Hk].
  split; [done|]. split; [|split].
  - intros req' Hne. unfold stored_cart. by rewrite Hk.
  - intros Hanon u. apply Hk. unfold getCartKey, user_cart_key. rewrite Hanon.
    apply user_key_not_session_key.
  - intros u u' Hu Hne. apply Hk. unfold getCartKey, user_cart_key. rewrite Hu.
    intros H. by apply user_key_injective in H.
Qed.

Lemma shop_cart_invariant : cart_invariant shop.
Proof.
  intros key entry H. simpl in H. apply lookup_singleton_Some in H as [_ <-]. simpl.
  split; [|done]. apply (bool_decide_unpack _). by vm_compute.
Qed.

Lemma unidentified_key req : unidentified req -> getCartKey req = "cart:session:anonymous".
Proof.
  intros [Hu Hs]. unfold getCartKey. rewrite Hu.
  destruct (js_or _ _) as [s|]; [|done]. unfold or_default in *.
  destruct (truthy s) eqn:Ht; [|done]. by subst s.
Qed.

(** X18. Requests without user and without a non-empty session id all use
    the key [cart:session:anonymous]: what one of them adds is stored in the
    cart of every other. *)
Theorem anonymous_bucket_shared r1 r2 :
  unidentified r1 -> unidentified r2 ->
  getCartKey r1 = getCartKey r2 /\
  (forall e p P w,
     healthy e -> truthy p = true ->
     find_product p w = Some P -> product_isActive P = true ->
     stored_cart r1 w = None ->
     stored_cart r2 (snd (respond (cart_add e r1 (Some p)) w)) = Some [p]).
Proof.
  intros H1 H2. pose proof (unidentified_key r1 H1) as K1.
  pose proof (unidentified_key r2 H2) as K2.
  split; [congruence|].
  intros e p P w He Hp HP Hact Hs.
  rewrite (cart_add_run e r1 p P w) by done. rewrite Hs. simpl.
  unfold stored_cart. simpl. rewrite K2, <- K1. by rewrite lookup_insert_eq.
Qed.

Lemma anonymous_bucket_witness :
  getCartKey (mkCartRequest None None None) = getCartKey (mkCartRequest None (Some "") None) /\
  stored_cart (mkCartRequest None (Some "") None)
    (snd (respond (cart_add (calm 0) (mkCartRequest None None None) (Some "C")) shop))
  = Some ["C"].
Proof.
  destruct (anonymous_bucket_shared (mkCartRequest None None None)
              (mkCartRequest None (Some "") None)) as [Hk Hadd].
  - by split.
  - by split.
  - split; [exact Hk|].
    apply (Hadd (calm 0) "C" productC shop); try reflexivity. apply calm_healthy.
Defined.

(** X19. Adding a product that is not in the catalog or is deactivated
    answers 404 "Product not found"; adding a product already in the cart
    answers 400 "Product already in cart"; neither changes anything. *)
Theorem cart_add_refusals e req p w :
  truthy p = true ->
  fails e ProductFindUnique = false ->
  fails e RedisGet = false ->
  let r := fst (respond (cart_add e req (Some p)) w) in
  let w' := snd (respond (cart_add e req (Some p)) w) in
  (match find_product p w with
   | Some P => product_isActive P = false
   | None => True
   end -> r = json 404 (ErrorBody "Product not found") /\ w' = w) /\
  (forall P ids, find_product p w = Some P -> product_isActive P = true ->
     stored_cart req w = Some ids -> p ∈ ids ->
     r = json 400 (ErrorBody "Product already in cart") /\ w' = w).
Proof.
  intros Hp Hf1 Hf2 r w'. subst r w'.
  unfold respond, cart_add, try_catch, bind, invalid_param. rewrite Hp. simpl.
  unfold product_findUnique, call. rewrite Hf1.
  destruct (find_product p w) as [P|] eqn:HP.
  - split.
    + intros Hact. by rewrite Hact.
    + intros P' ids [= <-] Hact Hs Hin. rewrite Hact. simpl.
      unfold redis_get, call. rewrite Hf2. fold (stored_cart req w). rewrite Hs. simpl.
      by rewrite bool_decide_eq_true_2.
  - split; [done|]. by intros P' ids [=].
Qed.

Lemma cart_add_refusals_witness :
  (fst (respond (cart_add (calm 0) (mkCartRequest (Some alice) None None) (Some "B")) shop)
   = json 404 (ErrorBody "Product not found") /\
   snd (respond (cart_add (calm 0) (mkCartRequest (Some alice) None None) (Some "B")) shop)
   = shop) /\
  (fst (respond (cart_add (calm 0) (mkCartRequest (Some alice) None None) (Some "A")) shop)
   = json 400 (ErrorBody "Product already in cart") /\
   snd (respond (cart_add (calm 0) (mkCartRequest (Some alice) None None) (Some "A")) shop)
   = shop).
Proof.
  destruct (cart_add_refusals (calm 0) (mkCartRequest (Some alice) None None) "B" shop)
    as [Hgone _]; try reflexivity.
  destruct (cart_add_refusals (calm 0) (mkCartRequest (Some alice) None None) "A" shop)
    as [_ Hdup]; try reflexivity.
  split.
  - apply Hgone. reflexivity.
  - apply (Hdup productA ["A"; "B"]); try reflexivity. by left.
Defined.

Lemma without_spec q ids x : x ∈ without q ids <-> x ∈ ids /\ x <> q.
Proof.
  unfold without. rewrite !list_elem_of_In, filter_In, negb_true_iff.
  split; intros [H1 H2]; (split; [done|]).
  - by apply bool_decide_eq_false in H2.
  - by apply bool_decide_eq_false.
Qed.

(** X20. Removing [q] from a stored cart succeeds with the number of
    products left: [q] is gone, every other product stays, and the key is
    deleted when nothing is left. *)
Theorem cart_remove_effect e req q ids w :
  healthy e ->
  stored_cart req w = Some ids ->
  let r := fst (respond (cart_remove e req q) w) in
  let w' := snd (respond (cart_remove e req q) w) in
  r = json 200 (CartCount "Removed from cart" (length (without q ids))) /\
  stored_cart req w' = (if bool_decide (without q ids = []) then None else Some (without q ids)) /\
  (forall x, x ∈ without q ids <-> x ∈ ids /\ x <> q) /\
  (without q ids = [] -> redis w' !! getCartKey req = None).
Proof.
  intros He Hs r w'. subst r w'. rewrite cart_remove_run by done. rewrite Hs.
  split; [done|]. split; [|split; [apply without_spec|]].
  - destruct (without q ids) as [|x l] eqn:E; simpl.
    + unfold stored_cart. simpl. by rewrite lookup_delete_eq.
    + apply stored_cart_insert.
  - intros ->. simpl. apply lookup_delete_eq.
Qed.

Lemma cart_remove_effect_witness :
  let w' := snd (respond (cart_remove (calm 0) (mkCartRequest (Some alice) None None) "A") shop) in
  fst (respond (cart_remove (calm 0) (mkCartRequest (Some alice) None None) "A") shop)
  = json 200 (CartCount "Removed from cart" 1) /\
  stored_cart (mkCartRequest (Some alice) None None) w' = Some ["B"].
Proof.
  destruct (cart_remove_effect (calm 0) (mkCartRequest (Some alice) None None) "A" ["A"; "B"]
              shop) as (Hr & Hs & _); try reflexivity.
  - apply calm_healthy.
  - split; [exact Hr|exact Hs].
Defined.

Lemma cart_clear_run e req w :
  fails e RedisDel = false ->
  respond (cart_clear e req) w
  = (json 200 (MessageOnly "Cart cleared"), with_redis (delete (getCartKey req)) w).
Proof.
  intros Hf. unfold respond, cart_clear, try_catch, bind, redis_del, call. by rewrite Hf.
Qed.

(** X21. Clearing a cart succeeds whether or not one is stored; afterwards
    no key is stored, the cart reads empty with total 0, remove answers 404
    "Cart is empty", and clearing again changes nothing. *)
Theorem cart_clear_empties e e2 req w :
  fails e RedisDel = false ->
  healthy e2 ->
  let w' := snd (respond (cart_clear e req) w) in
  fst (respond (cart_clear e req) w) = json 200 (MessageOnly "Cart cleared") /\
  redis w' !! getCartKey req = None /\
  respond (cart_get e2 req) w' = (json 200 (CartContents [] zero), w') /\
  (forall q, respond (cart_remove e2 req q) w' = (json 404 (ErrorBody "Cart is empty"), w')) /\
  respond (cart_clear e2 req) w' = (json 200 (MessageOnly "Cart cleared"), w').
Proof.
  intros Hf He w'. subst w'. rewrite cart_clear_run by done. simpl.
  assert (Hs : stored_cart req (with_redis (delete (getCartKey req)) w) = None).
  { unfold stored_cart. simpl. by rewrite lookup_delete_eq. }
  split; [done|]. split; [apply lookup_delete_eq|]. split; [|split].
  - rewrite cart_get_run by done. by rewrite Hs.
  - intros q. rewrite cart_remove_run by done. by rewrite Hs.
  - rewrite cart_clear_run by apply He. f_equal.
    destruct w. unfold with_redis. simpl. f_equal. apply delete_delete_eq.
Qed.

Lemma cart_clear_witness :
  let w' := snd (respond (cart_clear (calm 0) (mkCartRequest (Some alice) None None)) shop) in
  redis w' !! "cart:user:alice" = None /\
  respond (cart_get (calm 1) (mkCartRequest (Some alice) None None)) w'
  = (json 200 (CartContents [] zero), w').
Proof.
  destruct (cart_clear_empties (calm 0) (calm 1) (mkCartRequest (Some alice) None None) shop)
    as (_ & Hkey & Hget & _).
  - reflexivity.
  - apply calm_healthy.
  - split; [exact Hkey|exact Hget].
Defined.

(** X22. Reading the cart never writes, not even to drop stale ids. For a
    non-empty stored cart it shows exactly the catalog rows that are in the
    cart and active; the total is their current prices added up as binary64
    numbers, from the left, and then rounded to two decimals. For prices
    that are whole numbers with a sum below [2 ^ 53], the total is their
    sum. *)
Theorem cart_get_shows_active_products e req w :
  snd (respond (cart_get e req) w) = w /\
  (healthy e ->
   forall ids, stored_cart req w = Some ids -> ids <> [] ->
   exists items total,
     fst (respond (cart_get e req) w) = json 200 (CartContents items total) /\
     total = parseFloat_toFixed2 (sum_numbers (List.map product_price items)) /\
     (forall ns,
        Forall2 whole_number (List.map product_price items) ns ->
        (sum_units ns < 2 ^ 53)%N ->
        total = amount (sum_units ns)) /\
     (forall P, P ∈ items <->
                P ∈ products w /\ product_id P ∈ ids /\ product_isActive P = true)).
Proof.
  split.
  - unfold cart_get, redis_get, product_findMany. unfold_monad.
    repeat (case_match; simplify_eq; simpl in *; auto).
  - intros He ids Hs Hne. rewrite cart_get_run by done. rewrite Hs.
    destruct ids as [|x ids]; [done|]. simpl Nat.eqb. cbv iota.
    do 2 eexists. split; [simpl; by rewrite total_price_sum|]. split; [done|]. split.
    { intros ns Hw Hsum. rewrite (sum_numbers_exact _ ns) by done.
      by apply parseFloat_toFixed2_amount. }
    intros P. rewrite !list_elem_of_In, filter_In. unfold active_in.
    rewrite andb_true_iff, bool_decide_eq_true, list_elem_of_In. tauto.
Qed.

(** Alice's cart in the shop shows [A] with total 100. Her cart at the stall,
    with the stickers at 0.10 and 0.20, shows the total 0.30 read as a
    number: the rounding to two decimals takes the excess of the binary sum
    away. *)
Lemma cart_total_witness :
  let req := mkCartRequest (Some alice) None None in
  fst (respond (cart_get (calm 0) req) shop)
  = json 200 (CartContents [productA] (amount 100)) /\
  fst (respond (cart_get (calm 0) req) stall)
  = json 200 (CartContents [stickerD; stickerE] (Number (mkDecimal 30 2))) /\
  sum_numbers [mkDecimal 10 2; mkDecimal 20 2] = S754_finite false 5404319552844596 (-54) /\
  Number (mkDecimal 30 2) = S754_finite false 5404319552844595 (-54).
Proof.
  intros req.
  destruct (cart_get_shows_active_products (calm 0) req shop) as [_ Hshop].
  destruct (Hshop (calm_healthy 0) ["A"; "B"]) as (items & total & Hr & Ht & _);
    [reflexivity|discriminate|].
  split; [|by repeat split].
  rewrite Hr. injection Hr as <- <-. rewrite Ht. reflexivity.
Defined.

(** X1. The verify and reject routes are closed to every caller whose role
    is not ADMIN: the answer is 403 "Admin access required" and nothing is
    read or written. *)
Theorem admin_routes_refuse_other_roles e caller w :
  user_role caller <> "ADMIN" ->
  (forall id, respond (handler e (Verify caller id)) w = (admin_refusal, w)) /\
  (forall id reason, respond (handler e (Reject caller id reason)) w = (admin_refusal, w)).
Proof.
  intros Hrole. split; intros; simpl; unfold requireAdmin;
    by rewrite bool_decide_eq_false_2.
Qed.

Lemma admin_refusal_witness :
  respond (handler (calm 0) (Verify alice "o1")) shop = (admin_refusal, shop) /\
  respond (handler (calm 0) (Reject alice "o3" None)) shop = (admin_refusal, shop).
Proof.
  destruct (admin_routes_refuse_other_roles (calm 0) alice shop) as [Hv Hr].
  - discriminate.
  - split; [apply Hv|apply Hr].
Defined.

(** X2. When the lookup goes through, verify answers 404 "Order not found"
    for an unknown id and 400 "Order already verified" for an order that is
    VERIFIED; in both cases the world is as it was, so a second verification
    neither moves the expiry of the items nor writes an admin log. *)
Theorem verify_refusals e admin id w :
  truthy id = true ->
  fails e OrderFindUnique = false ->
  (find_order id w = None ->
   respond (verify e admin id) w = (json 404 (ErrorBody "Order not found"), w)) /\
  (forall o, find_order id w = Some o -> order_paymentStatus o = VERIFIED ->
   respond (verify e admin id) w = (json 400 (ErrorBody "Order already verified"), w)).
Proof.
  intros Hid Hf.
  split.
  - intros Ho. unfold respond, verify, try_catch, bind, invalid_param, getQueryString.
    rewrite Hid. simpl. unfold order_findUnique, call. by rewrite Hf, Ho.
  - intros o Ho Hv. unfold respond, verify, try_catch, bind, invalid_param, getQueryString.
    rewrite Hid. simpl. unfold order_findUnique, call. rewrite Hf, Ho. simpl.
    by rewrite bool_decide_eq_true_2.
Qed.

Lemma verify_refusals_witness :
  respond (verify (calm 0) root "o7") shop = (json 404 (ErrorBody "Order not found"), shop) /\
  respond (verify (calm 0) root "o3") shop
  = (json 400 (ErrorBody "Order already verified"), shop).
Proof.
  destruct (verify_refusals (calm 0) root "o7" shop) as [Hmissing _]; try reflexivity.
  destruct (verify_refusals (calm 0) root "o3" shop) as [_ Hdone]; try reflexivity.
  split; [by apply Hmissing|].
  eapply Hdone; reflexivity.
Defined.

(** X4. Rejecting an unknown order answers 500 "Failed to reject payment"
    (not a 404) and writes nothing, whichever calls would fail. *)
Theorem reject_missing_order e admin id reason w :
  truthy id = true ->
  find_order id w = None ->
  respond (reject e admin id reason) w = (json 500 (ErrorBody "Failed to reject payment"), w).
Proof.
  intros Hid Ho. unfold respond, reject, try_catch, bind, invalid_param, getQueryString.
  rewrite Hid. simpl. unfold order_update, call.
  destruct (fails e OrderUpdate); simpl; [done|]. by rewrite Ho.
Qed.

Lemma reject_missing_witness :
  respond (reject (calm 0) root "o7" (Some "no such transfer")) shop
  = (json 500 (ErrorBody "Failed to reject payment"), shop).
Proof. apply (reject_missing_order (calm 0) root "o7" (Some "no such transfer") shop); reflexivity. Defined.



Lemma requestDownload_not_found e user id w :
  truthy id = true ->
  fails e OrderItemFindFirst = false ->
  List.find (downloadable id (user_id user) w) (orderItems w) = None ->
  respond (requestDownload e user id) w = (not_available, w).
Proof.
  intros Hid Hf Hnone.
  unfold respond, requestDownload, try_catch, bind, invalid_param, getQueryString.
  rewrite Hid. simpl. unfold orderItem_findFirst, call. by rewrite Hf, Hnone.
Qed.

Lemma find_none_iff {A} (P : A -> bool) (l : list A) :
  (forall x, x ∈ l -> P x = false) -> List.find P l = None.
Proof.
  induction l as [|x l IH]; intros H; simpl; [done|].
  rewrite (H x) by by left. apply IH. intros y Hy. apply H. by right.
Qed.

Lemma download_refused_aux e user id w :
  truthy id = true ->
  fails e OrderItemFindFirst = false ->
  (forall it, it ∈ orderItems w -> item_id it = id -> ~ owned_and_verified user it w) ->
  respond (requestDownload e user id) w = (not_available, w).
Proof.
  intros Hid Hf Hno. apply requestDownload_not_found; try done.
  apply find_none_iff. intros it Hin. unfold downloadable.
  case_bool_decide as Hi; [|done]. simpl.
  destruct (find_order (item_orderId it) w) as [o|] eqn:Ho; [|done].
  apply not_true_is_false. intros Hb. apply andb_true_iff in Hb as [Hu Hv].
  apply bool_decide_eq_true in Hu, Hv. apply (Hno it Hin Hi). by exists o.
Qed.


(** X7. When no item of the requested id belongs to a VERIFIED order of the
    caller, requestDownload answers 404 "Download not available" and changes
    nothing. *)
Theorem download_refused_to_others e user id w :
  truthy id = true ->
  fails e OrderItemFindFirst = false ->
  (forall it, it ∈ orderItems w -> item_id it = id -> ~ owned_and_verified user it w) ->
  fst (respond (requestDownload e user id) w) = not_available /\
  snd (respond (requestDownload e user id) w) = w.
Proof. intros Hid Hf Hno. by rewrite download_refused_aux. Qed.

Lemma download_refused_witness :
  fst (respond (requestDownload (calm 0) mallory "i3") shop) = not_available /\
  fst (respond (requestDownload (calm 0) alice "i1") shop) = not_available.
Proof.
  split.
  - apply (download_refused_to_others (calm 0) mallory "i3" shop); try reflexivity.
    intros it Hin Hid (o & Ho & Hu & _).
    repeat (apply elem_of_cons in Hin as [->|Hin]; [try discriminate|]);
      [|by apply elem_of_nil in Hin].
    vm_compute in Ho. injection Ho as <-. discriminate.
  - apply (download_refused_to_others (calm 0) alice "i1" shop); try reflexivity.
    intros it Hin Hid (o & Ho & _ & Hv).
    repeat (apply elem_of_cons in Hin as [->|Hin]; [try discriminate|]);
      [|by apply elem_of_nil in Hin].
    vm_compute in Ho. injection Ho as <-. discriminate.
Defined.

(** X8. The limit is checked before the expiry and before any collaborator
    is used: an exhausted item of the caller's VERIFIED order answers
    "Download limit reached", also when it has expired, and nothing changes. *)
Theorem limit_reported_before_expiry e user id w it :
  truthy id = true ->
  fails e OrderItemFindFirst = false ->
  find_item id w = Some it ->
  owned_and_verified user it w ->
  item_downloadCount it >= item_downloadLimit it ->
  respond (requestDownload e user id) w = (limit_reached, w).
Proof.
  intros Hid Hf Hit Hov Hge. rewrite (requestDownload_run e user id w it) by done.
  destruct (Z.leb_spec (item_downloadLimit it) (item_downloadCount it)); [done|lia].
Qed.

Lemma limit_before_expiry_witness :
  respond (requestDownload (request_env (t0 + 10 * 86400000) no_failure) alice "i4") shop
  = (limit_reached, shop).
Proof.
  apply (limit_reported_before_expiry (request_env (t0 + 10 * 86400000) no_failure) alice "i4"
           shop (mkOrderItem "i4" "o3" "C" "Course C" (whole 75) 5 5 None (Some 1793604800000)));
    try reflexivity.
  - eexists. split; [by vm_compute|]. by split.
  - simpl. lia.
Defined.

Lemma find_product_bump pid id w :
  find_product pid (with_products (List.map (bump_product id)) w)
  = bump_product id <$> find_product pid w.
Proof.
  unfold find_product. simpl. induction (products w) as [|p l IH]; simpl; [done|].
  assert (Hid : product_id (bump_product id p) = product_id p).
  { unfold bump_product. by case_bool_decide. }
  rewrite Hid. case_bool_decide; simpl; auto.
Qed.

(** The world after a granted download whose three writes went through. *)
Lemma after_download_healthy e user id it w :
  healthy e ->
  after_download e user id it w
  = with_products (List.map (bump_product (item_productId it)))
      (with_downloadLogs
         (fun ls => (ls ++ [mkDownloadLog (user_id user) id (item_productId it)
                              (req_ip e) (req_userAgent e)])%list)
         (with_orderItems (List.map (patch_item id bump_item)) w)).
Proof. intros He. unfold after_download. by rewrite !He. Qed.

Lemma requestDownload_healthy e user id w it p :
  truthy id = true ->
  healthy e ->
  find_item id w = Some it ->
  owned_and_verified user it w ->
  not_expired e it ->
  find_product (item_productId it) w = Some p ->
  respond (requestDownload e user id) w
  = if item_downloadLimit it <=? item_downloadCount it
    then (limit_reached, w)
    else (json 200 (DownloadGranted (cloudinary_url e (product_fileUrl p) 3600)
                      (item_downloadLimit it - item_downloadCount it - 1)
                      (item_productTitle it)),
          after_download e user id it w).
Proof.
  intros Hid He Hit Hov Hne Hp. rewrite (requestDownload_run e user id w it) by done.
  rewrite (not_expired_expired e it Hne), Hp, !He. done.
Qed.

Lemma after_download_keeps_gate e user id it w p :
  find_item id w = Some it ->
  owned_and_verified user it w ->
  find_product (item_productId it) w = Some p ->
  healthy e ->
  find_item id (after_download e user id it w) = Some (bump_item it) /\
  owned_and_verified user (bump_item it) (after_download e user id it w) /\
  find_product (item_productId (bump_item it)) (after_download e user id it w)
  = Some (bump_product (item_productId it) p).
Proof.
  intros Hit Hov Hp He. split; [|split].
  - rewrite find_item_after_download by done. by rewrite He.
  - destruct Hov as (o & Ho & Hu & Hv). exists o. split; [|done].
    rewrite after_download_healthy by done. exact Ho.
  - rewrite after_download_healthy by done. simpl item_productId.
    rewrite find_product_bump.
    change (find_product (item_productId it)
              (with_downloadLogs _ (with_orderItems _ w)))
      with (find_product (item_productId it) w). by rewrite Hp.
Qed.

(** ** Two requests in flight *)

Lemma requestDownload_two_steps e user id w :
  respond (requestDownload e user id) w
  = download_settle e user id (fst (download_lookup e user id w))
      (snd (download_lookup e user id w)).
Proof.
  unfold respond, requestDownload, download_lookup, download_settle, download_resume, respond,
    try_catch, bind.
  destruct (invalid_param (getQueryString id)); [done|].
  destruct (orderItem_findFirst e id (user_id user) w) as [[found|x] w1]; [|done].
  simpl. done.
Qed.

Lemma download_lookup_found e user id w it :
  truthy id = true ->
  fails e OrderItemFindFirst = false ->
  find_item id w = Some it ->
  owned_and_verified user it w ->
  download_lookup e user id w = (inr (Some (it, find_product (item_productId it) w)), w).
Proof.
  intros Hid Hf Hit Hov. unfold download_lookup, invalid_param, getQueryString.
  rewrite Hid. simpl. unfold orderItem_findFirst, call. rewrite Hf.
  by rewrite (find_downloadable id (user_id user) w it Hit Hov).
Qed.

(** The route from the lookup's answer on, for an answer with downloads
    left: the writes are applied to the rows as they are by then. *)
Lemma download_resume_granted e user id it p w x y :
  healthy e ->
  item_downloadCount it < item_downloadLimit it ->
  not_expired e it ->
  find_item id w = Some x ->
  find_product (item_productId it) w = Some y ->
  respond (download_resume e user id (Some (it, Some p))) w
  = (json 200 (DownloadGranted (cloudinary_url e (product_fileUrl p) 3600)
                 (item_downloadLimit it - item_downloadCount it - 1)
                 (item_productTitle it)),
     after_download e user id it w).
Proof.
  intros He Hlt Hne Hx Hy.
  unfold respond, download_resume, try_catch, bind.
  rewrite (proj2 (Z.leb_gt _ _) Hlt), (not_expired_expired e it Hne).
  unfold getSignedDownloadUrl, call, after_download. rewrite !He. simpl.
  unfold orderItem_update, downloadLog_create, product_increment_downloadCount, call.
  rewrite !He. rewrite Hx. simpl.
  unfold find_product in *. simpl. by rewrite Hy.
Qed.

(** C2. Two download requests for one item in flight together. The route is
    its lookup followed by the rest (first part). When an item under a
    VERIFIED order of the caller has downloads left and the lookups of two
    requests are both answered before either request goes on, both requests
    are granted, each reporting [downloadLimit - downloadCount - 1] of the row
    as it was read, and the two increments leave [downloadCount] 2 higher:
    with one download left, the count ends above the limit. *)
Theorem concurrent_downloads_overrun_limit e1 e2 user id w it p :
  truthy id = true ->
  find_item id w = Some it ->
  owned_and_verified user it w ->
  find_product (item_productId it) w = Some p ->
  healthy e1 -> healthy e2 ->
  not_expired e1 it -> not_expired e2 it ->
  item_downloadCount it < item_downloadLimit it ->
  let granted e :=
    json 200 (DownloadGranted (cloudinary_url e (product_fileUrl p) 3600)
                (item_downloadLimit it - item_downloadCount it - 1) (item_productTitle it)) in
  let run := downloads_in_flight e1 e2 user id w in
  download_settle e1 user id (fst (download_lookup e1 user id w))
    (snd (download_lookup e1 user id w))
  = respond (requestDownload e1 user id) w /\
  fst (fst run) = granted e1 /\
  snd (fst run) = granted e2 /\
  exists it',
    find_item id (snd run) = Some it' /\
    item_downloadCount it' = item_downloadCount it + 2 /\
    item_downloadLimit it' = item_downloadLimit it /\
    (item_downloadCount it + 1 = item_downloadLimit it ->
     item_downloadLimit it' < item_downloadCount it').
Proof.
  intros Hid Hit Hov Hp He1 He2 Hn1 Hn2 Hlt granted run.
  split; [by rewrite requestDownload_two_steps|].
  subst run. unfold downloads_in_flight.
  rewrite (download_lookup_found e1 user id w it), (download_lookup_found e2 user id w it)
    by done.
  rewrite Hp. unfold download_settle.
  rewrite (download_resume_granted e1 user id it p w it p) by done.
  pose proof (find_item_after_download e1 user id it w Hit) as Hit1.
  rewrite He1 in Hit1.
  assert (Hp1 : exists y, find_product (item_productId it) (after_download e1 user id it w)
                          = Some y).
  { rewrite after_download_healthy by done. rewrite find_product_bump.
    unfold find_product in *. simpl. rewrite Hp. by eexists. }
  destruct Hp1 as [y Hp1].
  rewrite (download_resume_granted e2 user id it p _ (bump_item it) y) by done.
  cbn [fst snd]. split; [done|]. split; [done|].
  pose proof (find_item_after_download e2 user id (bump_item it) _ Hit1) as Hit2.
  rewrite He2 in Hit2.
  exists (bump_item (bump_item it)). split.
  - rewrite <- Hit2. unfold after_download. by rewrite !He2.
  - simpl. repeat split; lia.
Qed.

(** After four downloads served one after the other, item [i3] has one of
    its five downloads left. Two requests in flight are then both granted,
    both are told that no download remains, and the count is 6 of 5. *)
Lemma concurrent_downloads_witness :
  let w4 := snd (download_repeatedly [calm 0; calm 1; calm 2; calm 3] alice "i3" shop) in
  let run := downloads_in_flight (calm 4) (calm 5) alice "i3" w4 in
  item_downloadCount <$> find_item "i3" w4 = Some 4 /\
  fst (fst run)
  = json 200 (DownloadGranted "https://res.cloudinary.com/signed/digitalghar/products/a"
                0 "Ebook A") /\
  snd (fst run)
  = json 200 (DownloadGranted "https://res.cloudinary.com/signed/digitalghar/products/a"
                0 "Ebook A") /\
  exists it', find_item "i3" (snd run) = Some it' /\
    item_downloadCount it' = 6 /\ item_downloadLimit it' = 5.
Proof.
  intros w4 run. split; [reflexivity|].
  destruct (concurrent_downloads_overrun_limit (calm 4) (calm 5) alice "i3" w4
              (mkOrderItem "i3" "o3" "A" "Ebook A" (whole 100) 4 5 None None)
              (mkProduct "A" "Ebook A" (whole 100) "digitalghar/products/a" true 4))
    as (_ & H1 & H2 & it' & Hfind & Hcount & Hlimit & _);
    [reflexivity|reflexivity| |reflexivity|apply calm_healthy|apply calm_healthy
    |exact I|exact I|simpl; lia|].
  - eexists. split; [by vm_compute|]. by split.
  - split; [exact H1|]. split; [exact H2|]. exists it'. by repeat split.
Defined.

(** X9. Of any number of download requests served one after the other for
    an item with [remaining = downloadLimit - downloadCount], the first
    [remaining] are granted, each reporting one download less, and every later
    one answers "Download limit reached"; the count ends at
    [downloadCount + min n (max 0 remaining)]. *)
Theorem downloads_stop_at_the_limit es user id w it p :
  truthy id = true ->
  find_item id w = Some it ->
  owned_and_verified user it w ->
  find_product (item_productId it) w = Some p ->
  Forall (fun e => healthy e /\ not_expired e it) es ->
  let remaining := item_downloadLimit it - item_downloadCount it in
  let rs := fst (download_repeatedly es user id w) in
  let w' := snd (download_repeatedly es user id w) in
  (forall i r, rs !! i = Some r ->
     (Z.of_nat i < remaining ->
      exists url, r = json 200 (DownloadGranted url (remaining - Z.of_nat i - 1)
                                  (item_productTitle it))) /\
     (remaining <= Z.of_nat i -> r = limit_reached)) /\
  (exists it', find_item id w' = Some it' /\
     item_downloadCount it'
     = item_downloadCount it + Z.min (Z.of_nat (length es)) (Z.max 0 remaining)).
Proof.
  intros Hid. revert w it p.
  induction es as [|e es IH]; intros w it p Hit Hov Hp Hall remaining rs w'.
  - subst rs w'. simpl. split; [by intros i r H|].
    exists it. split; [done|]. lia.
  - apply Forall_cons in Hall as [[He Hne] Hall].
    subst rs w'. cbn [download_repeatedly].
    rewrite (requestDownload_healthy e user id w it p) by done.
    destruct (Z.leb_spec (item_downloadLimit it) (item_downloadCount it)) as [Hle|Hlt].
    + specialize (IH w it p Hit Hov Hp Hall).
      destruct (download_repeatedly es user id w) as [rs w2]. simpl in *.
      destruct IH as [IH1 IH2]. split.
      * intros [|i] r Hr; simpl in Hr.
        { injection Hr as <-. split; [subst remaining; lia|done]. }
        destruct (IH1 i r Hr) as [_ Hfull]. split; [subst remaining; lia|].
        intros _. apply Hfull. subst remaining. lia.
      * destruct IH2 as (it' & Hit' & Hc). exists it'. split; [done|].
        subst remaining. lia.
    + destruct (after_download_keeps_gate e user id it w p Hit Hov Hp He)
        as (Hit1 & Hov1 & Hp1).
      assert (Hall1 : Forall (fun e0 => healthy e0 /\ not_expired e0 (bump_item it)) es).
      { eapply Forall_impl; [exact Hall|]. by intros e0 [? ?]. }
      specialize (IH _ _ _ Hit1 Hov1 Hp1 Hall1).
      destruct (download_repeatedly es user id (after_download e user id it w)) as [rs w2].
      simpl in *. destruct IH as [IH1 IH2]. split.
      * intros [|i] r Hr; simpl in Hr.
        { injection Hr as <-. split; [|subst remaining; lia].
          intros _. eexists. do 2 f_equal. subst remaining. lia. }
        destruct (IH1 i r Hr) as [Hgrant Hfull]. split.
        { intros Hi. destruct Hgrant as [url ->]; [subst remaining; lia|].
          eexists. do 2 f_equal. subst remaining. lia. }
        { intros Hi. apply Hfull. subst remaining. lia. }
      * destruct IH2 as (it' & Hit' & Hc). exists it'. split; [done|].
        rewrite Hc. subst remaining. lia.
Qed.

Lemma downloads_limit_witness :
  let es := [calm 0; calm 1; calm 2; calm 3; calm 4; calm 5] in
  Forall (fun r => status r = 200) (take 5 (fst (download_repeatedly es alice "i3" shop))) /\
  fst (download_repeatedly es alice "i3" shop) !! 5%nat = Some limit_reached /\
  exists it', find_item "i3" (snd (download_repeatedly es alice "i3" shop)) = Some it' /\
              item_downloadCount it' = 5.
Proof.
  intros es.
  destruct (downloads_stop_at_the_limit es alice "i3" shop item3 productA) as [Hrs Hcount];
    try reflexivity.
  - apply item3_owned.
  - subst es. repeat constructor; intros d; reflexivity.
  - split; [by repeat constructor|]. split.
    + destruct (fst (download_repeatedly es alice "i3" shop) !! 5%nat) as [r|] eqn:Hr;
        [|by vm_compute in Hr].
      destruct (Hrs 5%nat r Hr) as [_ Hfull]. rewrite Hfull; [done|]. simpl. lia.
    + destruct Hcount as (it' & Hit' & Hc). exists it'. split; [done|]. by rewrite Hc.
Defined.

(** X10. A granted download appends exactly one download log (user, item,
    product, origin, user agent), adds 1 to the download counter of the
    product and leaves its price and availability alone; no other item, no
    order, no cart and no admin log changes. *)
Theorem granted_download_bookkeeping e user id w it p :
  truthy id = true ->
  healthy e ->
  find_item id w = Some it ->
  owned_and_verified user it w ->
  not_expired e it ->
  item_downloadCount it < item_downloadLimit it ->
  find_product (item_productId it) w = Some p ->
  let w' := snd (respond (requestDownload e user id) w) in
  downloadLogs w'
  = (downloadLogs w ++ [mkDownloadLog (user_id user) id (item_productId it)
                          (req_ip e) (req_userAgent e)])%list /\
  (exists p', find_product (item_productId it) w' = Some p' /\
              product_downloadCount p' = product_downloadCount p + 1 /\
              product_price p' = product_price p /\
              product_isActive p' = product_isActive p) /\
  (forall j, j <> id -> find_item j w' = find_item j w) /\
  redis w' = redis w /\ orders w' = orders w /\ adminLogs w' = adminLogs w.
Proof.
  intros Hid He Hit Hov Hne Hlt Hp w'. subst w'.
  rewrite (requestDownload_healthy e user id w it p) by done.
  destruct (Z.leb_spec (item_downloadLimit it) (item_downloadCount it)); [lia|].
  cbn [snd]. rewrite after_download_healthy by done.
  split; [done|]. split; [|split; [|done]].
  - rewrite find_product_bump.
    change (find_product (item_productId it) (with_downloadLogs _ (with_orderItems _ w)))
      with (find_product (item_productId it) w). rewrite Hp. simpl.
    eexists. split; [done|]. unfold bump_product.
    apply find_product_elem in Hp as [_ Hpid]. by rewrite bool_decide_eq_true_2.
  - intros j Hj. unfold find_item. simpl. rewrite find_item_patch by done.
    destruct (List.find _ (orderItems w)) as [x|] eqn:E; [|done]. simpl.
    unfold patch_item. rewrite bool_decide_eq_false_2; [done|].
    apply find_some in E as [_ E]. apply bool_decide_eq_true in E. congruence.
Qed.

Lemma download_bookkeeping_witness :
  let w' := snd (respond (requestDownload (calm 0) alice "i3") shop) in
  downloadLogs w' = [mkDownloadLog "alice" "i3" "A" (Some "203.0.113.7") (Some "Mozilla/5.0")] /\
  (exists p', find_product "A" w' = Some p' /\ product_downloadCount p' = 1) /\
  find_item "i4" w' = find_item "i4" shop.
Proof.
  destruct (granted_download_bookkeeping (calm 0) alice "i3" shop item3 productA)
    as (Hlog & (p' & Hp' & Hc & _) & Hother & _); try reflexivity; try exact I.
  - apply calm_healthy.
  - apply item3_owned.
  - split; [exact Hlog|]. split; [by exists p'|]. by apply Hother.
Defined.

(** X11. When the count increment fails and the two other writes go
    through, the answer is the 500 without URL and the item keeps its count,
    yet the download log is written and the product counter incremented. *)
Theorem uncounted_download_is_still_logged e user id w it p :
  truthy id = true ->
  find_item id w = Some it ->
  owned_and_verified user it w ->
  not_expired e it ->
  item_downloadCount it < item_downloadLimit it ->
  find_product (item_productId it) w = Some p ->
  fails e OrderItemFindFirst = false ->
  fails e CloudinaryUrl = false ->
  fails e (OrderItemUpdate id) = true ->
  fails e DownloadLogCreate = false ->
  fails e ProductUpdate = false ->
  let r := fst (respond (requestDownload e user id) w) in
  let w' := snd (respond (requestDownload e user id) w) in
  r = download_failed /\
  find_item id w' = Some it /\
  downloadLogs w'
  = (downloadLogs w ++ [mkDownloadLog (user_id user) id (item_productId it)
                          (req_ip e) (req_userAgent e)])%list /\
  exists p', find_product (item_productId it) w' = Some p' /\
             product_downloadCount p' = product_downloadCount p + 1.
Proof.
  intros Hid Hit Hov Hne Hlt Hp Hf1 Hf2 Hf3 Hf4 Hf5 r w'. subst r w'.
  rewrite (requestDownload_run e user id w it) by done.
  rewrite (not_expired_expired e it Hne), Hp, Hf2, Hf3.
  destruct (Z.leb_spec (item_downloadLimit it) (item_downloadCount it)); [lia|].
  cbn [fst snd orb]. split; [done|].
  split; [rewrite find_item_after_download by done; by rewrite Hf3|].
  unfold after_download. rewrite Hf3, Hf4, Hf5. split; [done|].
  rewrite find_product_bump.
  change (find_product (item_productId it) (with_downloadLogs _ w))
    with (find_product (item_productId it) w). rewrite Hp. simpl.
  eexists. split; [done|]. unfold bump_product.
  apply find_product_elem in Hp as [_ Hpid]. by rewrite bool_decide_eq_true_2.
Qed.

Lemma uncounted_download_witness :
  let e := request_env t0 (item_update_down "i3") in
  let w' := snd (respond (requestDownload e alice "i3") shop) in
  fst (respond (requestDownload e alice "i3") shop) = download_failed /\
  find_item "i3" w' = Some item3 /\
  length (downloadLogs w') = 1%nat.
Proof.
  intros e.
  destruct (uncounted_download_is_still_logged e alice "i3" shop item3 productA)
    as (Hr & Hit & Hlog & _); try reflexivity; try exact I.
  - apply item3_owned.
  - split; [exact Hr|]. split; [exact Hit|]. by rewrite Hlog.
Defined.

Lemma mapM_activation_args_signed e (items : list (OrderItem * option Product)) w :
  fails e CloudinaryUrl = false ->
  Forall (fun x => is_Some (snd x)) items ->
  exists args,
    mapM (activation_args e) items w = (Ok args, w) /\
    List.map fst args = List.map (fun x => item_id (fst x)) items.
Proof.
  intros Hf. induction items as [|[it op] items IH]; intros Hall; simpl.
  - by exists [].
  - apply Forall_cons in Hall as [[p Hp] Hall]. simpl in Hp. subst op.
    destruct (IH Hall) as (args & Hargs & Hids).
    eexists ((item_id it, cloudinary_url e (product_fileUrl p) (7 * 24 * 3600)) :: args).
    split; [|simpl; by rewrite Hids].
    unfold bind at 1. unfold activation_args at 1. simpl.
    unfold getSignedDownloadUrl, call. rewrite Hf. unfold bind, ret. by rewrite Hargs.
Qed.

(** [Promise.all] over the item updates when some of them fail: the ones
    that go through are applied, and the await throws. *)
Lemma promise_all_partial e exp args w :
  Forall (fun a => is_Some (find_item (fst a) w)) args ->
  exists r,
    promise_all (List.map (fun a => orderItem_update e (fst a) (activate (snd a) exp)) args) w
    = (r, with_orderItems (List.map (activate_row exp (List.filter (update_ok e) args))) w) /\
    (forall a, a ∈ args -> update_ok e a = false -> r <> Ok tt).
Proof.
  revert w. induction args as [|a args IH]; intros w Hall; simpl.
  - exists (Ok tt). split; [|by intros a Ha; apply elem_of_nil in Ha].
    destruct w. unfold with_orderItems. simpl. by rewrite map_id.
  - apply Forall_cons in Hall as [[it Hit] Hall].
    unfold orderItem_update at 1, call, update_ok at 1.
    destruct (fails e (OrderItemUpdate (fst a))) eqn:Hfa; simpl.
    + destruct (IH w Hall) as (r & Hr & Hfail). unfold throw. rewrite Hr.
      eexists. split; [done|]. by intros.
    + rewrite Hit.
      destruct (IH (with_orderItems (List.map (patch_item (fst a) (activate (snd a) exp))) w))
        as (r & Hr & Hfail).
      { eapply Forall_impl; [exact Hall|]. intros b [itb Hb]. simpl in *.
        unfold find_item in *. simpl. rewrite find_item_patch by done. rewrite Hb.
        by eexists. }
      rewrite Hr. exists r. split.
      * f_equal. unfold with_orderItems. simpl. by rewrite map_map.
      * intros b Hb Hok. apply elem_of_cons in Hb as [->|Hb].
        { unfold update_ok in Hok. by rewrite Hfa in Hok. }
        by apply (Hfail b).
Qed.

Lemma activate_row_other exp args it :
  item_id it ∉ List.map fst args -> activate_row exp args it = it.
Proof.
  revert it. induction args as [|a args IH]; intros it H; [done|].
  simpl in H. apply not_elem_of_cons in H as [Hne H].
  change (activate_row exp (a :: args) it)
    with (activate_row exp args (patch_item (fst a) (activate (snd a) exp) it)).
  assert (Hp : patch_item (fst a) (activate (snd a) exp) it = it).
  { unfold patch_item. by rewrite bool_decide_eq_false_2. }
  rewrite Hp. by apply IH.
Qed.

(** X3. When the update of one item fails during verify, the answer is
    500 "Failed to verify payment" and no admin log is written, but the order
    is VERIFIED all the same; the item whose update failed is as it was, and
    every item whose update went through has its expiry set. *)
Theorem verify_partial_activation e admin id w o it :
  truthy id = true ->
  find_order id w = Some o ->
  order_paymentStatus o <> VERIFIED ->
  products_present id w ->
  fails e OrderFindUnique = false ->
  fails e OrderUpdate = false ->
  fails e CloudinaryUrl = false ->
  it ∈ items_of id w ->
  fails e (OrderItemUpdate (item_id it)) = true ->
  let r := fst (respond (verify e admin id) w) in
  let w' := snd (respond (verify e admin id) w) in
  r = json 500 (ErrorBody "Failed to verify payment") /\
  paymentStatus_of id w' = Some VERIFIED /\
  adminLogs w' = adminLogs w /\
  find_item (item_id it) w' = find_item (item_id it) w /\
  (forall j, j ∈ List.map item_id (items_of id w) ->
     fails e (OrderItemUpdate j) = false ->
     exists it', find_item j w' = Some it' /\
                 item_expiresAt it' = Some (now_again e + 7 * 24 * 3600 * 1000)).
Proof.
  intros Hid Ho Hnv Hpp Hf1 Hf2 Hf3 Hin Hbad r w'. subst r w'.
  set (w1 := with_orders (List.map (patch_order id (set_verified (now e)))) w).
  destruct (mapM_activation_args_signed e
              (List.map (fun it => (it, find_product (item_productId it) w)) (items_of id w))
              w1 Hf3) as (args & Hargs & Hids).
  { apply Forall_map. exact Hpp. }
  rewrite map_map in Hids. simpl in Hids.
  assert (Hfound : Forall (fun a => is_Some (find_item (fst a) w1)) args).
  { apply Forall_forall. intros a Ha.
    assert (Hi : fst a ∈ List.map fst args).
    { apply list_elem_of_In, in_map. by apply list_elem_of_In. }
    rewrite Hids in Hi.
    apply list_elem_of_In, in_map_iff in Hi as (x & Hx & Hi).
    unfold items_of in Hi. apply filter_In in Hi as [Hi _].
    unfold find_item. simpl.
    destruct (List.find (fun it0 => bool_decide (item_id it0 = fst a)) (orderItems w)) eqn:E;
      [by eexists|].
    exfalso. eapply find_none in E; [|exact Hi]. simpl in E.
    by rewrite bool_decide_eq_true_2 in E. }
  destruct (promise_all_partial e (now_again e + SEVEN_DAYS_MS) args w1 Hfound)
    as (rp & Hrp & Hthrows).
  assert (Hbad_arg : exists a, a ∈ args /\ update_ok e a = false).
  { assert (Hi : item_id it ∈ List.map fst args).
    { rewrite Hids. apply list_elem_of_In, in_map. by apply list_elem_of_In. }
    apply list_elem_of_In, in_map_iff in Hi as (a & Ha & Hi).
    exists a. split; [by apply list_elem_of_In|]. unfold update_ok. by rewrite Ha, Hbad. }
  destruct Hbad_arg as (a & Ha & Hnok).
  assert (Hrun : respond (verify e admin id) w
                 = (json 500 (ErrorBody "Failed to verify payment"),
                    with_orderItems
                      (List.map (activate_row (now_again e + SEVEN_DAYS_MS)
                                   (List.filter (update_ok e) args))) w1)).
  { unfold respond, verify, try_catch, bind, invalid_param, getQueryString.
    rewrite Hid. simpl. unfold order_findUnique, call. rewrite Hf1, Ho. simpl.
    rewrite bool_decide_eq_false_2 by done.
    unfold order_update, call. rewrite Hf2, Ho. fold w1. rewrite Hargs, Hrp.
    destruct rp as [[]|x]; [|done]. exfalso. by apply (Hthrows a Ha Hnok). }
  rewrite Hrun. cbn [fst snd]. fold SEVEN_DAYS_MS.
  split; [done|]. split; [|split; [done|split]].
  - unfold paymentStatus_of, find_order. simpl. rewrite find_order_patch by done.
    unfold find_order in Ho. rewrite Ho. simpl. unfold patch_order.
    rewrite bool_decide_eq_true_2; [done|]. by apply (find_order_id id w).
  - unfold find_item. simpl.
    induction (orderItems w) as [|x l IH]; simpl; [done|].
    destruct (activate_row_frame (now_again e + SEVEN_DAYS_MS)
                (List.filter (update_ok e) args) x) as (Hx & _). rewrite Hx.
    case_bool_decide as Hxi; [|apply IH]. f_equal. apply activate_row_other.
    rewrite Hxi. intros Hmem.
    apply list_elem_of_In, in_map_iff in Hmem as (b & Hb & Hmem).
    apply filter_In in Hmem as [_ Hok]. unfold update_ok in Hok.
    by rewrite Hb, Hbad in Hok.
  - intros j Hj Hok.
    assert (Hjin : j ∈ List.map fst (List.filter (update_ok e) args)).
    { assert (Hj' : j ∈ List.map fst args) by (rewrite Hids; exact Hj).
      clear Hj. rename Hj' into Hj.
      apply list_elem_of_In, in_map_iff in Hj as (b & Hb & Hj).
      apply list_elem_of_In, in_map_iff. exists b. split; [done|].
      apply filter_In. split; [done|]. unfold update_ok. by rewrite Hb, Hok. }
    assert (Hsome : is_Some (find_item j w)).
    { apply list_elem_of_In, in_map_iff in Hj as (x & Hx & Hj).
      unfold items_of in Hj. apply filter_In in Hj as [Hj _]. unfold find_item.
      destruct (List.find (fun it0 => bool_decide (item_id it0 = j)) (orderItems w)) eqn:E;
        [by eexists|].
      exfalso. eapply find_none in E; [|exact Hj]. simpl in E.
      by rewrite bool_decide_eq_true_2 in E. }
    destruct Hsome as [x Hx]. unfold find_item in *. simpl.
    assert (Hfind : forall l, List.find (fun it0 => bool_decide (item_id it0 = j)) l = Some x ->
              List.find (fun it0 => bool_decide (item_id it0 = j))
                (List.map (activate_row (now_again e + SEVEN_DAYS_MS)
                             (List.filter (update_ok e) args)) l)
              = Some (activate_row (now_again e + SEVEN_DAYS_MS)
                        (List.filter (update_ok e) args) x)).
    { induction l as [|y l IH]; simpl; [done|].
      destruct (activate_row_frame (now_again e + SEVEN_DAYS_MS)
                  (List.filter (update_ok e) args) y) as (Hy & _). rewrite Hy.
      case_bool_decide; [by intros [= ->]|apply IH]. }
    rewrite (Hfind _ Hx). eexists. split; [done|].
    apply activate_row_expiry. left.
    apply find_some in Hx as [_ Hxj]. apply bool_decide_eq_true in Hxj. by rewrite Hxj.
Qed.

Lemma verify_partial_witness :
  let e := request_env t0 (item_update_down "i2") in
  let w' := snd (respond (verify e root "o1") shop) in
  fst (respond (verify e root "o1") shop) = json 500 (ErrorBody "Failed to verify payment") /\
  paymentStatus_of "o1" w' = Some VERIFIED /\
  adminLogs w' = [] /\
  find_item "i2" w' = find_item "i2" shop /\
  exists it', find_item "i1" w' = Some it' /\
              item_expiresAt it' = Some (t0 + 40 + 604800000).
Proof.
  intros e.
  destruct (verify_partial_activation e root "o1" shop order1
              (mkOrderItem "i2" "o1" "C" "Course C" (whole 75) 0 5 None None))
    as (Hr & Hs & Hlog & Hsame & Hothers); try reflexivity; try discriminate.
  - unfold products_present. repeat constructor; by eexists.
  - apply list_elem_of_In. simpl. right. by left.
  - split; [exact Hr|]. split; [exact Hs|]. split; [exact Hlog|]. split; [exact Hsame|].
    apply (Hothers "i1"); [|reflexivity]. by left.
Defined.



Lemma reject_run e admin id reason w o :
  truthy id = true ->
  find_order id w = Some o ->
  fails e OrderUpdate = false ->
  respond (reject e admin id reason) w
  = if fails e AdminLogCreate
    then (json 500 (ErrorBody "Failed to reject payment"),
          with_orders (List.map (patch_order id set_rejected)) w)
    else (json 200 (PaymentRejected (set_rejected o)),
          with_adminLogs
            (fun ls => (ls ++ [mkAdminLog (user_id admin) "rejected_payment" "order" id
                                 (RejectedDetails (order_orderNumber o) reason) (req_ip e)])%list)
            (with_orders (List.map (patch_order id set_rejected)) w)).
Proof.
  intros Hid Ho Hf. unfold respond, reject, try_catch, bind, invalid_param, getQueryString.
  rewrite Hid. simpl. unfold order_update, call. rewrite Hf, Ho.
  unfold adminLog_create, call. by destruct (fails e AdminLogCreate).
Qed.

Lemma patch_order_twice id f l :
  (forall o, f (f o) = f o) -> (forall o, order_id (f o) = order_id o) ->
  List.map (patch_order id f) (List.map (patch_order id f) l) = List.map (patch_order id f) l.
Proof.
  intros Hf Hid. rewrite map_map. apply map_ext. intros o. unfold patch_order.
  destruct (decide (order_id o = id)) as [H|H].
  - rewrite (bool_decide_eq_true_2 (order_id o = id)) by done.
    rewrite bool_decide_eq_true_2 by by rewrite Hid. apply Hf.
  - rewrite (bool_decide_eq_false_2 (order_id o = id)) by done.
    by rewrite bool_decide_eq_false_2.
Qed.

(** X5. Rejecting an order twice leaves the order table as the first
    rejection left it and answers 200 with the same order both times; the
    payment reference and the paid timestamp are kept, no item is touched,
    and each rejection adds one admin log. *)
Theorem reject_is_idempotent e1 e2 admin id reason1 reason2 w o :
  truthy id = true ->
  find_order id w = Some o ->
  healthy e1 -> healthy e2 ->
  let w1 := snd (respond (reject e1 admin id reason1) w) in
  let w2 := snd (respond (reject e2 admin id reason2) w1) in
  fst (respond (reject e1 admin id reason1) w) = json 200 (PaymentRejected (set_rejected o)) /\
  fst (respond (reject e2 admin id reason2) w1) = json 200 (PaymentRejected (set_rejected o)) /\
  orders w2 = orders w1 /\
  orderItems w2 = orderItems w /\
  order_utrNumber (set_rejected o) = order_utrNumber o /\
  order_paidAt (set_rejected o) = order_paidAt o /\
  length (adminLogs w2) = (length (adminLogs w) + 2)%nat.
Proof.
  intros Hid Ho He1 He2 w1 w2. subst w1 w2.
  rewrite (reject_run e1 admin id reason1 w o) by done. rewrite He1. cbn [fst snd].
  assert (Ho1 : find_order id
                  (with_adminLogs
                     (fun ls => (ls ++ [mkAdminLog (user_id admin) "rejected_payment" "order" id
                        (RejectedDetails (order_orderNumber o) reason1) (req_ip e1)])%list)
                     (with_orders (List.map (patch_order id set_rejected)) w))
                = Some (set_rejected o)).
  { unfold find_order in *. simpl. rewrite find_order_patch by done. rewrite Ho. simpl.
    unfold patch_order. rewrite bool_decide_eq_true_2; [done|].
    by apply (find_order_id id w). }
  rewrite (reject_run e2 admin id reason2 _ (set_rejected o)) by done. rewrite He2.
  cbn [fst snd]. split; [done|]. split; [done|]. split.
  - simpl. by apply patch_order_twice.
  - split; [done|]. split; [done|]. split; [done|]. simpl. rewrite !length_app. simpl. lia.
Qed.

Lemma reject_twice_witness :
  let w1 := snd (respond (reject (calm 0) root "o1" (Some "no transfer")) shop) in
  let w2 := snd (respond (reject (calm 1) root "o1" None) w1) in
  paymentStatus_of "o1" w1 = Some FAILED /\
  orders w2 = orders w1 /\
  length (adminLogs w2) = 2%nat.
Proof.
  destruct (reject_is_idempotent (calm 0) (calm 1) root "o1" (Some "no transfer") None shop
              order1) as (_ & _ & Hsame & _ & _ & _ & Hlogs); try reflexivity;
    try apply calm_healthy.
  split; [by vm_compute|]. split; [exact Hsame|exact Hlogs].
Defined.

(** X6. After a rejection whose order update went through the order is
    FAILED, its items are unchanged, and the download route answers 404
    "Download not available" for each of them, to any user. *)
Theorem reject_revokes_downloads e admin id reason w o :
  truthy id = true ->
  find_order id w = Some o ->
  fails e OrderUpdate = false ->
  let w' := snd (respond (reject e admin id reason) w) in
  paymentStatus_of id w' = Some FAILED /\
  orderItems w' = orderItems w /\
  (forall e2 user itemId,
     truthy itemId = true ->
     fails e2 OrderItemFindFirst = false ->
     (forall it, it ∈ orderItems w -> item_id it = itemId -> item_orderId it = id) ->
     respond (requestDownload e2 user itemId) w' = (not_available, w')).
Proof.
  intros Hid Ho Hf w'. subst w'.
  rewrite (reject_run e admin id reason w o) by done.
  set (w1 := with_orders (List.map (patch_order id set_rejected)) w).
  assert (Hfind : forall w2, orders w2 = orders w1 -> find_order id w2 = Some (set_rejected o)).
  { intros w2 Hw2. unfold find_order in *. rewrite Hw2. simpl.
    rewrite find_order_patch by done. rewrite Ho. simpl. unfold patch_order.
    rewrite bool_decide_eq_true_2; [done|]. by apply (find_order_id id w). }
  assert (Hgoal : forall w2, orders w2 = orders w1 -> orderItems w2 = orderItems w ->
            paymentStatus_of id w2 = Some FAILED /\
            orderItems w2 = orderItems w /\
            (forall e2 user itemId,
               truthy itemId = true ->
               fails e2 OrderItemFindFirst = false ->
               (forall it, it ∈ orderItems w -> item_id it = itemId -> item_orderId it = id) ->
               respond (requestDownload e2 user itemId) w2 = (not_available, w2))).
  { intros w2 Hw2 Hitems. split; [|split; [done|]].
    - unfold paymentStatus_of. by rewrite (Hfind w2 Hw2).
    - intros e2 user itemId Hid2 Hf2 Hown.
      apply download_refused_aux; try done.
      intros it Hin Hit (o2 & Ho2 & _ & Hv).
      rewrite Hitems in Hin. rewrite (Hown it Hin Hit) in Ho2.
      rewrite (Hfind w2 Hw2) in Ho2. injection Ho2 as <-. done. }
  destruct (fails e AdminLogCreate); cbn [snd]; by apply Hgoal.
Qed.

Lemma reject_revokes_witness :
  let w' := snd (respond (reject (calm 0) root "o3" (Some "chargeback")) shop) in
  fst (respond (requestDownload (calm 0) alice "i3") shop)
  = json 200 (DownloadGranted "https://res.cloudinary.com/signed/digitalghar/products/a"
                4 "Ebook A") /\
  respond (requestDownload (calm 1) alice "i3") w' = (not_available, w').
Proof.
  split; [by vm_compute|].
  destruct (reject_revokes_downloads (calm 0) root "o3" (Some "chargeback") shop
              (mkOrder "o3" "ORD-202610-CCCCCC" "alice" "alice@example.com" (amount 175) VERIFIED
                 COMPLETED (Some "UTR000003") (Some 1793000000000)))
    as (_ & _ & Hgate); [reflexivity|reflexivity|reflexivity|].
  apply Hgate; [reflexivity|reflexivity|].
  intros it Hin Hid.
  repeat (apply elem_of_cons in Hin as [->|Hin]; [try discriminate; try reflexivity|]).
  by apply elem_of_nil in Hin.
Defined.


(** X12. A missing payment reference, or one of ASCII characters that is
    shorter than 5 or longer than 50 characters, is answered 400 "Invalid UTR
    number" before the order is looked up: for any order id, any caller and
    any failing collaborator, and nothing changes. *)
Theorem submit_validates_before_lookup e user id utrBody w :
  truthy id = true ->
  match utrBody with
  | Some utr =>
      ascii_text utr = true /\ (String.length utr < 5 \/ 50 < String.length utr)%nat
  | None => True
  end ->
  respond (submitPaymentReference e user id utrBody) w
  = (json 400 (ErrorBody "Invalid UTR number"), w).
Proof.
  intros Hid Hbad. destruct utrBody as [utr|].
  - destruct Hbad as [Hascii Hlen]. apply submit_invalid_utr; [done|].
    by rewrite (js_length_ascii utr Hascii).
  - unfold respond, submitPaymentReference, try_catch, bind, invalid_param, getQueryString,
      submitUtrSchema_parse. by rewrite Hid.
Qed.

Lemma submit_validation_witness :
  respond (submitPaymentReference (calm 0) alice "o1" (Some "1234")) shop
  = (json 400 (ErrorBody "Invalid UTR number"), shop) /\
  respond (submitPaymentReference (calm 0) mallory "o7" None) shop
  = (json 400 (ErrorBody "Invalid UTR number"), shop).
Proof.
  split.
  - apply (submit_validates_before_lookup (calm 0) alice "o1" (Some "1234") shop);
      [reflexivity|]. split; [reflexivity|]. left. simpl. lia.
  - by apply (submit_validates_before_lookup (calm 0) mallory "o7" None shop).
Defined.


(** X13. The order detail route never writes. An order id under which no
    order of the caller is stored answers 404 "Order not found"; an order of
    the caller is returned with its items, and with a payment request exactly
    when it is PENDING, built from the stored total and order number. *)
Theorem getOrder_reads_own_orders e user id w :
  snd (getOrder e user id w) = w /\
  (truthy id = true -> fails e OrderFindFirst = false ->
   (forall o, o ∈ orders w -> order_id o = id -> order_userId o <> user_id user) ->
   detail e user id w = (404, DetailError "Order not found")) /\
  (truthy id = true -> healthy e -> unique_order_ids w ->
   forall o, find_order id w = Some o -> order_userId o = user_id user ->
   exists items,
     detail e user id w
     = (200, OrderDetail o items
               (if bool_decide (order_paymentStatus o = PENDING)
                then Some (mkPaymentView (or_default (env_UPI_ID e) "merchant@upi")
                             (order_totalAmount o)
                             (qr_toDataURL e
                                (mkUPIPaymentDetails (or_default (env_UPI_ID e) "merchant@upi")
                                   (or_default (env_UPI_NAME e) "DigitalGhar")
                                   (order_totalAmount o) (order_orderNumber o))))
                else None)) /\
     List.map fst items = items_of id w).
Proof.
  split; [|split].
  - unfold getOrder, order_findFirst_owned, generateUPIQRCode. unfold_monad.
    repeat (case_match; simplify_eq; simpl in *; auto).
  - intros Hid Hf Hno. unfold detail, getOrder, try_catch, bind, invalid_param, getQueryString.
    rewrite Hid. simpl. unfold order_findFirst_owned, call. rewrite Hf.
    rewrite find_none_iff; [done|]. intros o Hin.
    apply not_true_is_false. intros Hb. apply andb_true_iff in Hb as [H1 H2].
    apply bool_decide_eq_true in H1, H2. by apply (Hno o Hin H1).
  - intros Hid He Hnd o Ho Hu.
    unfold detail, getOrder, try_catch, bind, invalid_param, getQueryString.
    rewrite Hid. simpl. unfold order_findFirst_owned, call. rewrite He.
    unfold unique_order_ids in Hnd.
    rewrite (findFirst_unique (fun o => bool_decide (order_userId o = user_id user)) id
               (orders w) Hnd).
    unfold find_order in Ho. rewrite Ho. rewrite bool_decide_eq_true_2 by done. simpl.
    assert (Hoid : order_id o = id) by (by apply (find_order_id id w)).
    rewrite Hoid.
    case_bool_decide; simpl.
    + unfold generateUPIQRCode, call. rewrite He. simpl.
      eexists. split; [done|]. rewrite map_map. simpl. apply map_id.
    + eexists. split; [done|]. rewrite map_map. simpl. apply map_id.
Qed.


Lemma appended_refl w : appended w w.
Proof.
  repeat split. exists [], []. rewrite !app_nil_r. repeat split; auto.
Qed.

Lemma appended_redis f w w' : appended w w' -> appended w (with_redis f w').
Proof. done. Qed.

Lemma appended_create e user found w : appended w (after_create e user found w).
Proof.
  repeat split. exists [created_order e user found], (created_items e found).
  split; [done|]. split; [done|]. split; [done|]. split; [done|].
  pose proof (created_items_snapshot e found) as Hs.
  apply Forall_forall. intros it Hin.
  exists (created_order e user found). split; [by left|].
  apply list_elem_of_In in Hin.
  revert Hin. induction Hs as [|p it' ps its Hp _ IH]; intros Hin; [done|].
  destruct Hin as [<-|Hin]; [by destruct Hp as [-> _]|by apply IH].
Qed.

(** X14. createOrder never rewrites what is stored: products and logs are
    untouched, at most one order is appended, and every appended item belongs
    to it. With no cart under the caller's key, or an empty one, it answers
    400 "Cart is empty" and changes nothing. *)
Theorem createOrder_only_appends e user w :
  let r := fst (respond (createOrder e user) w) in
  let w' := snd (respond (createOrder e user) w) in
  appended w w' /\
  (fails e RedisGet = false ->
   match redis w !! user_cart_key user with
   | Some entry => entry_value entry = []
   | None => True
   end ->
   r = json 400 (ErrorBody "Cart is empty") /\ w' = w).
Proof.
  intros r w'. subst r w'. rewrite createOrder_run.
  destruct (fails e RedisGet) eqn:Hg.
  { split; [apply appended_refl|done]. }
  destruct (redis w !! user_cart_key user) as [entry|] eqn:Hentry; simpl.
  2:{ split; [apply appended_refl|done]. }
  destruct (entry_value entry) as [|x ids] eqn:Hids; simpl.
  { split; [apply appended_refl|done]. }
  split; [|by intros _ H].
  destruct (fails e ProductFindMany); [apply appended_refl|].
  set (found := List.filter (active_in (x :: ids)) (products w)).
  destruct (length found =? 0)%nat; [apply appended_refl|].
  destruct (fails e OrderCreate || create_conflict e _ _ w); [apply appended_refl|].
  destruct (fails e QrToDataURL); [apply appended_create|].
  destruct (fails e RedisDel); [apply appended_create|].
  apply appended_redis, appended_create.
Qed.

Lemma active_filter_one p P (ps : list Product) :
  NoDup (List.map product_id ps) ->
  List.find (fun x => bool_decide (product_id x = p)) ps = Some P ->
  product_isActive P = true ->
  List.filter (active_in [p]) ps = [P].
Proof.
  induction ps as [|x ps IH]; simpl; [done|]. intros Hnd Hf Hact.
  apply NoDup_cons in Hnd as [Hx Hnd]. unfold active_in at 1.
  case_bool_decide as Hid.
  - injection Hf as ->. rewrite bool_decide_eq_true_2 by (rewrite Hid; by left).
    rewrite Hact. simpl. f_equal.
    assert (Hnone : forall y, y ∈ ps -> active_in [p] y = false).
    { intros y Hy. unfold active_in. rewrite bool_decide_eq_false_2; [done|].
      intros Hin. apply list_elem_of_singleton in Hin. apply Hx. rewrite Hid, <- Hin.
      apply list_elem_of_In, in_map. by apply list_elem_of_In. }
    clear -Hnone. induction ps as [|y ps IH]; simpl; [done|].
    rewrite Hnone by by left. apply IH. intros z Hz. apply Hnone. by right.
  - rewrite bool_decide_eq_false_2; [simpl; by apply IH|].
    intros Hin. apply list_elem_of_singleton in Hin. done.
Qed.

(** X15. Checkout reads the cart that the cart routes write for a signed-in
    user, whatever session id the requests carried: adding an active product
    to an absent cart and then checking out creates one order with one item,
    the snapshot of that product, with the product's price (as a number) as
    total; the cart key is gone and the cart reads empty. *)
Theorem checkout_after_add e1 e2 e3 user header cookie p P w :
  healthy e1 -> healthy e2 -> healthy e3 ->
  truthy p = true ->
  NoDup (List.map product_id (products w)) ->
  find_product p w = Some P -> product_isActive P = true ->
  stored_cart (signed_in user header cookie) w = None ->
  create_conflict e2 (generateOrderNumber e2) 1 w = false ->
  let req := signed_in user header cookie in
  let w1 := snd (respond (cart_add e1 req (Some p)) w) in
  let r := fst (respond (createOrder e2 user) w1) in
  let w2 := snd (respond (createOrder e2 user) w1) in
  (exists o it payment,
     r = json 201 (OrderCreated o [it] payment) /\
     order_userId o = user_id user /\
     order_totalAmount o = Number (product_price P) /\
     snapshot_of (order_id o) P it /\
     orders w2 = (orders w ++ [o])%list /\
     orderItems w2 = (orderItems w ++ [it])%list) /\
  redis w2 !! getCartKey req = None /\
  respond (cart_get e3 req) w2 = (json 200 (CartContents [] zero), w2).
Proof.
  intros He1 He2 He3 Hp Hnd HP Hact Hs Hcc req w1 r w2.
  assert (Hw1 : w1 = with_redis (insert (getCartKey req) (mkCartEntry CART_EXPIRY [p])) w).
  { subst w1. rewrite (cart_add_run e1 req p P w) by done. fold req in Hs. by rewrite Hs. }
  assert (Hkey : getCartKey req = user_cart_key user) by done.
  assert (Hfound : List.filter (active_in [p]) (products w1) = [P]).
  { rewrite Hw1. simpl. by apply active_filter_one. }
  assert (Hrun : respond (createOrder e2 user) w1
                 = (created_response e2 user [P],
                    with_redis (delete (user_cart_key user)) (after_create e2 user [P] w1))).
  { rewrite createOrder_run, !He2. rewrite Hw1 at 1. simpl redis.
    rewrite <- Hkey, lookup_insert_eq. simpl. rewrite Hfound. simpl.
    assert (Hc : create_conflict e2 (generateOrderNumber e2) 1 w1 = false)
      by (by rewrite Hw1).
    by rewrite Hc. }
  subst r w2. rewrite Hrun. cbn [fst snd]. split; [|split].
  - exists (created_order e2 user [P]), (new_item e2 (newOrderId e2) 0 (order_data P)).
    eexists. split; [done|]. split; [done|]. split; [apply js_add_zero_Number|].
    split; [by repeat split|]. by rewrite Hw1.
  - simpl. rewrite Hkey. apply lookup_delete_eq.
  - rewrite cart_get_run by done. unfold stored_cart. simpl.
    by rewrite Hkey, lookup_delete_eq.
Qed.

Lemma checkout_after_add_witness :
  let bob := mkUser "bob" "bob@example.com" "Bob" "CUSTOMER" in
  let req := signed_in bob (Some "session-9") None in
  let w1 := snd (respond (cart_add (calm 0) req (Some "C")) shop) in
  let w2 := snd (respond (createOrder (calm 1) bob) w1) in
  (exists o it payment,
     fst (respond (createOrder (calm 1) bob) w1) = json 201 (OrderCreated o [it] payment) /\
     order_totalAmount o = amount 75 /\ item_productId it = "C") /\
  redis w2 !! "cart:user:bob" = None.
Proof.
  intros bob req.
  destruct (checkout_after_add (calm 0) (calm 1) (calm 2) bob (Some "session-9") None "C"
              productC shop) as ((o & it & payment & Hr & _ & Ht & Hsnap & _) & Hkey & _);
    try apply calm_healthy; try reflexivity.
  - apply (bool_decide_unpack _). by vm_compute.
  - split; [|exact Hkey]. exists o, it, payment. split; [exact Hr|]. split; [exact Ht|].
    by destruct Hsnap as (_ & -> & _).
Defined.

(** X16. Every cart request and every checkout keeps the stored carts well
    formed: no product id twice, and no key holding an empty list. *)
Theorem carts_stay_well_formed e w :
  cart_invariant w ->
  (forall req op, cart_invariant (snd (respond (cart_handler e req op) w))) /\
  (forall user, cart_invariant (snd (respond (createOrder e user) w))).
Proof.
  intros Hinv. split; [intros; by apply cart_handler_invariant|].
  intros user. rewrite createOrder_run.
  repeat (case_match; simpl; try done); by apply cart_invariant_delete.
Qed.

Lemma carts_well_formed_witness :
  cart_invariant shop /\
  cart_invariant
    (snd (respond (cart_handler (calm 0) (signed_in alice None None) (CartAdd (Some "C"))) shop)) /\
  cart_invariant (snd (respond (createOrder (calm 1) alice) shop)).
Proof.
  destruct (carts_stay_well_formed (calm 0) shop shop_cart_invariant) as [Hcart _].
  destruct (carts_stay_well_formed (calm 1) shop shop_cart_invariant) as [_ Hcheckout].
  split; [apply shop_cart_invariant|]. split; [apply Hcart|apply Hcheckout].
Defined.
